(** * investment-buddy: the financial-data acquisition layer

    A shallow embedding of the Go package's data-fetch functions
    ([makeAPIRequest], [GetFinancialMetrics], [GetInsiderTrades],
    [GetCompanyNews], [GetMarketCap], [PricesToDataFrame] and
    [LineItem.UnmarshalJSON]) together with the properties the
    specification states about them; then of the rest of the layer
    ([GetPrices], [GetPriceData], [SearchLineItems]), of the agent's
    tools (package [tools]) and of their wiring in
    [analyzeWithReactAgent], with properties read off the code.

    Effects are explicit.  The remote service, the clock and the process
    environment are an [Env]; the observable trace of a run (HTTP attempts
    issued, back-off sleeps, progress notices) is a [World] threaded
    through every call.  Go's [(value, error)] results are sums or pairs. *)

From Stdlib Require Import ZArith Floats String Ascii List Lia Permutation Sorted.
From Stdlib Require Import DecimalString.
From stdpp Require Import gmap strings list.

Set Warnings "-register-all".
Set Warnings "-inexact-float".

Local Open Scope Z_scope.

(* ================================================================== *)
(** * Machine integers *)

(** Go's [int] and [int64] (and [time.Duration]) are 64-bit two's
    complement; arithmetic wraps. *)
Definition wrap64 (z : Z) : Z := (z + 2 ^ 63) mod 2 ^ 64 - 2 ^ 63.

Definition maxInt64 : Z := 2 ^ 63 - 1.

(** [fmt.Sprintf("%d", n)]. *)
Definition itoa (n : Z) : string := NilZero.string_of_int (Z.to_int n).

(* ================================================================== *)
(** * Dynamic values ([any]) and parsed JSON *)

(** A JSON text after lexing and parsing: object members are kept in
    payload order, duplicates included.  A number literal is kept as
    [strconv.ParseFloat] reads it: a literal beyond the range of float64
    (such as [1e999]) is read as an infinity, together with a range
    error, and no other literal is. *)
Inductive json : Type :=
| JNull
| JBool (b : bool)
| JNumber (f : float)
| JString (s : string)
| JArray (elems : list json)
| JObject (members : list (string * json)).

(** What [encoding/json] stores into an [any]: [nil], [bool], [float64],
    [string], [[]any] or [map[string]any]. *)
Inductive any : Type :=
| ANil
| ABool (b : bool)
| AFloat (f : float)
| AString (s : string)
| ASlice (elems : list any)
| AMap (m : gmap string any).

(* ================================================================== *)
(** * Records of the data model *)

(** [Price] (types.go). *)
Record Price := mkPrice {
  Open : float;
  Close : float;
  High : float;
  Low : float;
  Volume : Z;       (* int64 *)
  Time : string
}.

(** [InsiderTrade]; a Go pointer field is an [option]. *)
Record InsiderTrade := mkInsiderTrade {
  it_Ticker : string;
  it_Issuer : option string;
  it_Name : option string;
  it_Title : option string;
  it_IsBoardDirector : option bool;
  it_TransactionDate : option string;
  it_TransactionShares : option float;
  it_TransactionPricePerShare : option float;
  it_TransactionValue : option float;
  it_SharesOwnedBeforeTransaction : option float;
  it_SharesOwnedAfterTransaction : option float;
  it_SecurityTitle : option string;
  FilingDate : string
}.

(** [tools.CompanyNews], the element type of [CompanyNewsResponse.News]. *)
Record CompanyNews := mkCompanyNews {
  cn_ID : string;
  cn_Title : string;
  cn_Summary : string;
  cn_URL : string;
  cn_Source : string;
  cn_Category : string;
  DateTime : string
}.

(** [tools.FinancialMetrics]. *)
Record FinancialMetrics := mkFinancialMetrics {
  fm_Ticker : string;
  fm_ReportPeriod : string;
  fm_Period : string;
  fm_Currency : string;
  fm_MarketCap : float;
  fm_EnterpriseValue : float;
  fm_PriceToEarningsRatio : float;
  fm_PriceToBookRatio : float;
  fm_PriceToSalesRatio : float;
  fm_EnterpriseValueToEbitdaRatio : float;
  fm_EnterpriseValueToRevenueRatio : float;
  fm_FreeCashFlowYield : float;
  fm_PegRatio : float;
  fm_GrossMargin : float;
  fm_OperatingMargin : option float;
  fm_NetMargin : option float;
  fm_ReturnOnEquity : option float;
  fm_ReturnOnAssets : option float;
  fm_ReturnOnInvestedCapital : float;
  fm_AssetTurnover : float;
  fm_InventoryTurnover : float;
  fm_ReceivablesTurnover : float;
  fm_DaysSalesOutstanding : float;
  fm_OperatingCycle : float;
  fm_WorkingCapitalTurnover : float;
  fm_CurrentRatio : option float;
  fm_QuickRatio : option float;
  fm_CashRatio : option float;
  fm_OperatingCashFlowRatio : float;
  fm_DebtToEquity : option float;
  fm_DebtToAssets : float;
  fm_InterestCoverage : option float;
  fm_RevenueGrowth : float;
  fm_EarningsGrowth : float;
  fm_BookValueGrowth : float;
  fm_EarningsPerShareGrowth : float;
  fm_FreeCashFlowGrowth : float;
  fm_OperatingIncomeGrowth : float;
  fm_EbitdaGrowth : float;
  fm_PayoutRatio : float;
  fm_EarningsPerShare : float;
  fm_BookValuePerShare : float;
  fm_FreeCashFlowPerShare : float
}.

(** [CompanyFacts]. *)
Record CompanyFacts := mkCompanyFacts {
  cf_Ticker : string;
  cf_Name : string;
  cf_CIK : string;
  cf_Industry : string;
  cf_Sector : string;
  cf_Category : string;
  cf_Exchange : string;
  cf_IsActive : bool;
  cf_ListingDate : string;
  cf_Location : string;
  cf_MarketCap : float;
  cf_NumberOfEmployees : Z;
  cf_SecFilingsURL : string;
  cf_SicCode : string;
  cf_SicIndustry : string;
  cf_SicSector : string;
  cf_WebsiteURL : string;
  cf_WeightedAverageShares : Z
}.

(* ================================================================== *)
(** * HTTP, errors and the world *)

Record Request := mkRequest {
  Method : string;
  URL : string;
  Header : gmap string string;
  ReqBody : option string
}.

(** An [*http.Response] as the package uses it: the status code and what
    [io.ReadAll(resp.Body)] gives (the bytes read, and whether the read
    ends in an error). *)
Record Response := mkResponse {
  StatusCode : Z;
  Body : string;
  BodyReadFails : bool
}.

(** What [cli.Do(req)] comes back with. *)
Inductive Outcome :=
| TransportFailure (cause : string)
| Reply (resp : Response).

(** The package's error values, one constructor per [fmt.Errorf] site
    (wrapped errors are kept as arguments). *)
Inductive error :=
| ErrMarshal                                  (* "序列化 JSON 数据失败: %w" *)
| ErrNewPOST                                  (* "创建 POST 请求失败: %w" *)
| ErrNewGET                                   (* "创建 GET 请求失败: %w" *)
| ErrDo (cause : string)                      (* "执行 HTTP 请求失败: %w" *)
| ErrRetriesExhausted (maxRetries : Z)        (* "在 %d 次重试后仍然失败" *)
| ErrAPIRequest (inner : error)               (* "API 请求失败: %w" *)
| ErrStatus (ticker : string) (code : Z) (body : string)
                                              (* "获取数据错误: %s - %d - %s" *)
| ErrReadBody                                 (* "读取响应体失败: %w" *)
| ErrDecode (what : string)                   (* "解析…响应失败: %w" *)
| ErrParseTime (value : string)               (* "解析时间失败: %s, %w" *)
| ErrJSON.                                    (* an error of encoding/json *)

(** Lines written to standard output. *)
Inductive Notice :=
| RateLimited (attempt total delay : Z)
    (* "接收到限流响应 (429)。尝试 %d/%d。等待 %ds 后重试..." *)
| FactsError (ticker : string) (code : Z).
    (* "获取公司事实错误: %s - %d" *)

(** Everything outside the package.  The service is deterministic in the
    history of attempts it has seen. *)
Record Env := mkEnv {
  server : list Request -> Request -> Outcome;  (* [cli.Do] *)
  urlParses : string -> bool;                   (* [http.NewRequest] accepts the URL *)
  json_Marshal : gmap string any -> option string;
  canonicalHeaderKey : string -> string;        (* [http.CanonicalHeaderKey] *)
  getenv : string -> string;                    (* [os.Getenv] *)
  (* [json.Unmarshal(body, &v)] at the four typed envelopes; [None] is a
     decoding error, an absent or null list decodes to the empty one. *)
  decodeFinancialMetrics : string -> option (list FinancialMetrics);
  decodeInsiderTrades : string -> option (list InsiderTrade);
  decodeCompanyNews : string -> option (list CompanyNews);
  decodeCompanyFacts : string -> option CompanyFacts;
  nowPlusDays : Z -> string
    (* [time.Now().AddDate(0, 0, d).Format("2006-01-02")] *)
}.

(** The trace of a run, in chronological order. *)
Record World := mkWorld {
  requests : list Request;   (* attempts handed to [cli.Do] *)
  sleeps : list Z;           (* arguments of [time.Sleep], in nanoseconds *)
  stdout : list Notice
}.

Definition Result (A : Type) : Type := error + A.

(** [time.Duration(delay) * time.Second]. *)
Definition seconds (delay : Z) : Z := wrap64 (delay * 1000000000).

(* ================================================================== *)
(** * The retry client *)

Module Retry.

Section MakeAPIRequest.
Variable E : Env.
Variables (url : string) (headers : gmap string string) (method : string)
          (jsonData : option (gmap string any)) (maxRetries : Z).

(** [req.Header.Set(key, value)]. *)
Definition setHeader (key value : string) (req : Request) : Request :=
  mkRequest (Method req) (URL req)
            (<[canonicalHeaderKey E key := value]> (Header req)) (ReqBody req).

(** [http.NewRequest(method, url, body)]. *)
Definition newRequest (m : string) (body : option string) : option Request :=
  if urlParses E url then Some (mkRequest m url ∅ body) else None.

(** Lines 140-163: the request of one attempt.  The loop over [headers]
    is the fold of the map in one order; Go leaves the order of a [range]
    over a map open, which tells only when two keys of the map have one
    canonical name. *)
Definition buildRequest : Result Request :=
  let built :=
    match jsonData with
    | Some data =>
        if String.eqb method "POST" then
          match json_Marshal E data with
          | None => inl ErrMarshal
          | Some body =>
              match newRequest "POST" (Some body) with
              | None => inl ErrNewPOST
              | Some req => inr (setHeader "Content-Type" "application/json" req)
              end
          end
        else
          match newRequest "GET" None with
          | None => inl ErrNewGET
          | Some req => inr req
          end
    | None =>
        match newRequest "GET" None with
        | None => inl ErrNewGET
        | Some req => inr req
        end
    end in
  match built with
  | inl e => inl e
  | inr req => inr (map_fold (fun k v r => setHeader k v r) req headers)
  end.

(** [delay := 60 + (30 * attempt)]. *)
Definition delayOf (attempt : Z) : Z := wrap64 (60 + wrap64 (30 * attempt)).

(** The [for attempt := 0; attempt <= maxRetries; attempt++] loop, from
    the state at the loop test.  [None] only when [fuel] runs out. *)
Fixpoint attemptLoop (fuel : nat) (attempt : Z) (w : World)
  : option (Result Response * World) :=
  match fuel with
  | O => None
  | S fuel' =>
      if attempt <=? maxRetries then
        match buildRequest with
        | inl e => Some (inl e, w)
        | inr req =>
            let w1 := mkWorld (requests w ++ [req]) (sleeps w) (stdout w) in
            match server E (requests w) req with
            | TransportFailure cause => Some (inl (ErrDo cause), w1)
            | Reply resp =>
                if (StatusCode resp =? 429) && (attempt <? maxRetries) then
                  let delay := delayOf attempt in
                  let w2 :=
                    mkWorld (requests w1)
                            (sleeps w1 ++ [seconds delay])
                            (stdout w1 ++
                               [RateLimited (wrap64 (attempt + 1))
                                            (wrap64 (maxRetries + 1)) delay]) in
                  attemptLoop fuel' (wrap64 (attempt + 1)) w2
                else Some (inr resp, w1)
            end
        end
      else Some (inl (ErrRetriesExhausted maxRetries), w)
  end.

(** Iterations the loop can take, plus the final test. *)
Definition attemptFuel : nat := S (Z.to_nat (maxRetries + 1)).

Definition makeAPIRequest (w : World) : option (Result Response * World) :=
  attemptLoop attemptFuel 0 w.

End MakeAPIRequest.

End Retry.

(* ================================================================== *)
(** * Request preparation shared by the fetch functions *)

(** The [headers] map every fetch function builds from its variadic
    [apiKey] argument. *)
Definition apiHeaders (E : Env) (apiKey : list string) : gmap string string :=
  let financialAPIKey :=
    match apiKey with
    | k :: _ => if negb (String.eqb k "") then k
                else getenv E "FINANCIAL_DATASETS_API_KEY"
    | [] => getenv E "FINANCIAL_DATASETS_API_KEY"
    end in
  if negb (String.eqb financialAPIKey "") then {[ "X-API-KEY" := financialAPIKey ]}
  else ∅.

(** [strings.Contains(s, string(c))] for a one-byte needle. *)
Fixpoint strings_Contains (s : string) (c : ascii) : bool :=
  match s with
  | EmptyString => false
  | String a rest => Ascii.eqb a c || strings_Contains rest c
  end.

(** [strings.Split(s, string(c))[0]]: the part before the first [c]
    (all of [s] when there is none). *)
Fixpoint strings_Split_0 (s : string) (c : ascii) : string :=
  match s with
  | EmptyString => EmptyString
  | String a rest => if Ascii.eqb a c then EmptyString
                     else String a (strings_Split_0 rest c)
  end.

(* ================================================================== *)
(** * Paginated aggregators *)

Module Paginate.

(** The loops of [GetInsiderTrades] (lines 376-434) and [GetCompanyNews]
    (lines 469-527) are the same text up to the URL, the decoder, the
    decode-error message and the date field; they are embedded once. *)
Section Loop.
Variable E : Env.
Variable T : Type.
Variable dateOf : T -> string.                    (* [.FilingDate] / [.DateTime] *)
Variable decode : string -> option (list T).
Variable what : string.
Variable pageURL : string -> string.              (* from [currentEndDate] *)
Variables (ticker : string) (startDate : option string) (limit : Z)
          (headers : gmap string string).

(** The oldest date of a page and its date part. *)
Definition minDateOf (first : T) (page : list T) : string :=
  fold_left (fun minDate t =>
               if String.ltb (dateOf t) minDate then dateOf t else minDate)
            page (dateOf first).

Definition stripTime (minDate : string) : string :=
  if strings_Contains minDate "T" then strings_Split_0 minDate "T" else minDate.

(** The [for { ... }] loop from the top of an iteration; [inr all] is
    the value of the accumulator when the loop is left by [break]. *)
Fixpoint pageLoop (fuel : nat) (currentEndDate : string) (all : list T)
         (w : World) : option (Result (list T) * World) :=
  match fuel with
  | O => None
  | S fuel' =>
      match Retry.makeAPIRequest E (pageURL currentEndDate) headers "GET" None 3 w with
      | None => None
      | Some (inl err, w1) => Some (inl (ErrAPIRequest err), w1)
      | Some (inr resp, w1) =>
          if negb (StatusCode resp =? 200) then
            Some (inl (ErrStatus ticker (StatusCode resp) (Body resp)), w1)
          else if BodyReadFails resp then Some (inl ErrReadBody, w1)
          else
            match decode (Body resp) with
            | None => Some (inl (ErrDecode what), w1)
            | Some [] => Some (inr all, w1)
            | Some ((first :: _) as page) =>
                let all' := all ++ page in
                if match startDate with None => true | Some _ => false end
                   || (Z.of_nat (length page) <? limit)
                then Some (inr all', w1)
                else
                  let minDate := stripTime (minDateOf first page) in
                  match startDate with
                  | Some sd =>
                      if String.leb minDate sd then Some (inr all', w1)
                      else pageLoop fuel' minDate all' w1
                  | None => pageLoop fuel' minDate all' w1
                  end
            end
      end
  end.

End Loop.

(** After the loop (lines 436-439, 529-532): errors pass through, an
    empty accumulator is returned as the empty slice. *)
Definition finish {T : Type} (r : option (Result (list T) * World))
  : option (Result (list T) * World) :=
  match r with
  | None => None
  | Some (inl e, w') => Some (inl e, w')
  | Some (inr all, w') => Some (inr (match all with [] => [] | _ => all end), w')
  end.

End Paginate.

Definition defaultLimit (limit dflt : Z) : Z := if limit =? 0 then dflt else limit.

(** [GetInsiderTrades(ticker, endDate, startDate, limit, apiKey...)]. *)
Section GetInsiderTrades.
Variable E : Env.
Variables (ticker endDate : string) (startDate : option string) (limit : Z)
          (apiKey : list string).

Definition tradesStartDateStr : string :=
  match startDate with
  | None => nowPlusDays E (-30)
  | Some _ => "none"
  end.

Definition tradesURL (currentEndDate : string) : string :=
  let url := "https://api.financialdatasets.ai/insider-trades/?ticker=" +:+ ticker
             +:+ "&filing_date_lte=" +:+ currentEndDate in
  let url := match startDate with
             | Some _ => url +:+ "&filing_date_gte=" +:+ tradesStartDateStr
             | None => url
             end in
  url +:+ "&limit=" +:+ itoa (defaultLimit limit 1000).

(** The loop of lines 376-434, from [currentEndDate] and [allTrades]. *)
Definition tradesLoop : nat -> string -> list InsiderTrade -> World
                        -> option (Result (list InsiderTrade) * World) :=
  Paginate.pageLoop E InsiderTrade FilingDate (decodeInsiderTrades E) "内部交易"
                    tradesURL ticker startDate (defaultLimit limit 1000)
                    (apiHeaders E apiKey).

Definition GetInsiderTrades (fuel : nat) (w : World)
  : option (Result (list InsiderTrade) * World) :=
  Paginate.finish (tradesLoop fuel endDate [] w).
End GetInsiderTrades.

(** [GetCompanyNews(ticker, endDate, startDate, limit, apiKey...)]. *)
Section GetCompanyNews.
Variable E : Env.
Variables (ticker endDate : string) (startDate : option string) (limit : Z)
          (apiKey : list string).

Definition newsStartDateStr : string :=
  match startDate with
  | None => nowPlusDays E 30
  | Some _ => "none"
  end.

Definition newsURL (currentEndDate : string) : string :=
  let url := "https://api.financialdatasets.ai/news/?ticker=" +:+ ticker
             +:+ "&end_date=" +:+ currentEndDate in
  let url := match startDate with
             | Some _ => url +:+ "&start_date=" +:+ newsStartDateStr
             | None => url
             end in
  url +:+ "&limit=" +:+ itoa (defaultLimit limit 1000).

(** The loop of lines 469-527, from [currentEndDate] and [allNews]. *)
Definition newsLoop : nat -> string -> list CompanyNews -> World
                      -> option (Result (list CompanyNews) * World) :=
  Paginate.pageLoop E CompanyNews DateTime (decodeCompanyNews E) "公司新闻"
                    newsURL ticker startDate (defaultLimit limit 1000)
                    (apiHeaders E apiKey).

Definition GetCompanyNews (fuel : nat) (w : World)
  : option (Result (list CompanyNews) * World) :=
  Paginate.finish (newsLoop fuel endDate [] w).
End GetCompanyNews.

(* ================================================================== *)
(** * Financial metrics and market capitalisation *)

(** [GetFinancialMetrics(ticker, endDate, period, limit, apiKey...)]. *)
Section GetFinancialMetrics.
Variable E : Env.
Variables (ticker endDate period : string) (limit : Z) (apiKey : list string).

Definition metricsPeriod : string :=
  if String.eqb period "" then "ttm" else period.

Definition metricsURL : string :=
  "https://api.financialdatasets.ai/financial-metrics/?ticker=" +:+ ticker
  +:+ "&report_period_lte=" +:+ endDate
  +:+ "&limit=" +:+ itoa (defaultLimit limit 10)
  +:+ "&period=" +:+ metricsPeriod.

Definition GetFinancialMetrics (w : World)
  : option (Result (list FinancialMetrics) * World) :=
  match Retry.makeAPIRequest E metricsURL (apiHeaders E apiKey) "GET" None 3 w with
  | None => None
  | Some (inl err, w1) => Some (inl (ErrAPIRequest err), w1)
  | Some (inr resp, w1) =>
      if negb (StatusCode resp =? 200) then
        Some (inl (ErrStatus ticker (StatusCode resp) (Body resp)), w1)
      else if BodyReadFails resp then Some (inl ErrReadBody, w1)
      else
        match decodeFinancialMetrics E (Body resp) with
        | None => Some (inl (ErrDecode "财务指标"), w1)
        | Some [] => Some (inr [], w1)
        | Some metrics => Some (inr metrics, w1)
        end
  end.
End GetFinancialMetrics.

(** [GetMarketCap(ticker, endDate, apiKey...)]; the result is Go's pair
    [(float64, error)], [None] in the second component being [nil]. *)
Section GetMarketCap.
Variable E : Env.
Variables (ticker endDate : string) (apiKey : list string).

Definition factsURL : string :=
  "https://api.financialdatasets.ai/company/facts/?ticker=" +:+ ticker.

Definition GetMarketCap (w : World) : option ((float * option error) * World) :=
  let today := nowPlusDays E 0 in
  if String.eqb endDate today then
    match Retry.makeAPIRequest E factsURL (apiHeaders E apiKey) "GET" None 3 w with
    | None => None
    | Some (inl err, w1) => Some ((0%float, Some (ErrAPIRequest err)), w1)
    | Some (inr resp, w1) =>
        if negb (StatusCode resp =? 200) then
          Some ((0%float, None),
                mkWorld (requests w1) (sleeps w1)
                        (stdout w1 ++ [FactsError ticker (StatusCode resp)]))
        else if BodyReadFails resp then Some ((0%float, Some ErrReadBody), w1)
        else
          match decodeCompanyFacts E (Body resp) with
          | None => Some ((0%float, Some (ErrDecode "公司事实")), w1)
          | Some facts => Some ((cf_MarketCap facts, None), w1)
          end
    end
  else
    match GetFinancialMetrics E ticker endDate "ttm" 10 apiKey w with
    | None => None
    | Some (inl err, w1) => Some ((0%float, Some err), w1)
    | Some (inr [], w1) => Some ((0%float, None), w1)
    | Some (inr (first :: _), w1) => Some ((fm_MarketCap first, None), w1)
    end.
End GetMarketCap.

(* ================================================================== *)
(** * The series normaliser *)

(** A [time.Time]: seconds and nanoseconds since 0001-01-01T00:00:00Z and
    the zone offset it is displayed in.  The zero value is the zero
    record. *)
Record time_Time := mkTime {
  t_sec : Z;
  t_nsec : Z;
  t_offset : Z
}.

Definition zeroTime : time_Time := mkTime 0 0 0.

(** [t.Before(u)]: the instant, not the zone, is compared. *)
Definition Before (t u : time_Time) : bool :=
  (t_sec t <? t_sec u) || ((t_sec t =? t_sec u) && (t_nsec t <? t_nsec u)).

Definition time_RFC3339 : string := "2006-01-02T15:04:05Z07:00".

(** [PriceDataFrame]. *)
Record PriceDataFrame := mkPriceDataFrame {
  Dates : list time_Time;
  df_Open : list float;
  df_Close : list float;
  df_High : list float;
  df_Low : list float;
  df_Volume : list Z
}.

(** The local [sortData] struct of [PricesToDataFrame]. *)
Record sortData := mkSortData {
  sd_date : time_Time;
  sd_open : float;
  sd_close : float;
  sd_high : float;
  sd_low : float;
  sd_volume : Z
}.

Module Normalize.

Section PricesToDataFrame.
(** [time.Parse(layout, value)]; [None] is a parse error. *)
Variable time_Parse : string -> string -> option time_Time.
(** [sort.Slice(data, less)], as the slice it leaves behind; [less] is
    read on the elements at the two indices. *)
Variable sort_Slice : forall A : Type, list A -> (A -> A -> bool) -> list A.

(** Lines 618-625. *)
Definition parseTime (value : string) : Result time_Time :=
  match time_Parse time_RFC3339 value with
  | Some date => inr date
  | None =>
      match time_Parse "2006-01-02" value with
      | Some date => inr date
      | None => inl (ErrParseTime value)
      end
  end.

(** Lines 607-614: [make] gives zero-filled columns. *)
Definition makeFrame (n : nat) : PriceDataFrame :=
  mkPriceDataFrame (replicate n zeroTime) (replicate n 0%float)
                   (replicate n 0%float) (replicate n 0%float)
                   (replicate n 0%float) (replicate n 0).

(** Assignments [df.Dates[i] = ...; ...; df.Volume[i] = ...]. *)
Definition setRow (i : nat) (date : time_Time) (o c h l : float) (v : Z)
           (df : PriceDataFrame) : PriceDataFrame :=
  mkPriceDataFrame (<[i := date]> (Dates df)) (<[i := o]> (df_Open df))
                   (<[i := c]> (df_Close df)) (<[i := h]> (df_High df))
                   (<[i := l]> (df_Low df)) (<[i := v]> (df_Volume df)).

(** Lines 616-633: [for i, price := range prices]. *)
Fixpoint fillLoop (i : nat) (prices : list Price) (df : PriceDataFrame)
  : Result PriceDataFrame :=
  match prices with
  | [] => inr df
  | price :: rest =>
      match parseTime (Time price) with
      | inl e => inl e
      | inr date =>
          fillLoop (S i) rest
                   (setRow i date (Open price) (Close price) (High price)
                           (Low price) (Volume price) df)
      end
  end.

(** Lines 645-655: [data[i] = sortData{df.Dates[i], ...}]. *)
Definition rowAt (df : PriceDataFrame) (i : nat) : sortData :=
  mkSortData (nth i (Dates df) zeroTime) (nth i (df_Open df) 0%float)
             (nth i (df_Close df) 0%float) (nth i (df_High df) 0%float)
             (nth i (df_Low df) 0%float) (nth i (df_Volume df) 0).

Definition collect (n : nat) (df : PriceDataFrame) : list sortData :=
  map (rowAt df) (seq 0 n).

(** Lines 661-668: [for i, d := range data]. *)
Fixpoint writeBack (i : nat) (data : list sortData) (df : PriceDataFrame)
  : PriceDataFrame :=
  match data with
  | [] => df
  | d :: rest =>
      writeBack (S i) rest
                (setRow i (sd_date d) (sd_open d) (sd_close d) (sd_high d)
                        (sd_low d) (sd_volume d) df)
  end.

Definition lessByDate (a b : sortData) : bool := Before (sd_date a) (sd_date b).

Definition PricesToDataFrame (prices : list Price) : Result PriceDataFrame :=
  match prices with
  | [] => inr (mkPriceDataFrame [] [] [] [] [] [])
  | _ =>
      let n := length prices in
      match fillLoop 0 prices (makeFrame n) with
      | inl e => inl e
      | inr df =>
          let data := sort_Slice sortData (collect n df) lessByDate in
          inr (writeBack 0 data df)
      end
  end.
End PricesToDataFrame.

End Normalize.

(* ================================================================== *)
(** * Go's [sort.Slice]

    [PricesToDataFrame] sorts with the standard library's [sort.Slice],
    which since Go 1.19 is the pattern-defeating quicksort of
    [sort/zsortfunc.go].  The functions below follow that file; a slice is
    a list, [Less] and [Swap] act at indices, and every loop carries as
    fuel a bound on its iterations. *)

Module GoSort.

Section Sort.
Context {A : Type}.
Variable less : A -> A -> bool.

Definition at_ (data : list A) (i : Z) : option A :=
  if i <? 0 then None else data !! Z.to_nat i.

Definition Less (data : list A) (i j : Z) : bool :=
  match at_ data i, at_ data j with
  | Some x, Some y => less x y
  | _, _ => false
  end.

Definition Swap (data : list A) (i j : Z) : list A :=
  match at_ data i, at_ data j with
  | Some x, Some y => <[Z.to_nat i := y]> (<[Z.to_nat j := x]> data)
  | _, _ => data
  end.

(** [for j := i; j > a && data.Less(j, j-1); j-- { data.Swap(j, j-1) }] *)
Fixpoint insertionInner (fuel : nat) (a j : Z) (data : list A) : list A :=
  match fuel with
  | O => data
  | S f => if (j >? a) && Less data j (j - 1)
           then insertionInner f a (j - 1) (Swap data j (j - 1))
           else data
  end.

Fixpoint insertionOuter (fuel : nat) (a b i : Z) (data : list A) : list A :=
  match fuel with
  | O => data
  | S f => if i <? b
           then insertionOuter f a b (i + 1)
                               (insertionInner (Z.to_nat (i - a)) a i data)
           else data
  end.

Definition insertionSort_func (data : list A) (a b : Z) : list A :=
  insertionOuter (Z.to_nat (b - a)) a b (a + 1) data.

Fixpoint siftDownLoop (fuel : nat) (root hi first : Z) (data : list A) : list A :=
  match fuel with
  | O => data
  | S f =>
      let child := 2 * root + 1 in
      if child >=? hi then data
      else
        let child := if (child + 1 <? hi)
                        && Less data (first + child) (first + child + 1)
                     then child + 1 else child in
        if negb (Less data (first + root) (first + child)) then data
        else siftDownLoop f child hi first
                          (Swap data (first + root) (first + child))
  end.

Definition siftDown_func (data : list A) (lo hi first : Z) : list A :=
  siftDownLoop (S (Z.to_nat hi)) lo hi first data.

Fixpoint heapBuild (fuel : nat) (i hi first : Z) (data : list A) : list A :=
  match fuel with
  | O => data
  | S f => if i >=? 0
           then heapBuild f (i - 1) hi first (siftDown_func data i hi first)
           else data
  end.

Fixpoint heapPop (fuel : nat) (i first : Z) (data : list A) : list A :=
  match fuel with
  | O => data
  | S f => if i >=? 0
           then heapPop f (i - 1) first
                        (siftDown_func (Swap data first (first + i)) 0 i first)
           else data
  end.

Definition heapSort_func (data : list A) (a b : Z) : list A :=
  let first := a in
  let hi := b - a in
  let data := heapBuild (S (Z.to_nat hi)) (Z.quot (hi - 1) 2) hi first data in
  heapPop (S (Z.to_nat hi)) (hi - 1) first data.

Inductive sortedHint := unknownHint | increasingHint | decreasingHint.

Definition order2_func (data : list A) (a b swaps : Z) : Z * Z * Z :=
  if Less data b a then (b, a, swaps + 1) else (a, b, swaps).

Definition median_func (data : list A) (a b c swaps : Z) : Z * Z :=
  let '(a, b, swaps) := order2_func data a b swaps in
  let '(b, c, swaps) := order2_func data b c swaps in
  let '(a, b, swaps) := order2_func data a b swaps in
  (b, swaps).

Definition medianAdjacent_func (data : list A) (a swaps : Z) : Z * Z :=
  median_func data (a - 1) a (a + 1) swaps.

Definition choosePivot_func (data : list A) (a b : Z) : Z * sortedHint :=
  let l := b - a in
  let i := a + Z.quot l 4 * 1 in
  let j := a + Z.quot l 4 * 2 in
  let k := a + Z.quot l 4 * 3 in
  let '(j, swaps) :=
    if l >=? 8 then
      let '(i, j, k, swaps) :=
        if l >=? 50 then
          let '(i, swaps) := medianAdjacent_func data i 0 in
          let '(j, swaps) := medianAdjacent_func data j swaps in
          let '(k, swaps) := medianAdjacent_func data k swaps in
          (i, j, k, swaps)
        else (i, j, k, 0) in
      median_func data i j k swaps
    else (j, 0) in
  if swaps =? 0 then (j, increasingHint)
  else if swaps =? 12 then (j, decreasingHint)
  else (j, unknownHint).

Fixpoint reverseLoop (fuel : nat) (i j : Z) (data : list A) : list A :=
  match fuel with
  | O => data
  | S f => if i <? j then reverseLoop f (i + 1) (j - 1) (Swap data i j) else data
  end.

Definition reverseRange_func (data : list A) (a b : Z) : list A :=
  reverseLoop (Z.to_nat (b - a)) a (b - 1) data.

(** [for i <= j && data.Less(i, a) { i++ }] *)
Fixpoint scanUp (fuel : nat) (test : Z -> bool) (i j : Z) : Z :=
  match fuel with
  | O => i
  | S f => if (i <=? j) && test i then scanUp f test (i + 1) j else i
  end.

(** [for i <= j && !data.Less(j, a) { j-- }] *)
Fixpoint scanDown (fuel : nat) (test : Z -> bool) (i j : Z) : Z :=
  match fuel with
  | O => j
  | S f => if (i <=? j) && test j then scanDown f test i (j - 1) else j
  end.

Fixpoint partitionLoop (fuel : nat) (a i j : Z) (data : list A) : Z * list A :=
  match fuel with
  | O => (j, data)
  | S f =>
      let n := S (Z.to_nat (j - i + 1)) in
      let i := scanUp n (fun i => Less data i a) i j in
      let j := scanDown n (fun j => negb (Less data j a)) i j in
      if i >? j then (j, data)
      else partitionLoop f a (i + 1) (j - 1) (Swap data i j)
  end.

Definition partition_func (data : list A) (a b pivot : Z) : list A * Z * bool :=
  let data := Swap data a pivot in
  let i := a + 1 in
  let j := b - 1 in
  let n := S (Z.to_nat (b - a)) in
  let i := scanUp n (fun i => Less data i a) i j in
  let j := scanDown n (fun j => negb (Less data j a)) i j in
  if i >? j then (Swap data j a, j, true)
  else
    let data := Swap data i j in
    let '(j, data) := partitionLoop n a (i + 1) (j - 1) data in
    (Swap data j a, j, false).

Fixpoint partitionEqualLoop (fuel : nat) (a i j : Z) (data : list A) : Z * list A :=
  match fuel with
  | O => (i, data)
  | S f =>
      let n := S (Z.to_nat (j - i + 1)) in
      let i := scanUp n (fun i => negb (Less data a i)) i j in
      let j := scanDown n (fun j => Less data a j) i j in
      if i >? j then (i, data)
      else partitionEqualLoop f a (i + 1) (j - 1) (Swap data i j)
  end.

Definition partitionEqual_func (data : list A) (a b pivot : Z) : list A * Z :=
  let data := Swap data a pivot in
  let '(i, data) := partitionEqualLoop (S (Z.to_nat (b - a))) a (a + 1) (b - 1) data in
  (data, i).

(** The two shifting loops of [partialInsertionSort_func]. *)
Fixpoint shiftLeft (fuel : nat) (j : Z) (data : list A) : list A :=
  match fuel with
  | O => data
  | S f => if j >=? 1 then
             if negb (Less data j (j - 1)) then data
             else shiftLeft f (j - 1) (Swap data j (j - 1))
           else data
  end.

Fixpoint shiftRight (fuel : nat) (j b : Z) (data : list A) : list A :=
  match fuel with
  | O => data
  | S f => if j <? b then
             if negb (Less data j (j - 1)) then data
             else shiftRight f (j + 1) b (Swap data j (j - 1))
           else data
  end.

(** [for j := 0; j < maxSteps; j++] with [maxSteps = 5] and
    [shortestShifting = 50]. *)
Fixpoint partialInsertionSteps (steps : nat) (a b i : Z) (data : list A)
  : list A * bool :=
  match steps with
  | O => (data, false)
  | S steps' =>
      let i := scanUp (S (Z.to_nat (b - i))) (fun i => negb (Less data i (i - 1)))
                      i (b - 1) in
      if i =? b then (data, true)
      else if b - a <? 50 then (data, false)
      else
        let data := Swap data i (i - 1) in
        let data := if i - a >=? 2 then shiftLeft (Z.to_nat i) (i - 1) data
                    else data in
        let data := if b - i >=? 2 then shiftRight (Z.to_nat (b - i)) (i + 1) b data
                    else data in
        partialInsertionSteps steps' a b i data
  end.

Definition partialInsertionSort_func (data : list A) (a b : Z) : list A * bool :=
  partialInsertionSteps 5 a b (a + 1) data.

(** [bits.Len(uint(n))] for [n >= 0]. *)
Definition bits_Len (n : Z) : Z := if n <=? 0 then 0 else Z.log2 n + 1.

(** The [Next] method of [xorshift], a [uint64]:
    [*r ^= *r << 13; *r ^= *r >> 17; *r ^= *r << 5]. *)
Definition xorshift_Next (r : Z) : Z :=
  let r := Z.lxor r (Z.shiftl r 13 mod 2 ^ 64) in
  let r := Z.lxor r (Z.shiftr r 17) in
  Z.lxor r (Z.shiftl r 5 mod 2 ^ 64).

Definition nextPowerOfTwo (length : Z) : Z := Z.shiftl 1 (bits_Len length).

Fixpoint breakLoop (n : nat) (i a length modulus idx random : Z) (data : list A)
  : list A :=
  match n with
  | O => data
  | S n' =>
      let random := xorshift_Next random in
      let other := Z.land random (modulus - 1) in
      let other := if other >=? length then other - length else other in
      breakLoop n' (i + 1) a length modulus idx random
                (Swap data (idx - 1 + i) (a + other))
  end.

Definition breakPatterns_func (data : list A) (a b : Z) : list A :=
  let length := b - a in
  if length >=? 8 then
    breakLoop 3 0 a length (nextPowerOfTwo length)
              (a + Z.quot length 4 * 2 - 1) length data
  else data.

Definition isIncreasing (h : sortedHint) : bool :=
  match h with increasingHint => true | _ => false end.

Definition isDecreasing (h : sortedHint) : bool :=
  match h with decreasingHint => true | _ => false end.

(** [pdqsort_func(data, a, b, limit)], entered with the values of the
    locals [wasBalanced] and [wasPartitioned] (both [true] on a call). *)
Fixpoint pdqsortLoop (fuel : nat) (data : list A) (a b limit : Z)
         (wasBalanced wasPartitioned : bool) : list A :=
  match fuel with
  | O => data
  | S f =>
      let length := b - a in
      if length <=? 12 then insertionSort_func data a b
      else if limit =? 0 then heapSort_func data a b
      else
        let '(data, limit) :=
          if negb wasBalanced then (breakPatterns_func data a b, limit - 1)
          else (data, limit) in
        let '(pivot, hint) := choosePivot_func data a b in
        let '(data, pivot, hint) :=
          if isDecreasing hint
          then (reverseRange_func data a b, (b - 1) - (pivot - a), increasingHint)
          else (data, pivot, hint) in
        let '(data, done) :=
          if wasBalanced && wasPartitioned && isIncreasing hint
          then partialInsertionSort_func data a b
          else (data, false) in
        if done then data
        else if (a >? 0) && negb (Less data (a - 1) pivot) then
          let '(data, mid) := partitionEqual_func data a b pivot in
          pdqsortLoop f data mid b limit wasBalanced wasPartitioned
        else
          let '(data, mid, alreadyPartitioned) := partition_func data a b pivot in
          let leftLen := mid - a in
          let rightLen := b - mid in
          let balanceThreshold := Z.quot length 8 in
          if leftLen <? rightLen then
            let data := pdqsortLoop f data a mid limit true true in
            pdqsortLoop f data (mid + 1) b limit
                        (leftLen >=? balanceThreshold) alreadyPartitioned
          else
            let data := pdqsortLoop f data (mid + 1) b limit true true in
            pdqsortLoop f data a mid limit
                        (rightLen >=? balanceThreshold) alreadyPartitioned
  end.

Definition pdqsort_func (data : list A) (a b limit : Z) : list A :=
  pdqsortLoop (S (Z.to_nat (b - a))) data a b limit true true.
End Sort.

(** [sort.Slice(x, less)]. *)
Definition Slice (A : Type) (x : list A) (less : A -> A -> bool) : list A :=
  let length := Z.of_nat (List.length x) in
  let limit := bits_Len length in
  pdqsort_func less x 0 length limit.

End GoSort.

(* ================================================================== *)
(** * Dynamic-field decoding of line items *)

(** [LineItem]; a nil [Data] map and an empty one are both [∅]. *)
Record LineItem := mkLineItem {
  Ticker : string;
  ReportPeriod : string;
  Period : string;
  Currency : string;
  Data : gmap string any
}.

Module LineItemJSON.

(** [strconv.ParseFloat] reported a range error for the literal. *)
Definition rangeError (f : float) : bool := PrimFloat.is_infinity f.

(** The value [encoding/json] stores into an [any] for a JSON value; in an
    object a repeated key keeps its last value, and a number literal that
    does not fit float64 leaves [nil] (and an error, see [numbersFit]). *)
Fixpoint toAny (j : json) : any :=
  match j with
  | JNull => ANil
  | JBool b => ABool b
  | JNumber f => if rangeError f then ANil else AFloat f
  | JString s => AString s
  | JArray elems => ASlice (map toAny elems)
  | JObject members =>
      AMap (fold_left (fun m kv => <[fst kv := snd kv]> m)
                      (map (fun kv => (fst kv, toAny (snd kv))) members) ∅)
  end.

(** No number literal of the value, at any depth, is beyond float64:
    decoding into an [any] saves an [UnmarshalTypeError] for each one
    that is, and goes on. *)
Fixpoint numbersFit (j : json) : bool :=
  match j with
  | JNumber f => negb (rangeError f)
  | JArray elems => forallb numbersFit elems
  | JObject members => forallb (fun kv => numbersFit (snd kv)) members
  | _ => true
  end.

(** The four fields of [Alias] that carry a [json] tag ([Data] has
    [json:"-"]). *)
Inductive Field := FTicker | FReportPeriod | FPeriod | FCurrency.

Definition tagName (f : Field) : string :=
  match f with
  | FTicker => "ticker"
  | FReportPeriod => "report_period"
  | FPeriod => "period"
  | FCurrency => "currency"
  end.

Definition fields : list Field := [FTicker; FReportPeriod; FPeriod; FCurrency].

Definition toLower (c : ascii) : ascii :=
  let n := nat_of_ascii c in
  if ((65 <=? n) && (n <=? 90))%nat then ascii_of_nat (n + 32) else c.

(** Case folding of an object key as [encoding/json] matches struct
    fields: ASCII letters without case, and the two non-ASCII runes that
    fold to ASCII letters, U+212A (Kelvin sign, bytes E2 84 AA) to [k] and
    U+017F (long s, bytes C5 BF) to [s]. *)
Fixpoint foldName (s : string) : string :=
  match s with
  | EmptyString => EmptyString
  | String c rest =>
      match c, rest with
      | "226"%char, String "132"%char (String "170"%char rest') =>
          String "k"%char (foldName rest')
      | "197"%char, String "191"%char rest' => String "s"%char (foldName rest')
      | _, _ => String (toLower c) (foldName rest)
      end
  end.

(** The field an object key is decoded into: an exact match of the tag,
    or else a match up to case folding. *)
Definition fieldFor (key : string) : option Field :=
  match find (fun f => String.eqb (tagName f) key) fields with
  | Some f => Some f
  | None => find (fun f => String.eqb (foldName (tagName f)) (foldName key)) fields
  end.

Definition setField (f : Field) (s : string) (li : LineItem) : LineItem :=
  match f with
  | FTicker => mkLineItem s (ReportPeriod li) (Period li) (Currency li) (Data li)
  | FReportPeriod => mkLineItem (Ticker li) s (Period li) (Currency li) (Data li)
  | FPeriod => mkLineItem (Ticker li) (ReportPeriod li) s (Currency li) (Data li)
  | FCurrency => mkLineItem (Ticker li) (ReportPeriod li) (Period li) s (Data li)
  end.

(** One object member decoded into the struct: a string is stored, [null]
    leaves the field alone, any other value is a type error (the first one
    is kept and returned once the object has been read), an unknown key is
    skipped. *)
Definition decodeMember (st : LineItem * option error) (kv : string * json)
  : LineItem * option error :=
  match fieldFor (fst kv) with
  | None => st
  | Some f =>
      match snd kv with
      | JString s => (setField f s (fst st), snd st)
      | JNull => st
      | _ => (fst st, match snd st with None => Some ErrJSON | Some e => Some e end)
      end
  end.

(** [json.Unmarshal(data, &aux)]; [data = None] is a payload that is not
    valid JSON. *)
Definition unmarshalAlias (data : option json) (li : LineItem)
  : LineItem * option error :=
  match data with
  | None => (li, Some ErrJSON)
  | Some (JObject members) => fold_left decodeMember members (li, None)
  | Some JNull => (li, None)
  | Some _ => (li, Some ErrJSON)
  end.

(** [json.Unmarshal(data, &raw)] for [var raw map[string]any]: the only
    error on an object is that of a number literal beyond float64. *)
Definition unmarshalRaw (data : option json) : gmap string any * option error :=
  match data with
  | None => (∅, Some ErrJSON)
  | Some (JObject members) =>
      (fold_left (fun m kv => <[fst kv := toAny (snd kv)]> m) members ∅,
       if numbersFit (JObject members) then None else Some ErrJSON)
  | Some JNull => (∅, None)
  | Some _ => (∅, Some ErrJSON)
  end.

(** [(li *LineItem) UnmarshalJSON(data)]: the receiver after the call and
    the error returned. *)
Definition UnmarshalJSON (data : option json) (li : LineItem)
  : LineItem * option error :=
  let '(li, err) := unmarshalAlias data li in
  match err with
  | Some e => (li, Some e)
  | None =>
      let '(raw, err) := unmarshalRaw data in
      match err with
      | Some e => (li, Some e)
      | None =>
          let raw := delete "ticker" raw in
          let raw := delete "report_period" raw in
          let raw := delete "period" raw in
          let raw := delete "currency" raw in
          (mkLineItem (Ticker li) (ReportPeriod li) (Period li) (Currency li) raw,
           None)
      end
  end.

End LineItemJSON.

(* ================================================================== *)
(** * Prices: [GetPrices] and [GetPriceData] *)

(** [GetPrices(ticker, startDate, endDate, apiKey...)]. *)
Section GetPrices.
Variable E : Env.
(** [json.Unmarshal(body, &priceResponse)] read at [.Prices]; [None] is a
    decoding error, an absent or null list decodes to the empty one. *)
Variable decodePrices : string -> option (list Price).
Variables (ticker startDate endDate : string) (apiKey : list string).

Definition pricesURL : string :=
  "https://api.financialdatasets.ai/prices/?ticker=" +:+ ticker
  +:+ "&interval=day&interval_multiplier=1&start_date=" +:+ startDate
  +:+ "&end_date=" +:+ endDate.

Definition GetPrices (w : World) : option (Result (list Price) * World) :=
  match Retry.makeAPIRequest E pricesURL (apiHeaders E apiKey) "GET" None 3 w with
  | None => None
  | Some (inl err, w1) => Some (inl (ErrAPIRequest err), w1)
  | Some (inr resp, w1) =>
      if negb (StatusCode resp =? 200) then
        Some (inl (ErrStatus ticker (StatusCode resp) (Body resp)), w1)
      else if BodyReadFails resp then Some (inl ErrReadBody, w1)
      else
        match decodePrices (Body resp) with
        | None => Some (inl (ErrDecode "价格"), w1)
        | Some [] => Some (inr [], w1)
        | Some prices => Some (inr prices, w1)
        end
  end.

(** [GetPriceData(ticker, startDate, endDate, apiKey...)]. *)
Variable time_Parse : string -> string -> option time_Time.
Variable sort_Slice : forall A : Type, list A -> (A -> A -> bool) -> list A.

Definition GetPriceData (w : World) : option (Result PriceDataFrame * World) :=
  match GetPrices w with
  | None => None
  | Some (inl err, w1) => Some (inl err, w1)
  | Some (inr prices, w1) =>
      Some (Normalize.PricesToDataFrame time_Parse sort_Slice prices, w1)
  end.
End GetPrices.

(* ================================================================== *)
(** * Line-item search: [SearchLineItems] *)

(** A call either returns Go's [(value, error)] or stops in a run-time
    panic. *)
Inductive Run (A : Type) : Type :=
| Panics
| Returns (r : Result A).
Arguments Panics {A}.
Arguments Returns {A} r.

(** [SearchLineItems(ticker, lineItems, endDate, period, limit, apiKey...)]. *)
Section SearchLineItems.
Variable E : Env.
(** The request body is a [map[string]any] that holds, besides strings, a
    [[]string] and an [int].  The strings go into [any] as they are and a
    [[]string] as the slice of its elements (a nil slice as the empty
    one); [anyOfInt] stands for the [any] that holds an [int], which only
    [json.Marshal] looks into. *)
Variable anyOfInt : Z -> any.
(** [json.Unmarshal(responseBody, &lineItemResponse)] read at
    [.SearchResults] (each element through [LineItem.UnmarshalJSON]). *)
Variable decodeLineItems : string -> option (list LineItem).
Variables (ticker : string) (lineItems : list string) (endDate period : string)
          (limit : Z) (apiKey : list string).

Definition searchPeriod : string :=
  if String.eqb period "" then "ttm" else period.

Definition searchURL : string :=
  "https://api.financialdatasets.ai/financials/search/line-items".

Definition searchBody : gmap string any :=
  <["tickers" := ASlice [AString ticker]]>
    (<["line_items" := ASlice (map AString lineItems)]>
       (<["end_date" := AString endDate]>
          (<["period" := AString searchPeriod]>
             (<["limit" := anyOfInt (defaultLimit limit 10)]> ∅)))).

Definition SearchLineItems (w : World) : option (Run (list LineItem) * World) :=
  let limit := defaultLimit limit 10 in
  match Retry.makeAPIRequest E searchURL (apiHeaders E apiKey) "POST"
                             (Some searchBody) 3 w with
  | None => None
  | Some (inl err, w1) => Some (Returns (inl (ErrAPIRequest err)), w1)
  | Some (inr resp, w1) =>
      if negb (StatusCode resp =? 200) then
        Some (Returns (inl (ErrStatus ticker (StatusCode resp) (Body resp))), w1)
      else if BodyReadFails resp then Some (Returns (inl ErrReadBody), w1)
      else
        match decodeLineItems (Body resp) with
        | None => Some (Returns (inl (ErrDecode "行项目")), w1)
        | Some [] => Some (Returns (inr []), w1)
        | Some results =>
            if Z.of_nat (length results) >? limit then
              (* [SearchResults[:limit]] with [limit < len]: a slice
                 bound below zero is a run-time panic *)
              if limit <? 0 then Some (Panics, w1)
              else Some (Returns (inr (take (Z.to_nat limit) results)), w1)
            else Some (Returns (inr results), w1)
        end
  end.
End SearchLineItems.

(* ================================================================== *)
(** * The agent's tools (package [tools])

    Each tool is the function its constructor hands to [utils.InferTool].
    A tool logs, reads the clock, calls the fetch function it was built
    around and, for two of them, saves its answer under [output/]. *)

(** The errors of the three [save...ToFile] functions. *)
Inductive SaveError :=
| ErrMkdirAll          (* "创建目录失败: %v" *)
| ErrMarshalIndent     (* "JSON序列化失败: %v" *)
| ErrWriteFile.        (* "写入文件失败: %v" *)

(** An argument of [log.Printf]. *)
Inductive Arg :=
| ArgString (s : string)
| ArgInt (n : Z)
| ArgFloat (f : float)
| ArgError (e : error)
| ArgSaveError (e : SaveError).

(** What a tool does besides calling its fetch function, in order. *)
Inductive ToolEvent :=
| Logf (format : string) (args : list Arg)   (* [log.Printf(format, args...)] *)
| MkdirAll (path : string)                   (* [os.MkdirAll(path, 0755)] *)
| WriteFile (path data : string).            (* [os.WriteFile(path, data, 0644)] *)

(** The machine a tool runs on. *)
Record Host := mkHost {
  errText : error -> string;         (* an [error] under [%v] *)
  formatFloat1 : float -> string;    (* a [float64] under [%.1f] *)
  timeSuffix : string;               (* [time.Now().Format("2006-01-02_15-04-05")] *)
  filepath_Join : string -> string -> string;
  mkdirFails : list ToolEvent -> string -> bool;
  writeFails : list ToolEvent -> string -> string -> bool
}.

Record ToolWorld := mkToolWorld {
  http : World;
  events : list ToolEvent
}.

(** [saveNewsToFile], [saveMetricsToFile] and [saveAnalysisToFile] are
    the same text up to the directory, the file name, the value that is
    marshalled and the log line; they are embedded once.  [data] is what
    [json.MarshalIndent] gives, [None] for an error. *)
Section SaveToFile.
Variable H : Host.
Variables (dirPath fileName : string) (data : option string) (savedFormat : string).

Definition saveToFile (t : list ToolEvent) : option SaveError * list ToolEvent :=
  let t1 := t ++ [MkdirAll dirPath] in
  if mkdirFails H t dirPath then (Some ErrMkdirAll, t1)
  else
    let filePath := filepath_Join H dirPath fileName in
    match data with
    | None => (Some ErrMarshalIndent, t1)
    | Some data =>
        let t2 := t1 ++ [WriteFile filePath data] in
        if writeFails H t1 filePath data then (Some ErrWriteFile, t2)
        else (None, t2 ++ [Logf savedFormat [ArgString filePath]])
    end.
End SaveToFile.

(** ** [get_company_news] *)

Record CompanyNewsInput := mkCompanyNewsInput {
  cni_Symbol : string;
  cni_Date : string;
  cni_Limit : Z
}.

Record CompanyNewsOutput := mkCompanyNewsOutput {
  cno_Symbol : string;
  cno_Date : string;
  cno_News : list CompanyNews;
  cno_Count : Z;
  cno_Error : string
}.

Section CompanyNewsTool.
Variable E : Env.
Variable H : Host.
(** [json.MarshalIndent(newsOutput, "", "  ")]. *)
Variable marshalIndent : CompanyNewsOutput -> option string.
Variable getNewsFunc :
  string -> string -> option string -> Z -> World
  -> option (Result (list CompanyNews) * World).

Definition saveNewsToFile (newsOutput : CompanyNewsOutput) (t : list ToolEvent)
  : option SaveError * list ToolEvent :=
  saveToFile H "output/news"
             ("news_" +:+ cno_Symbol newsOutput +:+ "_" +:+ timeSuffix H +:+ ".json")
             (marshalIndent newsOutput)
             "[CompanyNewsTool] 新闻已保存到: %s" t.

(** [limit := req.Limit; if limit <= 0 { limit = 10 }; if limit > 20 { limit = 20 }]. *)
Definition newsLimit (limit : Z) : Z :=
  let limit := if limit <=? 0 then 10 else limit in
  if limit >? 20 then 20 else limit.

(** The function of [NewCompanyNewsTool]. *)
Definition companyNewsTool (req : CompanyNewsInput) (s : ToolWorld)
  : option ((CompanyNewsOutput * option error) * ToolWorld) :=
  let t := events s ++
           [Logf "[CompanyNewsTool] 接收到请求: Symbol=%s, Date=%s, Limit=%d"
                 [ArgString (cni_Symbol req); ArgString (cni_Date req);
                  ArgInt (cni_Limit req)]] in
  if String.eqb (cni_Symbol req) "" then
    Some ((mkCompanyNewsOutput "" "" [] 0 "股票代码不能为空", None),
          mkToolWorld (http s)
                      (t ++ [Logf "[CompanyNewsTool] 错误: 股票代码为空" []]))
  else
    let date := if String.eqb (cni_Date req) "" then nowPlusDays E 0
                else cni_Date req in
    let limit := newsLimit (cni_Limit req) in
    let t := t ++
             [Logf "[CompanyNewsTool] 准备调用API: Symbol=%s, Date=%s, Limit=%d"
                   [ArgString (cni_Symbol req); ArgString date; ArgInt limit]] in
    match getNewsFunc (cni_Symbol req) date None limit (http s) with
    | None => None
    | Some (inl err, w1) =>
        Some ((mkCompanyNewsOutput (cni_Symbol req) date [] 0
                                   ("获取新闻失败: " +:+ errText H err), None),
              mkToolWorld w1
                          (t ++ [Logf "[CompanyNewsTool] API调用失败: %v"
                                      [ArgError err]]))
    | Some (inr news, w1) =>
        let count := Z.of_nat (length news) in
        let t := t ++ [Logf "[CompanyNewsTool] API调用成功: 获取到 %d 条新闻"
                            [ArgInt count]] in
        let result := mkCompanyNewsOutput (cni_Symbol req) date news count "" in
        let '(saveErr, t) := saveNewsToFile result t in
        let t := match saveErr with
                 | Some err => t ++ [Logf "[CompanyNewsTool] 保存文件失败: %v"
                                          [ArgSaveError err]]
                 | None => t
                 end in
        Some ((result, None),
              mkToolWorld w1
                (t ++ [Logf "[CompanyNewsTool] 返回响应: Symbol=%s, Date=%s, Count=%d"
                            [ArgString (cni_Symbol req); ArgString date;
                             ArgInt count]]))
    end.
End CompanyNewsTool.

(** ** [get_financial_metrics] *)

Record FinancialMetricsInput := mkFinancialMetricsInput {
  fmi_Symbol : string;
  fmi_Date : string;
  fmi_Period : string;
  fmi_Limit : Z
}.

Record FinancialMetricsOutput := mkFinancialMetricsOutput {
  fmo_Symbol : string;
  fmo_Date : string;
  fmo_Period : string;
  fmo_Metrics : list FinancialMetrics;
  fmo_Count : Z;
  fmo_Error : string
}.

Section FinancialMetricsTool.
Variable E : Env.
Variable H : Host.
(** [json.MarshalIndent(metricsOutput, "", "  ")]. *)
Variable marshalIndent : FinancialMetricsOutput -> option string.
Variable getMetricsFunc :
  string -> string -> string -> Z -> World
  -> option (Result (list FinancialMetrics) * World).

Definition saveMetricsToFile (metricsOutput : FinancialMetricsOutput)
           (t : list ToolEvent) : option SaveError * list ToolEvent :=
  saveToFile H "output/metrics"
             ("metrics_" +:+ fmo_Symbol metricsOutput +:+ "_"
              +:+ fmo_Period metricsOutput +:+ "_" +:+ timeSuffix H +:+ ".json")
             (marshalIndent metricsOutput)
             "[FinancialMetricsTool] 财务指标已保存到: %s" t.

(** [limit := req.Limit; if limit <= 0 { limit = 5 }; if limit > 10 { limit = 10 }]. *)
Definition metricsLimit (limit : Z) : Z :=
  let limit := if limit <=? 0 then 5 else limit in
  if limit >? 10 then 10 else limit.

(** The function of [NewFinancialMetricsTool]. *)
Definition financialMetricsTool (req : FinancialMetricsInput) (s : ToolWorld)
  : option ((FinancialMetricsOutput * option error) * ToolWorld) :=
  let t := events s ++
           [Logf "[FinancialMetricsTool] 接收到请求: Symbol=%s, Date=%s, Period=%s, Limit=%d"
                 [ArgString (fmi_Symbol req); ArgString (fmi_Date req);
                  ArgString (fmi_Period req); ArgInt (fmi_Limit req)]] in
  if String.eqb (fmi_Symbol req) "" then
    Some ((mkFinancialMetricsOutput "" "" "" [] 0 "股票代码不能为空", None),
          mkToolWorld (http s)
                      (t ++ [Logf "[FinancialMetricsTool] 错误: 股票代码为空" []]))
  else
    let date := if String.eqb (fmi_Date req) "" then nowPlusDays E 0
                else fmi_Date req in
    let period := if String.eqb (fmi_Period req) "" then "ttm"
                  else fmi_Period req in
    let limit := metricsLimit (fmi_Limit req) in
    let t := t ++
             [Logf "[FinancialMetricsTool] 准备调用API: Symbol=%s, Date=%s, Period=%s, Limit=%d"
                   [ArgString (fmi_Symbol req); ArgString date; ArgString period;
                    ArgInt limit]] in
    match getMetricsFunc (fmi_Symbol req) date period limit (http s) with
    | None => None
    | Some (inl err, w1) =>
        Some ((mkFinancialMetricsOutput (fmi_Symbol req) date period [] 0
                                        ("获取财务指标失败: " +:+ errText H err),
               None),
              mkToolWorld w1
                          (t ++ [Logf "[FinancialMetricsTool] API调用失败: %v"
                                      [ArgError err]]))
    | Some (inr metrics, w1) =>
        let count := Z.of_nat (length metrics) in
        let t := t ++ [Logf "[FinancialMetricsTool] API调用成功: 获取到 %d 条财务指标"
                            [ArgInt count]] in
        let result :=
          mkFinancialMetricsOutput (fmi_Symbol req) date period metrics count "" in
        let '(saveErr, t) := saveMetricsToFile result t in
        let t := match saveErr with
                 | Some err => t ++ [Logf "[FinancialMetricsTool] 保存文件失败: %v"
                                          [ArgSaveError err]]
                 | None => t
                 end in
        Some ((result, None),
              mkToolWorld w1
                (t ++ [Logf "[FinancialMetricsTool] 返回响应: Symbol=%s, Date=%s, Period=%s, Count=%d"
                            [ArgString (fmi_Symbol req); ArgString date;
                             ArgString period; ArgInt count]]))
    end.
End FinancialMetricsTool.

(** ** [get_market_cap] *)

Record MarketCapInput := mkMarketCapInput {
  mci_Symbol : string;
  mci_Date : string
}.

Record MarketCapOutput := mkMarketCapOutput {
  mco_Symbol : string;
  mco_Date : string;
  mco_MarketCap : float;
  mco_Currency : string;
  mco_Error : string
}.

Section MarketCapTool.
Variable E : Env.
Variable H : Host.
Variable getMarketCapFunc :
  string -> string -> World -> option ((float * option error) * World).

(** The function of [NewMarketCapTool]. *)
Definition marketCapTool (req : MarketCapInput) (s : ToolWorld)
  : option ((MarketCapOutput * option error) * ToolWorld) :=
  let t := events s ++
           [Logf "[MarketCapTool] 接收到请求: Symbol=%s, Date=%s"
                 [ArgString (mci_Symbol req); ArgString (mci_Date req)]] in
  if String.eqb (mci_Symbol req) "" then
    Some ((mkMarketCapOutput "" "" 0%float "" "股票代码不能为空", None),
          mkToolWorld (http s)
                      (t ++ [Logf "[MarketCapTool] 错误: 股票代码为空" []]))
  else
    let date := if String.eqb (mci_Date req) "" then nowPlusDays E 0
                else mci_Date req in
    let t := t ++ [Logf "[MarketCapTool] 准备调用API: Symbol=%s, Date=%s"
                        [ArgString (mci_Symbol req); ArgString date]] in
    match getMarketCapFunc (mci_Symbol req) date (http s) with
    | None => None
    | Some ((_, Some err), w1) =>
        Some ((mkMarketCapOutput (mci_Symbol req) date 0%float ""
                                 ("获取市值失败: " +:+ errText H err), None),
              mkToolWorld w1
                          (t ++ [Logf "[MarketCapTool] API调用失败: %v"
                                      [ArgError err]]))
    | Some ((marketCap, None), w1) =>
        let t := t ++ [Logf "[MarketCapTool] API调用成功: MarketCap=%.2f"
                            [ArgFloat marketCap]] in
        Some ((mkMarketCapOutput (mci_Symbol req) date marketCap "USD" "", None),
              mkToolWorld w1
                (t ++ [Logf "[MarketCapTool] 返回响应: Symbol=%s, Date=%s, MarketCap=%.2f, Currency=%s"
                            [ArgString (mci_Symbol req); ArgString date;
                             ArgFloat marketCap; ArgString "USD"]]))
    end.
End MarketCapTool.

(** ** [analyze_fundamentals] *)

(** A value of the [Metrics] map of the answer: a [string], a [float64]
    or a [*float64]. *)
Inductive MetricValue :=
| MString (s : string)
| MFloat (f : float)
| MFloatPtr (p : option float).

Record FundamentalAnalysisRequest := mkFundamentalAnalysisRequest {
  far_Metrics : list FinancialMetrics
}.

Record FundamentalAnalysisResponse := mkFundamentalAnalysisResponse {
  Score : Z;
  Details : string;
  fa_Metrics : gmap string MetricValue;   (* a nil map is [∅] *)
  fa_Error : string
}.

(** [strings.Join(elems, sep)]. *)
Fixpoint strings_Join (elems : list string) (sep : string) : string :=
  match elems with
  | [] => ""
  | [a] => a
  | a :: rest => a +:+ sep +:+ strings_Join rest sep
  end.

Section FundamentalAnalysisTool.
Variable H : Host.
(** [json.MarshalIndent(analysisResult, "", "  ")]. *)
Variable marshalIndent : FundamentalAnalysisResponse -> option string.

Definition saveAnalysisToFile (analysisResult : FundamentalAnalysisResponse)
           (ticker : string) (t : list ToolEvent)
  : option SaveError * list ToolEvent :=
  saveToFile H "output/analysis"
             ("analysis_" +:+ ticker +:+ "_" +:+ timeSuffix H +:+ ".json")
             (marshalIndent analysisResult)
             "[FundamentalAnalysisTool] 分析结果已保存到: %s" t.

(** The six checks; each takes and gives [score] and [reasoning]. *)
Definition checkROE (m : FinancialMetrics) (st : Z * list string) : Z * list string :=
  let '(score, reasoning) := st in
  match fm_ReturnOnEquity m with
  | Some roe =>
      if (0.15 <? roe)%float then
        (score + 2,
         reasoning ++ ["强劲的ROE为" +:+ formatFloat1 H (roe * 100)%float +:+ "%"])
      else
        (score,
         reasoning ++ ["ROE较弱为" +:+ formatFloat1 H (roe * 100)%float +:+ "%"])
  | None => (score, reasoning ++ ["ROE数据不可用"])
  end.

Definition checkDebtToEquity (m : FinancialMetrics) (st : Z * list string)
  : Z * list string :=
  let '(score, reasoning) := st in
  match fm_DebtToEquity m with
  | Some de =>
      if (de <? 0.5)%float then (score + 2, reasoning ++ ["保守的债务水平"])
      else (score, reasoning ++ ["较高的债务股权比为" +:+ formatFloat1 H de])
  | None => (score, reasoning ++ ["债务股权比数据不可用"])
  end.

Definition checkOperatingMargin (m : FinancialMetrics) (st : Z * list string)
  : Z * list string :=
  let '(score, reasoning) := st in
  match fm_OperatingMargin m with
  | Some om =>
      if (0.15 <? om)%float then (score + 2, reasoning ++ ["强劲的营运利润率"])
      else
        (score,
         reasoning ++ ["营运利润率较弱为" +:+ formatFloat1 H (om * 100)%float +:+ "%"])
  | None => (score, reasoning ++ ["营运利润率数据不可用"])
  end.

Definition checkCurrentRatio (m : FinancialMetrics) (st : Z * list string)
  : Z * list string :=
  let '(score, reasoning) := st in
  match fm_CurrentRatio m with
  | Some cr =>
      if (1.5 <? cr)%float then (score + 1, reasoning ++ ["良好的流动性状况"])
      else (score, reasoning ++ ["流动性较弱，流动比率为" +:+ formatFloat1 H cr])
  | None => (score, reasoning ++ ["流动比率数据不可用"])
  end.

Definition checkPE (m : FinancialMetrics) (st : Z * list string) : Z * list string :=
  let '(score, reasoning) := st in
  let pe := fm_PriceToEarningsRatio m in
  if ((0 <? pe) && (pe <? 25))%float then
    (score + 1, reasoning ++ ["合理的P/E比率为" +:+ formatFloat1 H pe])
  else if (0 <? pe)%float then
    (score, reasoning ++ ["P/E比率较高为" +:+ formatFloat1 H pe])
  else (score, reasoning).

Definition checkPB (m : FinancialMetrics) (st : Z * list string) : Z * list string :=
  let '(score, reasoning) := st in
  let pb := fm_PriceToBookRatio m in
  if ((0 <? pb) && (pb <? 3))%float then
    (score + 1, reasoning ++ ["合理的P/B比率为" +:+ formatFloat1 H pb])
  else if (0 <? pb)%float then
    (score, reasoning ++ ["P/B比率较高为" +:+ formatFloat1 H pb])
  else (score, reasoning).

Definition metricsMap (m : FinancialMetrics) : gmap string MetricValue :=
  <["ticker" := MString (fm_Ticker m)]>
    (<["return_on_equity" := MFloatPtr (fm_ReturnOnEquity m)]>
       (<["debt_to_equity" := MFloatPtr (fm_DebtToEquity m)]>
          (<["operating_margin" := MFloatPtr (fm_OperatingMargin m)]>
             (<["current_ratio" := MFloatPtr (fm_CurrentRatio m)]>
                (<["pe_ratio" := MFloat (fm_PriceToEarningsRatio m)]>
                   (<["pb_ratio" := MFloat (fm_PriceToBookRatio m)]>
                      (<["market_cap" := MFloat (fm_MarketCap m)]>
                         (<["report_period" := MString (fm_ReportPeriod m)]> ∅)))))))).

(** The function of [NewFundamentalAnalysisTool]. *)
Definition fundamentalAnalysisTool (req : FundamentalAnalysisRequest)
           (t : list ToolEvent)
  : (FundamentalAnalysisResponse * option error) * list ToolEvent :=
  let t := t ++ [Logf "[FundamentalAnalysisTool] 接收到请求: 财务指标数量=%d"
                      [ArgInt (Z.of_nat (length (far_Metrics req)))]] in
  match far_Metrics req with
  | [] =>
      ((mkFundamentalAnalysisResponse 0 "基本面数据不足" ∅ "未提供财务指标数据", None),
       t ++ [Logf "[FundamentalAnalysisTool] 错误: 未提供财务指标数据" []])
  | latestMetrics :: _ =>
      let t := t ++
               [Logf "[FundamentalAnalysisTool] 开始分析: Ticker=%s, ReportPeriod=%s"
                     [ArgString (fm_Ticker latestMetrics);
                      ArgString (fm_ReportPeriod latestMetrics)]] in
      let '(score, reasoning) :=
        checkPB latestMetrics
          (checkPE latestMetrics
             (checkCurrentRatio latestMetrics
                (checkOperatingMargin latestMetrics
                   (checkDebtToEquity latestMetrics
                      (checkROE latestMetrics (0, [])))))) in
      let result :=
        mkFundamentalAnalysisResponse score (strings_Join reasoning "; ")
                                      (metricsMap latestMetrics) "" in
      let '(saveErr, t) := saveAnalysisToFile result (fm_Ticker latestMetrics) t in
      let t := match saveErr with
               | Some err => t ++ [Logf "[FundamentalAnalysisTool] 保存文件失败: %v"
                                        [ArgSaveError err]]
               | None => t
               end in
      ((result, None),
       t ++ [Logf "[FundamentalAnalysisTool] 分析完成: Score=%d, Ticker=%s, Details=%s"
                  [ArgInt score; ArgString (fm_Ticker latestMetrics);
                   ArgString (strings_Join reasoning "; ")]])
  end.
End FundamentalAnalysisTool.

(* ================================================================== *)
(** * The agent's wiring ([analyzeWithReactAgent]) *)

(** The three closures that connect the tools to the fetch functions;
    none passes an API key, none gives [GetCompanyNews] more than the
    arguments it got.  [fuel] bounds the page loop of [GetCompanyNews]. *)
Definition marketCapToolFunc (E : Env) (symbol date : string) (w : World)
  : option ((float * option error) * World) :=
  GetMarketCap E symbol date [] w.

Definition metricsToolFunc (E : Env) (symbol date period : string) (limit : Z)
           (w : World) : option (Result (list FinancialMetrics) * World) :=
  GetFinancialMetrics E symbol date period limit [] w.

Definition newsToolFunc (E : Env) (fuel : nat) (symbol date : string)
           (since : option string) (limit : Z) (w : World)
  : option (Result (list CompanyNews) * World) :=
  match GetCompanyNews E symbol date since limit [] fuel w with
  | None => None
  | Some (inl err, w1) => Some (inl err, w1)
  | Some (inr news, w1) => Some (inr news, w1)
  end.

(** What [sr.Recv()] gives: a message, of which the checker reads the
    number of tool calls, or an error, which is [io.EOF] or not. *)
Inductive Recv :=
| RecvMessage (toolCalls : nat)
| RecvEOF
| RecvError (err : string).

(** [toolCallChecker]: the answer, and what is left unread of the stream
    (closed on return).  A stream that has given everything answers
    [io.EOF]. *)
Fixpoint toolCallChecker (sr : list Recv) : (bool * option string) * list Recv :=
  match sr with
  | [] => ((false, None), [])
  | RecvEOF :: rest => ((false, None), rest)
  | RecvError err :: rest => ((false, Some err), rest)
  | RecvMessage toolCalls :: rest =>
      if (0 <? toolCalls)%nat then ((true, None), rest) else toolCallChecker rest
  end.

(* ================================================================== *)
(** * Properties of the retry client *)

Lemma wrap64_small z : - 2 ^ 63 <= z <= maxInt64 -> wrap64 z = z.
Proof.
  unfold wrap64, maxInt64. intros H.
  rewrite Z.mod_small; lia.
Qed.

Module RetryFacts.
Import Retry.

(** Attempt indices [attempt, attempt + 1, ..., attempt + n - 1]. *)
Definition indices (attempt : Z) (n : nat) : list Z :=
  map (fun i => attempt + Z.of_nat i) (seq 0 n).

Lemma indices_S attempt n : indices attempt (S n) = attempt :: indices (attempt + 1) n.
Proof.
  unfold indices. cbn [seq map]. rewrite Z.add_0_r. f_equal.
  rewrite <- seq_shift, map_map. apply map_ext. intros i. lia.
Qed.

Lemma indices_0 n : indices 0 n = map Z.of_nat (seq 0 n).
Proof. unfold indices. apply map_ext. intros i. lia. Qed.

(** What the caller gets from the attempt that ends the loop. *)
Definition resultOf (o : Outcome) : Result Response :=
  match o with
  | TransportFailure cause => inl (ErrDo cause)
  | Reply resp => inr resp
  end.

Section Runs.
Variable E : Env.
Variables (url : string) (headers : gmap string string) (method : string)
          (jsonData : option (gmap string any)) (maxRetries : Z).
Variable req : Request.
Hypothesis Hbuild : buildRequest E url headers method jsonData = inr req.

Local Abbreviation loop := (attemptLoop E url headers method jsonData maxRetries).

(** The world after [n] rate-limited attempts starting at [attempt]. *)
Definition backedOff (attempt : Z) (n : nat) (w : World) : World :=
  mkWorld (requests w ++ replicate n req)
          (sleeps w ++ map (fun i => seconds (delayOf i)) (indices attempt n))
          (stdout w ++
             map (fun i => RateLimited (i + 1) (wrap64 (maxRetries + 1)) (delayOf i))
                 (indices attempt n)).

Definition rateLimitedAt (w : World) (i : nat) : Prop :=
  exists r, server E (requests w ++ replicate i req) req = Reply r
            /\ StatusCode r = 429.

Lemma attemptLoop_429s n : forall fuel attempt w,
  0 <= attempt -> attempt + Z.of_nat n <= maxRetries -> maxRetries <= maxInt64 ->
  (forall i, (i < n)%nat -> rateLimitedAt w i) ->
  loop (n + fuel)%nat attempt w
  = loop fuel (attempt + Z.of_nat n) (backedOff attempt n w).
Proof.
  induction n as [|n IH]; intros fuel attempt w H0 Hle Hmax H429.
  - cbn [Nat.add]. rewrite Z.add_0_r. f_equal.
    destruct w; unfold backedOff; cbn. by rewrite !app_nil_r.
  - cbn [Nat.add attemptLoop].
    assert (Hlt : attempt < maxRetries) by lia.
    replace (attempt <=? maxRetries) with true by (symmetry; apply Z.leb_le; lia).
    rewrite Hbuild.
    destruct (H429 0%nat ltac:(lia)) as [r [Hr Hs]].
    cbn [replicate] in Hr. rewrite app_nil_r in Hr. rewrite Hr.
    replace (StatusCode r =? 429) with true by (symmetry; apply Z.eqb_eq; done).
    replace (attempt <? maxRetries) with true by (symmetry; apply Z.ltb_lt; done).
    cbn [andb requests sleeps stdout].
    assert (Hw : wrap64 (attempt + 1) = attempt + 1).
    { apply wrap64_small. unfold maxInt64 in *. lia. }
    rewrite Hw, IH; [| lia | lia | done |].
    + f_equal; [lia|].
      unfold backedOff. cbn [requests sleeps stdout].
      rewrite indices_S. cbn [map replicate].
      by rewrite <- !app_assoc.
    + intros i Hi. destruct (H429 (S i) ltac:(lia)) as [r' [Hr' Hs']].
      exists r'. split; [|done]. cbn [requests].
      rewrite <- app_assoc. exact Hr'.
Qed.

(** The attempt that ends the loop: anything but a 429 with retries left. *)
Lemma attemptLoop_last fuel attempt w o :
  attempt <= maxRetries ->
  server E (requests w) req = o ->
  match o with
  | TransportFailure _ => True
  | Reply r => StatusCode r <> 429 \/ attempt = maxRetries
  end ->
  loop (S fuel) attempt w
  = Some (resultOf o, mkWorld (requests w ++ [req]) (sleeps w) (stdout w)).
Proof.
  intros Hle Ho Hend. cbn [attemptLoop].
  replace (attempt <=? maxRetries) with true by (symmetry; apply Z.leb_le; lia).
  rewrite Hbuild, Ho. destruct o as [cause|r]; [done|].
  replace ((StatusCode r =? 429) && (attempt <? maxRetries)) with false; [done|].
  symmetry. apply andb_false_iff. destruct Hend as [Hne | ->].
  - left. by apply Z.eqb_neq.
  - right. apply Z.ltb_irrefl.
Qed.

(** A run: [k] rate-limited attempts, then the attempt that ends it. *)
Lemma makeAPIRequest_run (k : nat) w o :
  Z.of_nat k <= maxRetries -> maxRetries <= maxInt64 ->
  (forall i, (i < k)%nat -> rateLimitedAt w i) ->
  server E (requests w ++ replicate k req) req = o ->
  match o with
  | TransportFailure _ => True
  | Reply r => StatusCode r <> 429 \/ Z.of_nat k = maxRetries
  end ->
  makeAPIRequest E url headers method jsonData maxRetries w
  = Some (resultOf o,
          mkWorld (requests w ++ replicate (S k) req)
                  (sleeps (backedOff 0 k w)) (stdout (backedOff 0 k w))).
Proof.
  intros Hk Hmax H429 Ho Hend.
  unfold makeAPIRequest, attemptFuel.
  replace (S (Z.to_nat (maxRetries + 1)))
    with (k + S (Z.to_nat (maxRetries + 1) - k))%nat by lia.
  rewrite attemptLoop_429s; [| lia | lia | done | done].
  rewrite (attemptLoop_last _ _ _ o); [| lia | done |].
  - f_equal. f_equal. cbn [backedOff requests sleeps stdout]. f_equal.
    rewrite <- app_assoc. f_equal.
    change [req] with (replicate 1 req). rewrite <- replicate_add.
    f_equal. lia.
  - destruct o; [done|]. destruct Hend; [by left | right; lia].
Qed.

(** With no retry allowed at all, no request is made. *)
Lemma makeAPIRequest_negative w :
  maxRetries < 0 ->
  makeAPIRequest E url headers method jsonData maxRetries w
  = Some (inl (ErrRetriesExhausted maxRetries), w).
Proof.
  intros Hneg. unfold makeAPIRequest, attemptFuel. cbn [attemptLoop].
  replace (0 <=? maxRetries) with false; [done|].
  symmetry. apply Z.leb_gt. done.
Qed.
End Runs.

(** The loop always returns: its fuel is never exhausted. *)
Lemma attemptLoop_total E url headers method jsonData maxRetries :
  forall fuel attempt w,
    0 <= attempt -> maxRetries <= maxInt64 ->
    (Z.to_nat (maxRetries + 1 - attempt) < fuel)%nat ->
    exists res w', attemptLoop E url headers method jsonData maxRetries fuel attempt w
                   = Some (res, w').
Proof.
  induction fuel as [|fuel IH]; intros attempt w H0 Hmax Hfuel; [lia|].
  cbn [attemptLoop].
  destruct (attempt <=? maxRetries) eqn:Hle; [|eauto].
  apply Z.leb_le in Hle.
  destruct (buildRequest _ _ _ _ _) as [e|req]; [eauto|].
  destruct (server _ _ _) as [cause|r]; [eauto|].
  destruct ((StatusCode r =? 429) && (attempt <? maxRetries)) eqn:Hc; [|eauto].
  apply andb_true_iff in Hc as [_ Hlt]. apply Z.ltb_lt in Hlt.
  rewrite wrap64_small by (unfold maxInt64 in *; lia).
  apply IH; lia.
Qed.

Lemma makeAPIRequest_total E url headers method jsonData maxRetries w :
  maxRetries <= maxInt64 ->
  exists res w', makeAPIRequest E url headers method jsonData maxRetries w
                 = Some (res, w').
Proof.
  intros Hmax. apply attemptLoop_total; [lia | done |].
  unfold attemptFuel. lia.
Qed.

(** ** Scenarios *)

(** An environment around a given service: every URL parses, no API key
    is configured, bodies are not decoded. *)
Definition envOf (srv : list Request -> Request -> Outcome) : Env :=
  mkEnv srv (fun _ => true) (fun _ => Some "{}"%string) (fun k => k)
        (fun _ => ""%string) (fun _ => None) (fun _ => None) (fun _ => None)
        (fun _ => None) (fun _ => "2025-09-25"%string).

Definition emptyWorld : World := mkWorld [] [] [].

Definition tooManyRequests : Response := mkResponse 429 "rate limited" false.
Definition okResponse : Response := mkResponse 200 "{}" false.

(** A service that answers every attempt with 429. *)
Definition always429 : Env := envOf (fun _ _ => Reply tooManyRequests).

(** A service that rate-limits the first two attempts and then answers. *)
Definition twice429 : Env :=
  envOf (fun history _ =>
           if (length history <? 2)%nat then Reply tooManyRequests
           else Reply okResponse).

Definition getRequest (url : string) : Request := mkRequest "GET" url ∅ None.

(** ** The claims *)

(** C1 as the specification states it fails: with [maxRetries = 3] and a
    service that always answers 429, the client issues four requests and
    hands the fourth 429 response back as a value; no error is returned. *)
Lemma makeAPIRequest_exhausted_is_not_an_error :
  makeAPIRequest always429 "u" ∅ "GET" None 3 emptyWorld
  = Some (inr tooManyRequests,
          mkWorld (replicate 4 (getRequest "u"))
                  [60000000000; 90000000000; 120000000000]
                  [RateLimited 1 4 60; RateLimited 2 4 90; RateLimited 3 4 120])
  /\ ~ (exists e w',
          makeAPIRequest always429 "u" ∅ "GET" None 3 emptyWorld = Some (inl e, w')).
Proof.
  assert (Hrun : makeAPIRequest always429 "u" ∅ "GET" None 3 emptyWorld
                 = Some (inr tooManyRequests,
                         mkWorld (replicate 4 (getRequest "u"))
                                 [60000000000; 90000000000; 120000000000]
                                 [RateLimited 1 4 60; RateLimited 2 4 90;
                                  RateLimited 3 4 120])) by (vm_compute; reflexivity).
  split; [exact Hrun|].
  intros (e & w' & He). rewrite Hrun in He. discriminate He.
Qed.

(** C1 (amended): when the service answers every attempt with 429 and
    [maxRetries] is not negative, the client makes exactly
    [maxRetries + 1] requests, sleeping after each but the last, and
    returns the last 429 response as a value with no error. *)
Theorem makeAPIRequest_all_429 E url headers method jsonData maxRetries req w :
  buildRequest E url headers method jsonData = inr req ->
  0 <= maxRetries <= maxInt64 ->
  (forall history, exists r, server E history req = Reply r /\ StatusCode r = 429) ->
  exists r w',
    makeAPIRequest E url headers method jsonData maxRetries w = Some (inr r, w')
    /\ StatusCode r = 429
    /\ server E (requests w ++ replicate (Z.to_nat maxRetries) req) req = Reply r
    /\ requests w' = requests w ++ replicate (Z.to_nat (maxRetries + 1)) req
    /\ length (sleeps w') = (length (sleeps w) + Z.to_nat maxRetries)%nat.
Proof.
  intros Hbuild [H0 Hmax] H429.
  destruct (H429 (requests w ++ replicate (Z.to_nat maxRetries) req)) as [r [Hr Hs]].
  exists r. eexists. split.
  - rewrite (makeAPIRequest_run E url headers method jsonData maxRetries req Hbuild
               (Z.to_nat maxRetries) w (Reply r)); [reflexivity | lia | lia | | done |].
    + intros i _. apply H429.
    + right. lia.
  - cbn [requests sleeps backedOff]. repeat split; [done | done | |].
    + do 2 f_equal. lia.
    + rewrite length_app, length_map. unfold indices.
      by rewrite length_map, length_seq.
Qed.

Lemma makeAPIRequest_all_429_witness :
  exists r w',
    makeAPIRequest always429 "u" ∅ "GET" None 3 emptyWorld = Some (inr r, w')
    /\ StatusCode r = 429
    /\ server always429 (requests emptyWorld ++ replicate (Z.to_nat 3) (getRequest "u"))
              (getRequest "u") = Reply r
    /\ requests w' = requests emptyWorld ++ replicate (Z.to_nat (3 + 1)) (getRequest "u")
    /\ length (sleeps w') = (length (sleeps emptyWorld) + Z.to_nat 3)%nat.
Proof.
  apply (makeAPIRequest_all_429 always429 "u" ∅ "GET" None 3 (getRequest "u")).
  - reflexivity.
  - unfold maxInt64. lia.
  - intros history. exists tooManyRequests. split; reflexivity.
Defined.

(** The delay of the attempt of index [i] and its [time.Duration], as
    far as the nanoseconds fit int64. *)
Lemma delayOf_exact (i : Z) :
  0 <= i <= 307445732 ->
  delayOf i = 60 + 30 * i /\ seconds (delayOf i) = (60 + 30 * i) * 1000000000.
Proof.
  intros Hi.
  assert (Hdelay : delayOf i = 60 + 30 * i).
  { unfold delayOf.
    rewrite (wrap64_small (30 * i)) by (unfold maxInt64; lia).
    apply wrap64_small. unfold maxInt64. lia. }
  split; [exact Hdelay|]. rewrite Hdelay. unfold seconds.
  apply wrap64_small. unfold maxInt64. lia.
Qed.

(** C2: on every attempt [i < maxRetries] answered with 429 the client
    sleeps exactly [60 + 30 * i] seconds (60, 90, 120, ...) and retries;
    the first answer with any other status (200 included) is returned at
    once, and so is the answer to the last attempt allowed, with no
    further request and no sleep; a transport failure is returned at
    once as an error, with no retry.  [maxRetries] ranges up to
    307445733, as far as the seconds of every delay fit the int64
    nanoseconds of [time.Duration]; every caller passes 3. *)
Theorem makeAPIRequest_backoff E url headers method jsonData maxRetries req
        (k : nat) (o : Outcome) w :
  buildRequest E url headers method jsonData = inr req ->
  Z.of_nat k <= maxRetries <= 307445733 ->
  (forall i, (i < k)%nat ->
     exists r, server E (requests w ++ replicate i req) req = Reply r
               /\ StatusCode r = 429) ->
  server E (requests w ++ replicate k req) req = o ->
  match o with
  | TransportFailure _ => True
  | Reply r => StatusCode r <> 429 \/ Z.of_nat k = maxRetries
  end ->
  makeAPIRequest E url headers method jsonData maxRetries w
  = Some (match o with
          | TransportFailure cause => inl (ErrDo cause)
          | Reply r => inr r
          end,
          mkWorld (requests w ++ replicate (S k) req)
                  (sleeps w ++
                     map (fun i => (60 + 30 * Z.of_nat i) * 1000000000) (seq 0 k))
                  (stdout w ++
                     map (fun i => RateLimited (Z.of_nat i + 1) (maxRetries + 1)
                                               (60 + 30 * Z.of_nat i))
                         (seq 0 k))).
Proof.
  intros Hbuild [Hk Hmax] H429 Ho Hend.
  rewrite (makeAPIRequest_run E url headers method jsonData maxRetries req Hbuild
             k w o); [| lia | unfold maxInt64; lia | done | done | done].
  unfold resultOf. cbn [backedOff sleeps stdout]. rewrite indices_0, !map_map.
  rewrite (wrap64_small (maxRetries + 1)) by (unfold maxInt64; lia).
  assert (Hsleeps : map (fun i => seconds (delayOf (Z.of_nat i))) (seq 0 k)
                    = map (fun i => (60 + 30 * Z.of_nat i) * 1000000000) (seq 0 k)).
  { apply map_ext_in. intros i Hi. apply in_seq in Hi.
    by destruct (delayOf_exact (Z.of_nat i) ltac:(lia)) as [_ Hs]. }
  assert (Hnotices : map (fun i => RateLimited (Z.of_nat i + 1) (maxRetries + 1)
                                               (delayOf (Z.of_nat i))) (seq 0 k)
                     = map (fun i => RateLimited (Z.of_nat i + 1) (maxRetries + 1)
                                                 (60 + 30 * Z.of_nat i)) (seq 0 k)).
  { apply map_ext_in. intros i Hi. apply in_seq in Hi.
    destruct (delayOf_exact (Z.of_nat i) ltac:(lia)) as [Hd _]. by rewrite Hd. }
  by rewrite Hsleeps, Hnotices.
Qed.

Lemma makeAPIRequest_backoff_witness :
  makeAPIRequest twice429 "u" ∅ "GET" None 3 emptyWorld
  = Some (inr okResponse,
          mkWorld (replicate 3 (getRequest "u"))
                  [60 * 1000000000; 90 * 1000000000]
                  [RateLimited 1 4 60; RateLimited 2 4 90]).
Proof.
  apply (makeAPIRequest_backoff twice429 "u" ∅ "GET" None 3 (getRequest "u")
                                2%nat (Reply okResponse) emptyWorld).
  - reflexivity.
  - lia.
  - intros i Hi. exists tooManyRequests.
    destruct i as [|[|i]]; [split; reflexivity | split; reflexivity | lia].
  - reflexivity.
  - left. cbn. lia.
Defined.

End RetryFacts.

(* ================================================================== *)
(** * Properties of the market-cap resolver *)

Module MarketCapFacts.
Import RetryFacts.

(** The world after the "facts error" notice has been printed. *)
Definition withFactsNotice (ticker : string) (code : Z) (w : World) : World :=
  mkWorld (requests w) (sleeps w) (stdout w ++ [FactsError ticker code]).

(** ** Scenarios *)

Definition unreachable : Env :=
  envOf (fun _ _ => TransportFailure "dial tcp: connection refused").

Definition serviceDown : Env :=
  envOf (fun _ _ => Reply (mkResponse 503 "unavailable" false)).

(** C3 as the specification states it fails: on "today" (here 2025-09-25)
    an unreachable facts endpoint does not give [(0, nil)]; the transport
    error is wrapped and returned, after a single attempt. *)
Lemma GetMarketCap_unreachable_is_an_error :
  nowPlusDays unreachable 0 = "2025-09-25"%string
  /\ GetMarketCap unreachable "AAPL" "2025-09-25" [] emptyWorld
     = Some ((0%float,
              Some (ErrAPIRequest (ErrDo "dial tcp: connection refused"))),
             mkWorld
               [getRequest "https://api.financialdatasets.ai/company/facts/?ticker=AAPL"]
               [] [])
  /\ GetMarketCap unreachable "AAPL" "2025-09-25" [] emptyWorld
     <> Some ((0%float, None),
              mkWorld
                [getRequest "https://api.financialdatasets.ai/company/facts/?ticker=AAPL"]
                [] []).
Proof.
  assert (Hrun : GetMarketCap unreachable "AAPL" "2025-09-25" [] emptyWorld
     = Some ((0%float,
              Some (ErrAPIRequest (ErrDo "dial tcp: connection refused"))),
             mkWorld
               [getRequest "https://api.financialdatasets.ai/company/facts/?ticker=AAPL"]
               [] [])) by (vm_compute; reflexivity).
  split; [reflexivity|]. split; [exact Hrun|].
  rewrite Hrun. intros H. discriminate H.
Qed.

(** C3 (amended): when [endDate] is today's date the resolver asks the
    company-facts endpoint (one logical request, three retries) and
    returns the facts' market cap; a facts response whose status is not
    200 gives 0 with no error, whereas a failed request (the endpoint
    cannot be reached) gives 0 together with the wrapped error.  For any
    other [endDate] it fetches the financial metrics with period "ttm"
    and limit 10 and returns the market cap of the first record, or 0
    with no error when the list is empty. *)
Theorem GetMarketCap_resolution E ticker endDate apiKey w :
  (endDate = nowPlusDays E 0 ->
   forall res w1,
     Retry.makeAPIRequest E
       ("https://api.financialdatasets.ai/company/facts/?ticker=" +:+ ticker)
       (apiHeaders E apiKey) "GET" None 3 w = Some (res, w1) ->
     match res with
     | inl err =>
         GetMarketCap E ticker endDate apiKey w
         = Some ((0%float, Some (ErrAPIRequest err)), w1)
     | inr resp =>
         (StatusCode resp <> 200 ->
          GetMarketCap E ticker endDate apiKey w
          = Some ((0%float, None), withFactsNotice ticker (StatusCode resp) w1))
         /\ (forall facts,
               StatusCode resp = 200 -> BodyReadFails resp = false ->
               decodeCompanyFacts E (Body resp) = Some facts ->
               GetMarketCap E ticker endDate apiKey w
               = Some ((cf_MarketCap facts, None), w1))
     end)
  /\ (endDate <> nowPlusDays E 0 ->
      forall res w1,
        GetFinancialMetrics E ticker endDate "ttm" 10 apiKey w = Some (res, w1) ->
        GetMarketCap E ticker endDate apiKey w
        = Some (match res with
                | inl err => (0%float, Some err)
                | inr [] => (0%float, None)
                | inr (first :: _) => (fm_MarketCap first, None)
                end, w1))
  /\ metricsURL ticker endDate "ttm" 10
     = "https://api.financialdatasets.ai/financial-metrics/?ticker=" +:+ ticker
       +:+ "&report_period_lte=" +:+ endDate +:+ "&limit=10&period=ttm".
Proof.
  split; [|split].
  - intros -> res w1 Hreq. unfold GetMarketCap, factsURL.
    rewrite String.eqb_refl, Hreq.
    destruct res as [err|resp]; [reflexivity|]. split.
    + intros Hne.
      replace (StatusCode resp =? 200) with false
        by (symmetry; by apply Z.eqb_neq).
      reflexivity.
    + intros facts Hok Hread Hdec.
      rewrite Hok, Hread, Hdec. reflexivity.
  - intros Hne res w1 Hm. unfold GetMarketCap.
    replace (String.eqb endDate (nowPlusDays E 0)) with false
      by (symmetry; by apply String.eqb_neq).
    rewrite Hm. destruct res as [err|[|first rest]]; reflexivity.
  - reflexivity.
Qed.

Lemma GetMarketCap_resolution_witness :
  GetMarketCap serviceDown "AAPL" "2025-09-25" [] emptyWorld
  = Some ((0%float, None),
          withFactsNotice "AAPL" 503
            (mkWorld
               [getRequest "https://api.financialdatasets.ai/company/facts/?ticker=AAPL"]
               [] [])).
Proof.
  pose proof (GetMarketCap_resolution serviceDown "AAPL" "2025-09-25" [] emptyWorld)
    as [Htoday _].
  specialize (Htoday eq_refl (inr (mkResponse 503 "unavailable" false))
                     (mkWorld
                        [getRequest
                           "https://api.financialdatasets.ai/company/facts/?ticker=AAPL"]
                        [] []) eq_refl).
  cbv beta iota in Htoday. destruct Htoday as [Hsoft _].
  apply Hsoft. cbn. lia.
Defined.

End MarketCapFacts.

(* ================================================================== *)
(** * Properties of [sort.Slice] *)

Module SortFacts.
Import GoSort.

(** ** What [sort.Slice] promises

    For a [less] that is a strict weak ordering, [sort.Slice] leaves a
    permutation of the slice in which no element is [less] than one
    before it.  It promises nothing about elements that compare equal. *)

Record StrictWeakOrder {A : Type} (less : A -> A -> bool) : Prop := {
  swo_irrefl : forall x, less x x = false;
  swo_trans : forall x y z, less x y = true -> less y z = true -> less x z = true;
  swo_incomparable :
    forall x y z, less x y = false -> less y z = false -> less x z = false
}.

Definition SortsSlices (sort_Slice : forall A : Type, list A -> (A -> A -> bool) -> list A)
  : Prop :=
  forall (A : Type) (x : list A) (less : A -> A -> bool),
    StrictWeakOrder less ->
    Permutation (sort_Slice A x less) x
    /\ StronglySorted (fun a b => less b a = false) (sort_Slice A x less).

(** ** Indexing and swapping

    The functions of the sort work on a range [a, b) of the slice and
    change it by [Swap] alone.  [swaps a b d d'] says that [d'] comes
    from [d] by swaps of two indices of the range, [adj less d a b] that
    the range is in order.  Each function is shown to stay inside its
    range and, where it sorts, to leave the range in order. *)

Section Basics.
Context {A : Type}.
Implicit Types d : list A.

Definition len d : Z := Z.of_nat (length d).

Lemma at_Some d i x : at_ d i = Some x -> 0 <= i < len d.
Proof.
  unfold at_, len. destruct (i <? 0) eqn:Hi; [discriminate|].
  apply Z.ltb_ge in Hi. intros H. apply lookup_lt_Some in H. lia.
Qed.

Lemma at_valid d i : 0 <= i < len d -> exists x, at_ d i = Some x.
Proof.
  unfold at_, len. intros [H0 H1].
  replace (i <? 0) with false by (symmetry; apply Z.ltb_ge; lia).
  apply lookup_lt_is_Some_2. lia.
Qed.

Lemma Swap_length d i j : length (Swap d i j) = length d.
Proof.
  unfold Swap. destruct (at_ d i), (at_ d j); try reflexivity.
  by rewrite !length_insert.
Qed.

Lemma Swap_len d i j : len (Swap d i j) = len d.
Proof. unfold len. by rewrite Swap_length. Qed.

Lemma at_Swap d i j k :
  0 <= i < len d -> 0 <= j < len d ->
  at_ (Swap d i j) k
  = if k =? i then at_ d j else if k =? j then at_ d i else at_ d k.
Proof.
  intros Hi Hj. unfold Swap.
  destruct (at_valid d i Hi) as [x Hx]. destruct (at_valid d j Hj) as [y Hy].
  rewrite Hx, Hy. unfold at_ in *. unfold len in *.
  replace (i <? 0) with false in * by (symmetry; apply Z.ltb_ge; lia).
  replace (j <? 0) with false in * by (symmetry; apply Z.ltb_ge; lia).
  destruct (k <? 0) eqn:Hk.
  { apply Z.ltb_lt in Hk.
    replace (k =? i) with false by (symmetry; apply Z.eqb_neq; lia).
    replace (k =? j) with false by (symmetry; apply Z.eqb_neq; lia). reflexivity. }
  apply Z.ltb_ge in Hk.
  destruct (Z.eqb_spec k i) as [->|Hki].
  { rewrite list_lookup_insert_eq; [done|]. rewrite length_insert. lia. }
  rewrite list_lookup_insert_ne by lia.
  destruct (Z.eqb_spec k j) as [->|Hkj].
  { rewrite list_lookup_insert_eq; [done|]. lia. }
  rewrite list_lookup_insert_ne by lia. reflexivity.
Qed.

Lemma insert_perm (l : list A) : forall j x y,
  l !! j = Some y -> Permutation (<[j:=x]> l) (x :: delete j l).
Proof.
  induction l as [|a l IH]; intros [|j] x y H; try discriminate.
  - reflexivity.
  - cbn in *. rewrite (IH j x y H). apply perm_swap.
Qed.

Lemma swap_perm (l : list A) : forall (i j : nat) x y,
  l !! i = Some x -> l !! j = Some y -> Permutation (<[i:=y]> (<[j:=x]> l)) l.
Proof.
  induction l as [|a l IH]; intros [|i] [|j] x y Hi Hj; try discriminate; cbn in *.
  - inversion Hi; inversion Hj; subst. reflexivity.
  - inversion Hi; subst. rewrite (insert_perm l j x y Hj).
    rewrite (delete_Permutation l j y Hj) at 2. apply perm_swap.
  - inversion Hj; subst. rewrite (insert_perm l i y x Hi).
    rewrite (delete_Permutation l i x Hi) at 2. apply perm_swap.
  - constructor. by apply IH.
Qed.

Lemma Swap_perm d i j : Permutation (Swap d i j) d.
Proof.
  unfold Swap. destruct (at_ d i) as [x|] eqn:Hx; [|reflexivity].
  destruct (at_ d j) as [y|] eqn:Hy; [|reflexivity].
  unfold at_ in *. destruct (i <? 0); [discriminate|]. destruct (j <? 0); [discriminate|].
  by apply swap_perm.
Qed.
End Basics.

Section Order.
Context {A : Type} (less : A -> A -> bool).
Hypothesis swo : StrictWeakOrder less.
Implicit Types d : list A.

Definition lessO (ox oy : option A) : bool :=
  match ox, oy with
  | Some x, Some y => less x y
  | _, _ => false
  end.

Lemma Less_lessO d i j : Less less d i j = lessO (at_ d i) (at_ d j).
Proof. reflexivity. Qed.

Lemma lessO_irrefl o : lessO o o = false.
Proof. destruct o; [apply (swo_irrefl less swo) | reflexivity]. Qed.

Lemma lessO_asym o1 o2 : lessO o1 o2 = true -> lessO o2 o1 = false.
Proof.
  destruct o1 as [x|], o2 as [y|]; cbn; try discriminate. intros H.
  destruct (less y x) eqn:E; [|reflexivity].
  rewrite <- (swo_irrefl less swo x). symmetry.
  by apply (swo_trans less swo x y x).
Qed.

(** [leO x y]: x is not after y. *)
Definition leO (o1 o2 : option A) : Prop := lessO o2 o1 = false.

Lemma leO_refl o : leO o o.
Proof. apply lessO_irrefl. Qed.

Lemma leO_trans o1 o2 o3 : is_Some o2 -> leO o1 o2 -> leO o2 o3 -> leO o1 o3.
Proof.
  unfold leO. intros [y ->]. destruct o1 as [x|], o3 as [z|]; cbn; try reflexivity.
  intros H1 H2. by apply (swo_incomparable less swo z y x).
Qed.

Lemma lessO_leO o1 o2 : lessO o1 o2 = true -> leO o1 o2.
Proof. apply lessO_asym. Qed.

(** Swaps inside a range. *)
Inductive swaps (a b : Z) : list A -> list A -> Prop :=
| swaps_refl d : swaps a b d d
| swaps_step d i j d' :
    a <= i < b -> a <= j < b -> swaps a b (Swap d i j) d' -> swaps a b d d'.

Lemma swaps_trans a b d1 d2 d3 : swaps a b d1 d2 -> swaps a b d2 d3 -> swaps a b d1 d3.
Proof.
  induction 1 as [|d i j d' Hi Hj H IH]; [done|].
  intros H3. eapply swaps_step; [exact Hi | exact Hj | by apply IH].
Qed.

Lemma swaps_one a b d i j : a <= i < b -> a <= j < b -> swaps a b d (Swap d i j).
Proof. intros Hi Hj. eapply swaps_step; [exact Hi | exact Hj | apply swaps_refl]. Qed.

Lemma swaps_mono a b a' b' d d' :
  a' <= a -> b <= b' -> swaps a b d d' -> swaps a' b' d d'.
Proof.
  intros Ha Hb. induction 1 as [|d i j d' Hi Hj H IH]; [apply swaps_refl|].
  apply (swaps_step _ _ d i j d'); [lia | lia | exact IH].
Qed.

Lemma swaps_len a b d d' : swaps a b d d' -> len d' = len d.
Proof.
  induction 1 as [|d i j d' Hi Hj H IH]; [done|]. by rewrite IH, Swap_len.
Qed.

Lemma swaps_perm a b d d' : swaps a b d d' -> Permutation d' d.
Proof.
  induction 1 as [|d i j d' Hi Hj H IH]; [done|]. by rewrite IH, Swap_perm.
Qed.

Lemma swaps_outside a b d d' :
  0 <= a -> b <= len d -> swaps a b d d' ->
  forall k, k < a \/ b <= k -> at_ d' k = at_ d k.
Proof.
  intros Ha Hb H. induction H as [|d i j d' Hi Hj H IH]; intros k Hk; [done|].
  rewrite IH by (rewrite ?Swap_len; done).
  rewrite at_Swap by lia.
  replace (k =? i) with false by (symmetry; apply Z.eqb_neq; lia).
  replace (k =? j) with false by (symmetry; apply Z.eqb_neq; lia). reflexivity.
Qed.

(** A property of every element of a range. *)
Definition allIn (P : option A -> Prop) d (a b : Z) : Prop :=
  forall k, a <= k < b -> P (at_ d k).

Lemma swaps_allIn P a b d d' :
  0 <= a -> b <= len d -> swaps a b d d' -> allIn P d a b -> allIn P d' a b.
Proof.
  intros Ha Hb H. induction H as [|d i j d' Hi Hj H IH]; intros Hall; [done|].
  apply IH; [by rewrite Swap_len|]. intros k Hk.
  rewrite at_Swap by lia.
  destruct (k =? i); [apply Hall; lia|]. destruct (k =? j); apply Hall; lia.
Qed.

(** Adjacent pairs of a range are in order. *)
Definition adj d (a b : Z) : Prop :=
  forall k, a <= k -> k + 1 < b -> leO (at_ d k) (at_ d (k + 1)).

Lemma swaps_adj_outside a b d d' lo hi :
  0 <= a -> b <= len d -> swaps a b d d' ->
  (hi <= a \/ b <= lo) -> adj d lo hi -> adj d' lo hi.
Proof.
  intros Ha Hb H Hdis Hadj k Hk1 Hk2.
  rewrite !(swaps_outside a b d d' Ha Hb H) by lia. by apply Hadj.
Qed.
End Order.

(** ** [insertionSort_func]

    The inner loop moves the element at [j] down a range that is in
    order but for that element. *)

Ltac case_eqb :=
  repeat match goal with
         | |- context [?x =? ?y] =>
             destruct (Z.eqb_spec x y); [try lia; subst | try lia]
         end.

Ltac swap_at := rewrite ?at_Swap by lia; case_eqb.

Section Insertion.
Context {A : Type} (less : A -> A -> bool).
Hypothesis swo : StrictWeakOrder less.
Implicit Types d : list A.

Lemma insertionInner_spec : forall fuel j d a i,
  0 <= a -> a <= j <= i -> i < len d ->
  j - a <= Z.of_nat fuel ->
  (forall k, a <= k < i -> k <> j - 1 -> leO less (at_ d k) (at_ d (k + 1))) ->
  (j < i -> a < j -> leO less (at_ d (j - 1)) (at_ d (j + 1))) ->
  swaps a (i + 1) d (insertionInner less fuel a j d)
  /\ adj less (insertionInner less fuel a j d) a (i + 1).
Proof.
  induction fuel as [|f IH]; intros j d a i Ha Hj Hi Hfuel Hpairs Hextra.
  - cbn. split; [apply swaps_refl|]. intros k Hk1 Hk2. apply Hpairs; lia.
  - cbn [insertionInner].
    destruct ((j >? a) && Less less d j (j - 1)) eqn:C.
    + apply andb_true_iff in C as [Cj CL]. apply Z.gtb_lt in Cj.
      rewrite Less_lessO in CL.
      destruct (IH (j - 1) (Swap d j (j - 1)) a i) as [Hs Hadj];
        [lia | lia | by rewrite Swap_len | lia | | |].
      * intros k Hk Hne.
        destruct (Z.eq_dec k (j - 1)) as [->|Hk1].
        { swap_at. replace (j - 1 + 1) with j by lia. swap_at.
          by apply (lessO_asym less swo). }
        destruct (Z.eq_dec k j) as [->|Hk2].
        { swap_at. apply Hextra; lia. }
        swap_at. apply Hpairs; lia.
      * intros H1 H2. swap_at. replace (j - 1 + 1) with j by lia. swap_at.
        replace (j - 1 - 1) with (j - 2) by lia. swap_at.
        replace (at_ d (j - 1)) with (at_ d (j - 2 + 1)) by (f_equal; lia).
        apply Hpairs; lia.
      * split; [|exact Hadj].
        apply (swaps_step a (i + 1) d j (j - 1)); [lia | lia | exact Hs].
    + split; [apply swaps_refl|]. intros k Hk1 Hk2.
      destruct (Z.eq_dec k (j - 1)) as [->|Hne]; [|apply Hpairs; lia].
      apply andb_false_iff in C as [C | C].
      * rewrite Z.gtb_ltb in C. apply Z.ltb_ge in C. lia.
      * rewrite Less_lessO in C. replace (j - 1 + 1) with j by lia. exact C.
Qed.

Lemma insertionOuter_spec : forall fuel i d a b,
  0 <= a -> a < i -> i <= b -> b <= len d ->
  b - i <= Z.of_nat fuel ->
  adj less d a i ->
  swaps a b d (insertionOuter less fuel a b i d)
  /\ adj less (insertionOuter less fuel a b i d) a b.
Proof.
  induction fuel as [|f IH]; intros i d a b Ha Hai Hib Hb Hfuel Hadj.
  - cbn. assert (i = b) as -> by lia. split; [apply swaps_refl | exact Hadj].
  - cbn [insertionOuter]. destruct (i <? b) eqn:C.
    + apply Z.ltb_lt in C.
      destruct (insertionInner_spec (Z.to_nat (i - a)) i d a i) as [Hs1 Hadj1];
        [lia | lia | lia | lia | | lia |].
      { intros k Hk Hne. apply Hadj; lia. }
      destruct (IH (i + 1) (insertionInner less (Z.to_nat (i - a)) a i d) a b)
        as [Hs2 Hadj2]; [lia | lia | lia | | lia | exact Hadj1 |].
      { by rewrite (swaps_len _ _ _ _ Hs1). }
      split; [|exact Hadj2].
      eapply swaps_trans; [|exact Hs2]. eapply swaps_mono; [| |exact Hs1]; lia.
    + apply Z.ltb_ge in C. assert (i = b) as -> by lia.
      split; [apply swaps_refl | exact Hadj].
Qed.

Lemma insertionSort_spec d a b :
  0 <= a -> a <= b -> b <= len d ->
  swaps a b d (insertionSort_func less d a b)
  /\ adj less (insertionSort_func less d a b) a b.
Proof.
  intros Ha Hab Hb. unfold insertionSort_func.
  destruct (Z.eq_dec a b) as [->|Hne].
  - replace (Z.to_nat (b - b)) with 0%nat by lia. cbn.
    split; [apply swaps_refl|]. intros k H1 H2. lia.
  - apply insertionOuter_spec; [lia | lia | lia | lia | lia |].
    intros k H1 H2. lia.
Qed.
End Insertion.

(** ** The scans and the two partitions *)

Lemma scanUp_spec : forall fuel test i j,
  j - i + 1 <= Z.of_nat fuel ->
  i <= scanUp fuel test i j <= Z.max i (j + 1)
  /\ (forall k, i <= k < scanUp fuel test i j -> test k = true)
  /\ (scanUp fuel test i j <= j -> test (scanUp fuel test i j) = false).
Proof.
  induction fuel as [|f IH]; intros test i j Hfuel.
  - cbn. split; [lia|]. split; intros; lia.
  - cbn [scanUp]. destruct ((i <=? j) && test i) eqn:C.
    + apply andb_true_iff in C as [C1 C2]. apply Z.leb_le in C1.
      destruct (IH test (i + 1) j) as (Hr & Hall & Hstop); [lia|].
      split; [lia|]. split; [|exact Hstop].
      intros k Hk. destruct (Z.eq_dec k i) as [->|Hne]; [exact C2 | apply Hall; lia].
    + split; [lia|]. split; [intros; lia|]. intros Hij.
      apply andb_false_iff in C as [C | C]; [apply Z.leb_gt in C; lia | exact C].
Qed.

Lemma scanDown_spec : forall fuel test i j,
  j - i + 1 <= Z.of_nat fuel ->
  Z.min j (i - 1) <= scanDown fuel test i j <= j
  /\ (forall k, scanDown fuel test i j < k <= j -> test k = true)
  /\ (i <= scanDown fuel test i j -> test (scanDown fuel test i j) = false).
Proof.
  induction fuel as [|f IH]; intros test i j Hfuel.
  - cbn. split; [lia|]. split; intros; lia.
  - cbn [scanDown]. destruct ((i <=? j) && test j) eqn:C.
    + apply andb_true_iff in C as [C1 C2]. apply Z.leb_le in C1.
      destruct (IH test i (j - 1)) as (Hr & Hall & Hstop); [lia|].
      split; [lia|]. split; [|exact Hstop].
      intros k Hk. destruct (Z.eq_dec k j) as [->|Hne]; [exact C2 | apply Hall; lia].
    + split; [lia|]. split; [intros; lia|]. intros Hij.
      apply andb_false_iff in C as [C | C]; [apply Z.leb_gt in C; lia | exact C].
Qed.

Section Partition.
Context {A : Type} (less : A -> A -> bool).
Implicit Types d : list A.

(** The state of a two-pointer scan: left of [i] everything passes [L],
    right of [j] nothing does. *)
Definition scanned (L : option A -> bool) d (a b i j : Z) : Prop :=
  a + 1 <= i /\ j <= b - 1 /\ i <= j + 1
  /\ (forall k, a + 1 <= k < i -> L (at_ d k) = true)
  /\ (forall k, j < k < b -> L (at_ d k) = false).

Lemma scan_step (L : option A -> bool) d a b i j n (tu td : Z -> bool) :
  0 <= a -> b <= len d ->
  (forall k, tu k = L (at_ d k)) -> (forall k, td k = negb (L (at_ d k))) ->
  j - i + 1 <= Z.of_nat n ->
  scanned L d a b i j ->
  let i' := scanUp n tu i j in
  let j' := scanDown n td i' j in
  (i' > j' /\ j' = i' - 1 /\ scanned L d a b i' j')
  \/ (i' < j' /\ scanned L (Swap d i' j') a b (i' + 1) (j' - 1)
      /\ (i <= i' /\ j' <= j)).
Proof.
  intros Ha Hb Htu Htd Hn (Hi & Hj & Hij & Hleft & Hright). cbv zeta.
  destruct (scanUp_spec n tu i j Hn) as (Hr1 & Hall1 & Hstop1).
  set (i' := scanUp n tu i j) in *.
  destruct (scanDown_spec n td i' j ltac:(lia)) as (Hr2 & Hall2 & Hstop2).
  set (j' := scanDown n td i' j) in *.
  assert (Hleft' : forall k, a + 1 <= k < i' -> L (at_ d k) = true).
  { intros k Hk. destruct (Z_lt_ge_dec k i); [apply Hleft; lia|].
    rewrite <- Htu. apply Hall1. lia. }
  assert (Hright' : forall k, j' < k < b -> L (at_ d k) = false).
  { intros k Hk. destruct (Z_lt_ge_dec j k); [apply Hright; lia|].
    apply negb_true_iff. rewrite <- Htd. apply Hall2. lia. }
  destruct (Z_lt_ge_dec j' i') as [Hlt | Hge].
  - left. split; [lia|]. split; [lia|]. repeat split; try lia; assumption.
  - right.
    assert (Hi' : L (at_ d i') = false) by (rewrite <- Htu; apply Hstop1; lia).
    assert (Hj' : L (at_ d j') = true).
    { apply negb_false_iff. rewrite <- Htd. apply Hstop2. lia. }
    assert (i' <> j') by (intros E; rewrite E in Hi'; congruence).
    split; [lia|]. split; [|lia].
    repeat split; try lia.
    + intros k Hk. swap_at; [exact Hj' | apply Hleft'; lia].
    + intros k Hk. swap_at; [exact Hi' | apply Hright'; lia].
Qed.

(** [partition_func] *)

Lemma partitionLoop_spec (p : option A) : forall fuel d a b i j,
  0 <= a -> b <= len d -> at_ d a = p ->
  1 <= Z.of_nat fuel -> j - i + 2 <= Z.of_nat fuel ->
  scanned (fun o => lessO less o p) d a b i j ->
  let '(j', d') := partitionLoop less fuel a i j d in
  swaps (a + 1) b d d' /\ at_ d' a = p
  /\ exists i', j' = i' - 1 /\ scanned (fun o => lessO less o p) d' a b i' j'.
Proof.
  induction fuel as [|f IH]; intros d a b i j Ha Hb Hp Hf1 Hf2 Hsc; [lia|].
  cbn [partitionLoop].
  pose proof (scan_step (fun o => lessO less o p) d a b i j
                (S (Z.to_nat (j - i + 1)))
                (fun i => Less less d i a) (fun j => negb (Less less d j a))
                Ha Hb) as Hstep.
  cbv zeta in Hstep.
  set (i' := scanUp _ _ i j) in *. set (j' := scanDown _ _ i' j) in *.
  destruct Hstep as [(Hgt & Heq & Hsc') | (Hlt & Hsc' & Hdec)];
    [intros k; by rewrite Less_lessO, Hp | intros k; by rewrite Less_lessO, Hp
     | lia | exact Hsc | | ].
  - replace (i' >? j') with true by (symmetry; apply Z.gtb_lt; lia).
    split; [apply swaps_refl|]. split; [exact Hp|]. by exists i'.
  - replace (i' >? j') with false
      by (symmetry; rewrite Z.gtb_ltb; apply Z.ltb_ge; lia).
    destruct Hsc' as (H1 & H2 & H3 & H4 & H5).
    destruct Hsc as (Hi0 & Hj0 & _).
    specialize (IH (Swap d i' j') a b (i' + 1) (j' - 1) Ha).
    destruct (partitionLoop less f a (i' + 1) (j' - 1) (Swap d i' j')) as [j2 d2].
    destruct IH as (Hs & Hp2 & i2 & Hj2 & Hsc2);
      [by rewrite Swap_len | by swap_at | lia | lia | repeat split; assumption |].
    split; [|split; [exact Hp2 | by exists i2]].
    apply (swaps_step (a + 1) b d i' j'); [lia | lia | exact Hs].
Qed.

Lemma partition_finish (p : option A) d a b i j :
  0 <= a -> b <= len d -> at_ d a = p -> j = i - 1 ->
  scanned (fun o => lessO less o p) d a b i j ->
  a <= j < b
  /\ at_ (Swap d j a) j = p
  /\ allIn (fun o => lessO less o p = true) (Swap d j a) a j
  /\ allIn (fun o => lessO less o p = false) (Swap d j a) (j + 1) b.
Proof.
  intros Ha Hb Hp Hj (H1 & H2 & H3 & Hleft & Hright).
  split; [lia|]. split; [by swap_at|]. split.
  - intros k Hk. swap_at; apply Hleft; lia.
  - intros k Hk. swap_at. apply Hright; lia.
Qed.

Lemma partition_spec d a b pivot :
  0 <= a -> a <= pivot < b -> b <= len d ->
  let '(d', mid, _) := partition_func less d a b pivot in
  swaps a b d d' /\ a <= mid < b /\ at_ d' mid = at_ d pivot
  /\ allIn (fun o => lessO less o (at_ d pivot) = true) d' a mid
  /\ allIn (fun o => lessO less o (at_ d pivot) = false) d' (mid + 1) b.
Proof.
  intros Ha Hp Hb. unfold partition_func.
  set (p := at_ d pivot). set (d0 := Swap d a pivot).
  assert (Hd0 : at_ d0 a = p) by (unfold d0; by swap_at).
  assert (Hlen0 : len d0 = len d) by apply Swap_len.
  assert (Hs0 : swaps a b d d0) by (apply swaps_one; lia).
  pose proof (scan_step (fun o => lessO less o p) d0 a b (a + 1) (b - 1)
                (S (Z.to_nat (b - a)))
                (fun i => Less less d0 i a) (fun j => negb (Less less d0 j a))
                Ha ltac:(lia)) as Hstep.
  cbv zeta in Hstep.
  set (i' := scanUp _ _ (a + 1) (b - 1)) in *.
  set (j' := scanDown _ _ i' (b - 1)) in *.
  destruct Hstep as [(Hgt & Heq & Hsc') | (Hlt & Hsc' & Hdec)];
    [intros k; by rewrite Less_lessO, Hd0 | intros k; by rewrite Less_lessO, Hd0
     | lia | repeat split; intros; lia | | ].
  all: try destruct Hdec as [Hdi Hdj].
  - replace (i' >? j') with true by (symmetry; apply Z.gtb_lt; lia).
    destruct (partition_finish p d0 a b i' j' Ha ltac:(lia) Hd0 Heq Hsc')
      as (Hm & Hpm & Hl & Hr).
    split; [|repeat split; try assumption; lia].
    eapply swaps_trans; [exact Hs0|]. apply swaps_one; lia.
  - replace (i' >? j') with false
      by (symmetry; rewrite Z.gtb_ltb; apply Z.ltb_ge; lia).
    pose proof Hsc' as (H1 & H2 & H3 & H4 & H5).
    pose proof (partitionLoop_spec p (S (Z.to_nat (b - a))) (Swap d0 i' j') a b
                  (i' + 1) (j' - 1) Ha) as Hloop.
    destruct (partitionLoop less (S (Z.to_nat (b - a))) a (i' + 1) (j' - 1)
                            (Swap d0 i' j')) as [j2 d2].
    destruct Hloop as (Hs & Hp2 & i2 & Hj2 & Hsc2);
      [rewrite Swap_len; lia | by swap_at | lia | lia | exact Hsc' |].
    assert (Hlen2 : len d2 = len d).
    { rewrite (swaps_len _ _ _ _ Hs), Swap_len. exact Hlen0. }
    destruct (partition_finish p d2 a b i2 j2 Ha ltac:(lia) Hp2 Hj2 Hsc2)
      as (Hm & Hpm & Hl & Hr).
    split; [|repeat split; try assumption; lia].
    eapply swaps_trans; [exact Hs0|].
    apply (swaps_step a b d0 i' j'); [lia | lia |].
    eapply swaps_trans; [eapply swaps_mono; [| |exact Hs]; lia|].
    apply swaps_one; lia.
Qed.
End Partition.

Section PartitionEqual.
Context {A : Type} (less : A -> A -> bool).
Hypothesis swo : StrictWeakOrder less.
Implicit Types d : list A.

Lemma partitionEqualLoop_spec (p : option A) : forall fuel d a b i j,
  0 <= a -> b <= len d -> at_ d a = p ->
  1 <= Z.of_nat fuel -> j - i + 2 <= Z.of_nat fuel ->
  scanned (fun o => negb (lessO less p o)) d a b i j ->
  let '(i', d') := partitionEqualLoop less fuel a i j d in
  swaps (a + 1) b d d' /\ at_ d' a = p
  /\ scanned (fun o => negb (lessO less p o)) d' a b i' (i' - 1).
Proof.
  induction fuel as [|f IH]; intros d a b i j Ha Hb Hp Hf1 Hf2 Hsc; [lia|].
  cbn [partitionEqualLoop].
  pose proof (scan_step (fun o => negb (lessO less p o)) d a b i j
                (S (Z.to_nat (j - i + 1)))
                (fun i => negb (Less less d a i)) (fun j => Less less d a j)
                Ha Hb) as Hstep.
  cbv zeta in Hstep.
  set (i' := scanUp _ _ i j) in *. set (j' := scanDown _ _ i' j) in *.
  destruct Hstep as [(Hgt & Heq & Hsc') | (Hlt & Hsc' & Hdi & Hdj)];
    [intros k; by rewrite Less_lessO, Hp
    | intros k; by rewrite Less_lessO, Hp, negb_involutive
    | lia | exact Hsc | | ].
  - replace (i' >? j') with true by (symmetry; apply Z.gtb_lt; lia).
    split; [apply swaps_refl|]. split; [exact Hp|]. by rewrite <- Heq.
  - replace (i' >? j') with false
      by (symmetry; rewrite Z.gtb_ltb; apply Z.ltb_ge; lia).
    destruct Hsc as (Hi0 & Hj0 & _).
    specialize (IH (Swap d i' j') a b (i' + 1) (j' - 1) Ha).
    destruct (partitionEqualLoop less f a (i' + 1) (j' - 1) (Swap d i' j')) as [i2 d2].
    destruct IH as (Hs & Hp2 & Hsc2);
      [by rewrite Swap_len | by swap_at | lia | lia | exact Hsc' |].
    split; [|split; [exact Hp2 | exact Hsc2]].
    apply (swaps_step (a + 1) b d i' j'); [lia | lia | exact Hs].
Qed.

Lemma partitionEqual_spec d a b pivot :
  0 <= a -> a <= pivot < b -> b <= len d ->
  let '(d', mid) := partitionEqual_func less d a b pivot in
  swaps a b d d' /\ a < mid <= b
  /\ allIn (fun o => lessO less (at_ d pivot) o = false) d' a mid
  /\ allIn (fun o => lessO less (at_ d pivot) o = true) d' mid b.
Proof.
  intros Ha Hp Hb. unfold partitionEqual_func.
  set (p := at_ d pivot). set (d0 := Swap d a pivot).
  assert (Hd0 : at_ d0 a = p) by (unfold d0; by swap_at).
  assert (Hlen0 : len d0 = len d) by apply Swap_len.
  assert (Hs0 : swaps a b d d0) by (apply swaps_one; lia).
  pose proof (partitionEqualLoop_spec p (S (Z.to_nat (b - a))) d0 a b
                (a + 1) (b - 1) Ha ltac:(lia) Hd0) as Hloop.
  destruct (partitionEqualLoop less (S (Z.to_nat (b - a))) a (a + 1) (b - 1) d0)
    as [i2 d2].
  destruct Hloop as (Hs & Hp2 & H1 & H2 & H3 & Hleft & Hright);
    [lia | lia | repeat split; intros; lia |].
  split.
  { eapply swaps_trans; [exact Hs0|]. eapply swaps_mono; [| |exact Hs]; lia. }
  split; [lia|]. split.
  - intros k Hk. destruct (Z.eq_dec k a) as [->|Hne].
    + rewrite Hp2. apply lessO_irrefl, swo.
    + apply negb_true_iff. apply Hleft. lia.
  - intros k Hk. apply negb_false_iff. apply Hright. lia.
Qed.
End PartitionEqual.

(** ** [heapSort_func]

    Heap positions are counted from [first], as in the source. *)

Section Heap.
Context {A : Type} (less : A -> A -> bool).
Hypothesis swo : StrictWeakOrder less.
Variable first : Z.
Hypothesis Hfirst : 0 <= first.
Implicit Types d : list A.

Definition child (c r : Z) : Prop := c = 2 * r + 1 \/ c = 2 * r + 2.

(** Every node from [lo] on dominates its children below [hi]. *)
Definition heapFrom d (lo hi : Z) : Prop :=
  forall r c, lo <= r -> child c r -> c < hi ->
    leO less (at_ d (first + c)) (at_ d (first + r)).

(** The same with the node [root] left out, whose children are still
    dominated by its parent. *)
Definition heapExcept d (lo hi root : Z) : Prop :=
  (forall r c, lo <= r -> r <> root -> child c r -> c < hi ->
     leO less (at_ d (first + c)) (at_ d (first + r)))
  /\ (forall q c, lo <= q -> child root q -> child c root -> c < hi ->
        leO less (at_ d (first + c)) (at_ d (first + q))).

Lemma siftDownLoop_spec : forall fuel d lo root hi,
  0 <= lo <= root -> first + hi <= len d -> hi - root <= Z.of_nat fuel ->
  heapExcept d lo hi root ->
  swaps (first + root) (first + hi) d (siftDownLoop less fuel root hi first d)
  /\ heapFrom (siftDownLoop less fuel root hi first d) lo hi.
Proof.
  induction fuel as [|f IH]; intros d lo root hi Hlo Hhi Hf [H1 H2].
  { cbn. split; [apply swaps_refl|]. intros r c Hr Hc Hchi.
    destruct (Z.eq_dec r root) as [->|Hne]; [unfold child in Hc; lia | by apply H1]. }
  cbn [siftDownLoop]. destruct (2 * root + 1 >=? hi) eqn:C.
  { rewrite Z.geb_leb in C. apply Z.leb_le in C.
    split; [apply swaps_refl|]. intros r c Hr Hc Hchi.
    destruct (Z.eq_dec r root) as [->|Hne]; [unfold child in Hc; lia | by apply H1]. }
  rewrite Z.geb_leb in C. apply Z.leb_gt in C.
  set (c := 2 * root + 1) in *.
  set (m := if (c + 1 <? hi) && Less less d (first + c) (first + c + 1)
            then c + 1 else c).
  assert (Hm : (m = c \/ m = c + 1) /\ m < hi
               /\ forall c', child c' root -> c' < hi ->
                    leO less (at_ d (first + c')) (at_ d (first + m))).
  { unfold m. destruct ((c + 1 <? hi) && Less less d (first + c) (first + c + 1)) eqn:E.
    - apply andb_true_iff in E as [E1 E2]. apply Z.ltb_lt in E1.
      split; [by right|]. split; [lia|]. intros c' Hc' Hlt.
      assert (Hcc : c' = c \/ c' = c + 1) by (unfold child in Hc'; lia).
      destruct Hcc as [-> | ->]; [|apply leO_refl, swo].
      apply lessO_leO; [exact swo|]. rewrite Less_lessO in E2.
      by replace (first + (c + 1)) with (first + c + 1) by lia.
    - split; [by left|]. split; [lia|]. intros c' Hc' Hlt.
      assert (Hcc : c' = c \/ c' = c + 1) by (unfold child in Hc'; lia).
      destruct Hcc as [-> | ->]; [apply leO_refl, swo|].
      apply andb_false_iff in E as [E | E]; [apply Z.ltb_ge in E; lia|].
      rewrite Less_lessO in E. unfold leO.
      by replace (first + (c + 1)) with (first + c + 1) by lia. }
  destruct Hm as (Hmc & Hmhi & Hmmax).
  destruct (negb (Less less d (first + root) (first + m))) eqn:T.
  - apply negb_true_iff in T. rewrite Less_lessO in T.
    split; [apply swaps_refl|]. intros r c' Hr Hc Hchi.
    destruct (Z.eq_dec r root) as [->|Hne]; [|by apply H1].
    apply (leO_trans less swo _ (at_ d (first + m))); [|by apply Hmmax | exact T].
    destruct (at_valid d (first + m)) as [x Hx]; [lia|]. rewrite Hx. by eexists.
  - apply negb_false_iff in T. rewrite Less_lessO in T.
    set (d1 := Swap d (first + root) (first + m)).
    destruct (IH d1 lo m hi) as [Hs Hh].
    + lia.
    + unfold d1. by rewrite Swap_len.
    + lia.
    + split.
      * intros r c' Hr Hne Hc Hchi. unfold d1.
        assert (c' > r) by (unfold child in Hc; lia).
        destruct (Z.eq_dec r root) as [->|Hnr].
        -- destruct (Z.eq_dec c' m) as [->|Hcm].
           ++ swap_at. by apply lessO_leO.
           ++ swap_at. by apply Hmmax.
        -- destruct (Z.eq_dec c' root) as [->|Hcr].
           ++ swap_at. apply H2; [lia | exact Hc | unfold child; lia | lia].
           ++ assert (c' <> m) by (unfold child in Hc; lia).
              swap_at. by apply H1.
      * intros q c' Hq Hmq Hc Hchi. unfold d1.
        assert (q = root) by (unfold child in Hmq; lia). subst q.
        assert (c' > m) by (unfold child in Hc; lia).
        swap_at. apply H1; [lia | lia | exact Hc | lia].
    + split; [|exact Hh].
      apply (swaps_step _ _ d (first + root) (first + m)); [lia | lia |].
      eapply swaps_mono; [| |exact Hs]; lia.
Qed.

Lemma siftDown_spec d lo hi :
  0 <= lo -> first + hi <= len d -> heapExcept d lo hi lo ->
  swaps (first + lo) (first + hi) d (siftDown_func less d lo hi first)
  /\ heapFrom (siftDown_func less d lo hi first) lo hi.
Proof.
  intros Hlo Hhi Hex. apply siftDownLoop_spec; [lia | exact Hhi | lia | exact Hex].
Qed.

Lemma heapBuild_spec : forall fuel d i hi,
  -1 <= i -> first + hi <= len d -> i + 1 <= Z.of_nat fuel ->
  heapFrom d (i + 1) hi ->
  swaps first (first + hi) d (heapBuild less fuel i hi first d)
  /\ heapFrom (heapBuild less fuel i hi first d) 0 hi.
Proof.
  induction fuel as [|f IH]; intros d i hi Hi Hhi Hf Hh.
  { cbn. split; [apply swaps_refl|]. by replace 0 with (i + 1) by lia. }
  cbn [heapBuild]. destruct (i >=? 0) eqn:C; rewrite Z.geb_leb in C.
  - apply Z.leb_le in C.
    destruct (siftDown_spec d i hi C Hhi) as [Hs Hh1].
    { split.
      - intros r c Hr Hne. apply Hh. lia.
      - intros q c Hq Hc. unfold child in Hc. lia. }
    destruct (IH (siftDown_func less d i hi first) (i - 1) hi) as [Hs2 Hh2].
    + lia.
    + by rewrite (swaps_len _ _ _ _ Hs).
    + lia.
    + by replace (i - 1 + 1) with i by lia.
    + split; [|exact Hh2]. eapply swaps_trans; [|exact Hs2].
      eapply swaps_mono; [| |exact Hs]; lia.
  - apply Z.leb_gt in C. split; [apply swaps_refl|].
    by replace 0 with (i + 1) by lia.
Qed.

Lemma heap_root_max d n :
  first + n <= len d -> heapFrom d 0 n ->
  forall k, 0 <= k < n -> leO less (at_ d (first + k)) (at_ d first).
Proof.
  intros Hn Hh k Hk.
  assert (H : forall m : nat, forall k, 0 <= k < n -> k <= Z.of_nat m ->
                leO less (at_ d (first + k)) (at_ d first)).
  { induction m as [|m IH]; intros k' Hk' Hle.
    - replace k' with 0 by lia. replace (first + 0) with first by lia.
      apply leO_refl, swo.
    - destruct (Z.eq_dec k' 0) as [->|Hne].
      { replace (first + 0) with first by lia. apply leO_refl, swo. }
      set (q := (k' - 1) / 2).
      assert (Hq : child k' q /\ 0 <= q < k').
      { unfold child, q. pose proof (Z.div_mod (k' - 1) 2 ltac:(lia)).
        pose proof (Z.mod_pos_bound (k' - 1) 2 ltac:(lia)). lia. }
      destruct Hq as [Hc Hq].
      apply (leO_trans less swo _ (at_ d (first + q))).
      + destruct (at_valid d (first + q)) as [x Hx]; [lia|]. rewrite Hx. by eexists.
      + apply Hh; [lia | exact Hc | lia].
      + apply IH; lia. }
  apply (H (Z.to_nat k)); lia.
Qed.

Lemma heapPop_spec (hi : Z) : forall fuel d i,
  -1 <= i < hi -> first + hi <= len d -> i + 1 <= Z.of_nat fuel ->
  heapFrom d 0 (i + 1) ->
  (forall k m, 0 <= k <= i -> i < m < hi ->
     leO less (at_ d (first + k)) (at_ d (first + m))) ->
  adj less d (first + i + 1) (first + hi) ->
  swaps first (first + hi) d (heapPop less fuel i first d)
  /\ adj less (heapPop less fuel i first d) first (first + hi).
Proof.
  induction fuel as [|f IH]; intros d i Hi Hhi Hf Hh Hbelow Hadj.
  { cbn. split; [apply swaps_refl|]. intros k Hk1 Hk2. apply Hadj; lia. }
  cbn [heapPop]. destruct (i >=? 0) eqn:C; rewrite Z.geb_leb in C.
  2:{ apply Z.leb_gt in C. split; [apply swaps_refl|].
      intros k Hk1 Hk2. apply Hadj; lia. }
  apply Z.leb_le in C.
  pose proof (heap_root_max d (i + 1) ltac:(lia) Hh) as Hmax.
  set (d1 := Swap d first (first + i)).
  assert (Hlen1 : len d1 = len d) by apply Swap_len.
  destruct (siftDown_spec d1 0 i ltac:(lia) ltac:(lia)) as [Hs Hh2].
  { split.
    - intros r c Hr Hne Hc Hci. unfold d1.
      assert (c > r) by (unfold child in Hc; lia).
      swap_at. apply Hh; [lia | exact Hc | lia].
    - intros q c Hq Hc. unfold child in Hc. lia. }
  replace (first + 0) with first in Hs by lia.
  set (d2 := siftDown_func less d1 0 i first) in *.
  assert (Hlen2 : len d2 = len d) by (by rewrite (swaps_len _ _ _ _ Hs)).
  assert (Hout : forall k, first + i <= k -> at_ d2 k = at_ d1 k).
  { intros k Hk. apply (swaps_outside first (first + i) d1 d2); [lia | lia | exact Hs | lia]. }
  destruct (IH d2 (i - 1)) as [Hs3 Hadj3].
  - lia.
  - lia.
  - lia.
  - by replace (i - 1 + 1) with i by lia.
  - intros k m Hk Hm. rewrite (Hout (first + m)) by lia.
    apply (swaps_allIn (fun o => leO less o (at_ d1 (first + m)))
                       first (first + i) d1 d2); [lia | lia | exact Hs | | lia].
    intros k' Hk'. unfold d1.
    destruct (Z.eq_dec m i) as [->|Hmi].
    + replace k' with (first + (k' - first)) by lia.
      destruct (Z.eq_dec k' first) as [->|Hkf].
      * swap_at. replace (first + i) with (first + (first + i - first)) by lia.
        apply Hmax. lia.
      * swap_at. apply Hmax. lia.
    + replace k' with (first + (k' - first)) by lia.
      destruct (Z.eq_dec k' first) as [->|Hkf].
      * swap_at. apply Hbelow; lia.
      * swap_at. apply Hbelow; lia.
  - intros k Hk1 Hk2. rewrite !Hout by lia.
    assert (E1 : at_ d1 (first + i) = at_ d first)
      by (unfold d1; swap_at; f_equal; lia).
    assert (E2 : forall k', first + i < k' -> at_ d1 k' = at_ d k')
      by (intros; unfold d1; by swap_at).
    destruct (Z.eq_dec k (first + i)) as [->|Hki].
    + rewrite E1, E2 by lia. specialize (Hbelow 0 (i + 1)).
      replace (first + 0) with first in Hbelow by lia.
      replace (first + (i + 1)) with (first + i + 1) in Hbelow by lia.
      apply Hbelow; lia.
    + rewrite !E2 by lia. apply Hadj; lia.
  - split; [|exact Hadj3].
    apply (swaps_step _ _ d first (first + i)); [lia | lia |].
    eapply swaps_trans; [|exact Hs3]. eapply swaps_mono; [| |exact Hs]; lia.
Qed.
End Heap.

Section HeapSort.
Context {A : Type} (less : A -> A -> bool).
Hypothesis swo : StrictWeakOrder less.
Implicit Types d : list A.

Lemma heapSort_spec d a b :
  0 <= a -> a <= b -> b <= len d ->
  swaps a b d (heapSort_func less d a b) /\ adj less (heapSort_func less d a b) a b.
Proof.
  intros Ha Hab Hb. unfold heapSort_func.
  set (hi := b - a).
  assert (Hq : -1 <= Z.quot (hi - 1) 2 /\ Z.quot (hi - 1) 2 + 1 <= hi + 1
               /\ hi <= 2 * Z.quot (hi - 1) 2 + 3).
  { destruct (Z.eq_dec hi 0) as [E|Hne].
    { rewrite E. change (Z.quot (0 - 1) 2) with 0. lia. }
    rewrite Z.quot_div_nonneg by lia.
    pose proof (Z.div_mod (hi - 1) 2 ltac:(lia)).
    pose proof (Z.mod_pos_bound (hi - 1) 2 ltac:(lia)). lia. }
  destruct Hq as (Hq1 & Hq2 & Hq3).
  destruct (heapBuild_spec less swo a Ha (S (Z.to_nat hi)) d (Z.quot (hi - 1) 2) hi)
    as [Hs1 Hh1]; [lia | lia | lia | |].
  { intros r c Hr Hc Hchi. unfold child in Hc. lia. }
  set (d1 := heapBuild less _ _ hi a d) in *.
  assert (Hlen1 : len d1 = len d) by (by rewrite (swaps_len _ _ _ _ Hs1)).
  destruct (heapPop_spec less swo a Ha hi (S (Z.to_nat hi)) d1 (hi - 1))
    as [Hs2 Hadj]; [lia | lia | lia | | | |].
  - by replace (hi - 1 + 1) with hi by lia.
  - intros k m Hk Hm. lia.
  - intros k Hk1 Hk2. lia.
  - replace (a + hi) with b in * by lia.
    split; [eapply swaps_trans; eassumption | exact Hadj].
Qed.
End HeapSort.

(** ** Pivots, reversal, pattern breaking and the partial insertion sort *)

Section Pivot.
Context {A : Type} (less : A -> A -> bool).
Implicit Types d : list A.

Lemma median_func_range d a b c s :
  let m := fst (median_func less d a b c s) in m = a \/ m = b \/ m = c.
Proof.
  unfold median_func, order2_func.
  repeat match goal with
         | |- context [Less less ?d ?x ?y] => destruct (Less less d x y); cbn
         end; auto.
Qed.

Lemma medianAdjacent_func_range d a s :
  a - 1 <= fst (medianAdjacent_func less d a s) <= a + 1.
Proof.
  unfold medianAdjacent_func.
  pose proof (median_func_range d (a - 1) a (a + 1) s) as H. cbv zeta in H. lia.
Qed.

Lemma choosePivot_func_range d a b :
  8 <= b - a -> a <= fst (choosePivot_func less d a b) < b.
Proof.
  intros Hl. unfold choosePivot_func.
  set (l := b - a) in *. set (q := Z.quot l 4).
  assert (Hq : 4 * q <= l /\ l < 4 * q + 4).
  { unfold q. rewrite Z.quot_div_nonneg by lia.
    pose proof (Z.div_mod l 4 ltac:(lia)).
    pose proof (Z.mod_pos_bound l 4 ltac:(lia)). lia. }
  replace (l >=? 8) with true by (symmetry; rewrite Z.geb_leb; apply Z.leb_le; lia).
  assert (Hfst : forall (p : Z * Z),
            a <= fst p < b ->
            a <= fst (let '(j, swaps) := p in
                      if swaps =? 0 then (j, increasingHint)
                      else if swaps =? 12 then (j, decreasingHint)
                      else (j, unknownHint)) < b).
  { intros [j s] H. cbn in *. destruct (s =? 0); [exact H|].
    destruct (s =? 12); exact H. }
  apply Hfst.
  destruct (l >=? 50) eqn:E.
  - rewrite Z.geb_leb in E. apply Z.leb_le in E.
    pose proof (medianAdjacent_func_range d (a + q * 1) 0) as H1.
    destruct (medianAdjacent_func less d (a + q * 1) 0) as [i1 s1]. cbn [fst] in H1.
    pose proof (medianAdjacent_func_range d (a + q * 2) s1) as H2.
    destruct (medianAdjacent_func less d (a + q * 2) s1) as [j1 s2]. cbn [fst] in H2.
    pose proof (medianAdjacent_func_range d (a + q * 3) s2) as H3.
    destruct (medianAdjacent_func less d (a + q * 3) s2) as [k1 s3]. cbn [fst] in H3.
    pose proof (median_func_range d i1 j1 k1 s3) as H. cbv zeta in H. lia.
  - pose proof (median_func_range d (a + q * 1) (a + q * 2) (a + q * 3) 0) as H.
    cbv zeta in H. lia.
Qed.

Lemma reverseLoop_spec a b : forall fuel d i j,
  0 <= a -> b <= len d -> a <= i -> j < b ->
  swaps a b d (reverseLoop fuel i j d).
Proof.
  induction fuel as [|f IH]; intros d i j Ha Hb Hi Hj; [apply swaps_refl|].
  cbn [reverseLoop]. destruct (i <? j) eqn:C; [|apply swaps_refl].
  apply Z.ltb_lt in C.
  apply (swaps_step a b d i j); [lia | lia |].
  apply IH; [lia | by rewrite Swap_len | lia | lia].
Qed.

Lemma reverseRange_spec d a b :
  0 <= a -> b <= len d -> swaps a b d (reverseRange_func d a b).
Proof. intros Ha Hb. unfold reverseRange_func. apply reverseLoop_spec; lia. Qed.

Lemma breakLoop_spec a b length modulus idx :
  0 < length -> length = b - a -> 0 <= a ->
  (exists k, 0 <= k /\ modulus = 2 ^ k) -> modulus <= 2 * length ->
  forall n i random d,
  0 <= i -> i + Z.of_nat n <= 3 -> b <= len d ->
  (forall t, 0 <= t < 3 -> a <= idx - 1 + t < b) ->
  swaps a b d (breakLoop n i a length modulus idx random d).
Proof.
  intros Hl Hlen Ha (k & Hk & Hmod) Hm.
  induction n as [|n IH]; intros i random d Hi Hn Hb Hidx; [apply swaps_refl|].
  cbn [breakLoop].
  set (r := xorshift_Next random).
  set (o := Z.land r (modulus - 1)).
  assert (Ho : 0 <= o < modulus).
  { unfold o. rewrite Hmod. replace (2 ^ k - 1) with (Z.ones k)
      by (rewrite Z.ones_equiv; lia).
    rewrite Z.land_ones by lia. apply Z.mod_pos_bound. lia. }
  set (o' := if o >=? length then o - length else o).
  assert (Ho' : 0 <= o' < length).
  { unfold o'. destruct (o >=? length) eqn:C; rewrite Z.geb_leb in C.
    - apply Z.leb_le in C. lia.
    - apply Z.leb_gt in C. lia. }
  apply (swaps_step a b d (idx - 1 + i) (a + o')); [apply Hidx; lia | lia |].
  apply IH; [lia | lia | by rewrite Swap_len | exact Hidx].
Qed.

Lemma nextPowerOfTwo_spec length :
  0 < length ->
  (exists k, 0 <= k /\ nextPowerOfTwo length = 2 ^ k)
  /\ nextPowerOfTwo length <= 2 * length.
Proof.
  intros Hl. unfold nextPowerOfTwo, bits_Len.
  replace (length <=? 0) with false by (symmetry; apply Z.leb_gt; lia).
  pose proof (Z.log2_nonneg length) as Hn.
  rewrite Z.shiftl_1_l. split.
  - exists (Z.log2 length + 1). split; [lia | reflexivity].
  - rewrite Z.pow_add_r by lia. pose proof (Z.log2_spec length Hl) as [H _].
    change (2 ^ 1) with 2. lia.
Qed.

Lemma breakPatterns_spec d a b :
  0 <= a -> b <= len d -> swaps a b d (breakPatterns_func d a b).
Proof.
  intros Ha Hb. unfold breakPatterns_func.
  destruct (b - a >=? 8) eqn:C; [|apply swaps_refl].
  rewrite Z.geb_leb in C. apply Z.leb_le in C.
  destruct (nextPowerOfTwo_spec (b - a) ltac:(lia)) as [Hpow Hle].
  apply (breakLoop_spec a b); try lia; try assumption.
  intros t Ht.
  assert (Hq : 4 * Z.quot (b - a) 4 <= b - a /\ b - a < 4 * Z.quot (b - a) 4 + 4).
  { rewrite Z.quot_div_nonneg by lia.
    pose proof (Z.div_mod (b - a) 4 ltac:(lia)).
    pose proof (Z.mod_pos_bound (b - a) 4 ltac:(lia)). lia. }
  lia.
Qed.

Lemma shiftRight_spec b : forall fuel j d,
  1 <= j -> b <= len d -> swaps (j - 1) b d (shiftRight less fuel j b d).
Proof.
  induction fuel as [|f IH]; intros j d Hj Hb; [apply swaps_refl|].
  cbn [shiftRight]. destruct (j <? b) eqn:C; [|apply swaps_refl].
  apply Z.ltb_lt in C.
  destruct (negb (Less less d j (j - 1))); [apply swaps_refl|].
  apply (swaps_step _ _ d j (j - 1)); [lia | lia |].
  eapply swaps_mono; [| |apply IH]; [lia | lia | lia | by rewrite Swap_len].
Qed.

(** Below a range whose elements are not less than their left neighbour
    the shifting loop stops where [insertionInner] does. *)
Lemma shiftLeft_insertionInner a : forall fuel j d,
  0 <= a <= j -> j < len d ->
  lessO less (at_ d j) (at_ d (a - 1)) = false ->
  shiftLeft less fuel j d = insertionInner less fuel a j d.
Proof.
  induction fuel as [|f IH]; intros j d Ha Hj Hlb; [reflexivity|].
  cbn [shiftLeft insertionInner].
  destruct (Z.eq_dec j a) as [->|Hne].
  - replace (a >? a) with false by (symmetry; rewrite Z.gtb_ltb; apply Z.ltb_ge; lia).
    cbn. rewrite Less_lessO, Hlb. cbn. by destruct (a >=? 1).
  - replace (j >? a) with true by (symmetry; rewrite Z.gtb_ltb; apply Z.ltb_lt; lia).
    replace (j >=? 1) with true by (symmetry; rewrite Z.geb_leb; apply Z.leb_le; lia).
    cbn. destruct (Less less d j (j - 1)) eqn:L; cbn; [|reflexivity].
    apply IH; [lia | rewrite Swap_len; lia |].
    by swap_at.
Qed.
End Pivot.

Section PartialInsertion.
Context {A : Type} (less : A -> A -> bool).
Hypothesis swo : StrictWeakOrder less.
Implicit Types d : list A.

(** No element of the range is less than the element before the range. *)
Definition lowerBound d (a b : Z) : Prop :=
  forall k, a <= k < b -> leO less (at_ d (a - 1)) (at_ d k).

Lemma lowerBound_swaps d d' a b :
  0 <= a -> b <= len d -> swaps a b d d' -> lowerBound d a b -> lowerBound d' a b.
Proof.
  intros Ha Hb Hs Hlb k Hk.
  rewrite (swaps_outside a b d d' Ha Hb Hs (a - 1)) by lia.
  apply (swaps_allIn (fun o => leO less (at_ d (a - 1)) o) a b d d'); try assumption.
Qed.

Lemma lowerBound_0 d b : lowerBound d 0 b.
Proof. intros k Hk. unfold leO. cbn. by destruct (at_ d k). Qed.

Lemma partialInsertionSteps_spec a b : forall steps d i,
  0 <= a -> a + 1 <= i <= b -> b <= len d ->
  adj less d a i -> lowerBound d a b ->
  swaps a b d (fst (partialInsertionSteps less steps a b i d))
  /\ (snd (partialInsertionSteps less steps a b i d) = true ->
      adj less (fst (partialInsertionSteps less steps a b i d)) a b).
Proof.
  induction steps as [|s IH]; intros d i Ha Hi Hb Hadj Hlb.
  { cbn. split; [apply swaps_refl | discriminate]. }
  cbn [partialInsertionSteps]. cbv zeta.
  destruct (scanUp_spec (S (Z.to_nat (b - i)))
              (fun i => negb (Less less d i (i - 1))) i (b - 1) ltac:(lia))
    as (Hr & Hall & Hstop).
  set (i' := scanUp _ _ i (b - 1)) in *.
  assert (Hadj' : adj less d a i').
  { intros k Hk1 Hk2. destruct (Z_lt_ge_dec (k + 1) i); [apply Hadj; lia|].
    specialize (Hall (k + 1) ltac:(lia)). cbv beta in Hall.
    apply negb_true_iff in Hall. rewrite Less_lessO in Hall.
    replace (k + 1 - 1) with k in Hall by lia. exact Hall. }
  destruct (i' =? b) eqn:E1.
  { apply Z.eqb_eq in E1. cbn. split; [apply swaps_refl|].
    intros _. by rewrite <- E1. }
  apply Z.eqb_neq in E1.
  destruct (b - a <? 50) eqn:E2.
  { cbn. split; [apply swaps_refl | discriminate]. }
  specialize (Hstop ltac:(lia)). cbv beta in Hstop.
  apply negb_false_iff in Hstop.
  set (d1 := Swap d i' (i' - 1)).
  assert (Hlen1 : len d1 = len d) by apply Swap_len.
  assert (Hs1 : swaps a b d d1) by (apply swaps_one; lia).
  set (d2 := if i' - a >=? 2 then shiftLeft less (Z.to_nat i') (i' - 1) d1 else d1).
  assert (H2 : swaps a b d1 d2 /\ adj less d2 a i').
  { unfold d2. destruct (i' - a >=? 2) eqn:E3.
    - rewrite (shiftLeft_insertionInner less a); [|lia|lia|].
      2:{ unfold d1. swap_at. apply Hlb. lia. }
      destruct (insertionInner_spec less swo (Z.to_nat i') (i' - 1) d1 a (i' - 1))
        as [Hs Ha']; [lia | lia | lia | lia | | |].
      + intros k Hk Hne. unfold d1. swap_at. apply Hadj'; lia.
      + lia.
      + replace (i' - 1 + 1) with i' in * by lia.
        split; [eapply swaps_mono; [| |exact Hs]; lia | exact Ha'].
    - rewrite Z.geb_leb in E3. apply Z.leb_gt in E3.
      split; [apply swaps_refl|]. intros k Hk1 Hk2. lia. }
  destruct H2 as [Hs2 Hadj2].
  assert (Hlen2 : len d2 = len d) by (by rewrite (swaps_len _ _ _ _ Hs2)).
  set (d3 := if b - i' >=? 2 then shiftRight less (Z.to_nat (b - i')) (i' + 1) b d2
             else d2).
  assert (Hs3 : swaps i' b d2 d3).
  { unfold d3. destruct (b - i' >=? 2); [|apply swaps_refl].
    replace i' with (i' + 1 - 1) at 1 by lia. apply shiftRight_spec; lia. }
  assert (Hs13 : swaps a b d d3).
  { eapply swaps_trans; [exact Hs1|]. eapply swaps_trans; [exact Hs2|].
    eapply swaps_mono; [| |exact Hs3]; lia. }
  destruct (IH d3 i') as [Hs Hdone].
  - exact Ha.
  - lia.
  - by rewrite (swaps_len _ _ _ _ Hs13).
  - apply (swaps_adj_outside less i' b d2 d3); [lia | lia | exact Hs3 | by left | exact Hadj2].
  - by apply (lowerBound_swaps d d3).
  - split; [eapply swaps_trans; eassumption | exact Hdone].
Qed.

Lemma partialInsertionSort_spec d a b :
  0 <= a -> a < b -> b <= len d -> lowerBound d a b ->
  swaps a b d (fst (partialInsertionSort_func less d a b))
  /\ (snd (partialInsertionSort_func less d a b) = true ->
      adj less (fst (partialInsertionSort_func less d a b)) a b).
Proof.
  intros Ha Hab Hb Hlb. unfold partialInsertionSort_func.
  apply partialInsertionSteps_spec; [exact Ha | lia | exact Hb | | exact Hlb].
  intros k Hk1 Hk2. lia.
Qed.
End PartialInsertion.

(** ** [pdqsort_func] and [sort.Slice]

    The left shift of [partialInsertionSort_func] runs down to index 1,
    not to [a]; it stays in the range because no element of the range is
    less than the one before the range ([lowerBound]), which every
    call and every turn of the loop of [pdqsort_func] keeps. *)

Section Pdqsort.
Context {A : Type} (less : A -> A -> bool).
Hypothesis swo : StrictWeakOrder less.
Implicit Types d : list A.

Lemma swaps_allIn_outside (P : option A -> Prop) a b d d' lo hi :
  0 <= a -> b <= len d -> swaps a b d d' ->
  (hi <= a \/ b <= lo) -> allIn P d lo hi -> allIn P d' lo hi.
Proof.
  intros Ha Hb Hs Hdis Hall k Hk.
  rewrite (swaps_outside a b d d' Ha Hb Hs) by lia. by apply Hall.
Qed.

Lemma lowerBound_shrink d a b b' :
  b' <= b -> lowerBound less d a b -> lowerBound less d a b'.
Proof. intros Hle Hlb k Hk. apply Hlb. lia. Qed.

Lemma at_is_Some d k : 0 <= k < len d -> is_Some (at_ d k).
Proof. intros Hk. destruct (at_valid d k Hk) as [x ->]. by eexists. Qed.

(** Two sorted sides around a pivot make a sorted range. *)
Lemma join_sorted d a mid b (p : option A) :
  at_ d mid = p ->
  allIn (fun o => lessO less o p = true) d a mid ->
  allIn (fun o => lessO less o p = false) d (mid + 1) b ->
  adj less d a mid -> adj less d (mid + 1) b -> adj less d a b.
Proof.
  intros Hp HL HR HaL HaR k Hk1 Hk2.
  destruct (Z_lt_ge_dec (k + 1) mid) as [Hlt|Hge]; [by apply HaL|].
  destruct (Z.eq_dec (k + 1) mid) as [Heq|Hne].
  { rewrite Heq, Hp. apply lessO_leO; [exact swo|]. apply HL. lia. }
  destruct (Z.eq_dec k mid) as [->|Hnk].
  { rewrite Hp. apply (HR (mid + 1)). lia. }
  apply HaR; lia.
Qed.

Lemma pdqsortLoop_spec : forall fuel d a b limit wB wP,
  0 <= a -> a <= b -> b <= len d -> b - a < Z.of_nat fuel ->
  lowerBound less d a b ->
  swaps a b d (pdqsortLoop less fuel d a b limit wB wP)
  /\ adj less (pdqsortLoop less fuel d a b limit wB wP) a b.
Proof.
  induction fuel as [|f IH]; intros d a b limit wB wP Ha Hab Hb Hf Hlb; [lia|].
  cbn [pdqsortLoop]. cbv zeta.
  destruct (b - a <=? 12) eqn:C12; [by apply insertionSort_spec|].
  apply Z.leb_gt in C12.
  destruct (limit =? 0); [by apply heapSort_spec|].
  set (st1 := if negb wB then _ else _).
  assert (H1 : swaps a b d (fst st1)).
  { unfold st1. destruct wB; cbn [negb fst]; [apply swaps_refl | by apply breakPatterns_spec]. }
  clearbody st1. destruct st1 as [d1 limit1]. cbn [fst] in H1. cbv beta iota.
  assert (Hlen1 : len d1 = len d) by (by rewrite (swaps_len _ _ _ _ H1)).
  pose proof (choosePivot_func_range less d1 a b ltac:(lia)) as Hp.
  destruct (choosePivot_func less d1 a b) as [pivot hint]. cbn [fst] in Hp.
  cbv beta iota.
  set (st2 := if isDecreasing hint then _ else _).
  assert (H2 : swaps a b d1 (fst (fst st2)) /\ a <= snd (fst st2) < b).
  { unfold st2. destruct (isDecreasing hint); cbn [fst snd]; split;
      [apply reverseRange_spec; lia | lia | apply swaps_refl | lia]. }
  clearbody st2. destruct st2 as [[d2 pivot2] hint2]. cbn [fst snd] in H2.
  destruct H2 as [H2 Hp2]. cbv beta iota.
  assert (Hs2 : swaps a b d d2) by (eapply swaps_trans; eassumption).
  assert (Hlen2 : len d2 = len d) by (by rewrite (swaps_len _ _ _ _ Hs2)).
  set (st3 := if wB && wP && isIncreasing hint2 then _ else _).
  assert (H3 : swaps a b d2 (fst st3)
               /\ (snd st3 = true -> adj less (fst st3) a b)).
  { unfold st3. destruct (wB && wP && isIncreasing hint2).
    - apply partialInsertionSort_spec; [exact swo | lia | lia | lia |].
      by apply (lowerBound_swaps less d d2).
    - cbn [fst snd]. split; [apply swaps_refl | discriminate]. }
  clearbody st3. destruct st3 as [d3 done]. cbn [fst snd] in H3.
  destruct H3 as [H3 Hdone]. cbv beta iota.
  assert (Hs3 : swaps a b d d3) by (eapply swaps_trans; eassumption).
  assert (Hlen3 : len d3 = len d) by (by rewrite (swaps_len _ _ _ _ Hs3)).
  assert (Hlb3 : lowerBound less d3 a b) by (by apply (lowerBound_swaps less d d3)).
  destruct done; [split; [exact Hs3 | by apply Hdone]|].
  set (p := at_ d3 pivot2).
  assert (Hsp : is_Some p) by (apply at_is_Some; lia).
  destruct ((a >? 0) && negb (Less less d3 (a - 1) pivot2)) eqn:E.
  - apply andb_true_iff in E as [E1 E2].
    rewrite Z.gtb_ltb in E1. apply Z.ltb_lt in E1.
    apply negb_true_iff in E2. rewrite Less_lessO in E2. fold p in E2.
    pose proof (partitionEqual_spec less swo d3 a b pivot2 Ha Hp2 ltac:(lia)) as HPE.
    destruct (partitionEqual_func less d3 a b pivot2) as [d4 mid].
    destruct HPE as (Hs4 & Hmid & HL & HR). fold p in HL, HR.
    assert (Hlen4 : len d4 = len d) by (by rewrite (swaps_len _ _ _ _ Hs4)).
    assert (Hlb4 : lowerBound less d4 a b)
      by (apply (lowerBound_swaps less d3 d4); [lia | lia | exact Hs4 | exact Hlb3]).
    assert (He : at_ d4 (a - 1) = at_ d3 (a - 1))
      by (apply (swaps_outside a b d3 d4); [lia | lia | exact Hs4 | lia]).
    assert (Hse : is_Some (at_ d3 (a - 1))) by (apply at_is_Some; lia).
    assert (Hlb4' : lowerBound less d4 mid b).
    { intros k Hk. apply (leO_trans less swo _ p); [exact Hsp | |].
      - apply (HL (mid - 1)). lia.
      - apply lessO_leO; [exact swo|]. apply HR. lia. }
    destruct (IH d4 mid b limit1 wB wP) as [Hs5 Hadj5];
      [lia | lia | lia | lia | exact Hlb4' |].
    set (d5 := pdqsortLoop less f d4 mid b limit1 wB wP) in *.
    split.
    { eapply swaps_trans; [exact Hs3|]. eapply swaps_trans; [exact Hs4|].
      eapply swaps_mono; [| |exact Hs5]; lia. }
    intros k Hk1 Hk2.
    destruct (Z_lt_ge_dec (k + 1) mid) as [Hlt|Hge].
    + rewrite !(swaps_outside mid b d4 d5 ltac:(lia) ltac:(lia) Hs5) by lia.
      apply (leO_trans less swo _ (at_ d3 (a - 1))); [exact Hse | |].
      * apply (leO_trans less swo _ p); [exact Hsp | | exact E2].
        apply (HL k). lia.
      * rewrite <- He. apply Hlb4. lia.
    + destruct (Z.eq_dec (k + 1) mid) as [Heq|Hne]; [|apply Hadj5; lia].
      pose proof (lowerBound_swaps less d4 d5 mid b ltac:(lia) ltac:(lia) Hs5 Hlb4')
        as Hlb5.
      specialize (Hlb5 mid ltac:(lia)).
      replace (mid - 1) with k in Hlb5 by lia. by rewrite Heq.
  - clear E.
    pose proof (partition_spec less d3 a b pivot2 Ha Hp2 ltac:(lia)) as HP.
    destruct (partition_func less d3 a b pivot2) as [[d4 mid] aP].
    destruct HP as (Hs4 & Hmid & Hpm & HL & HR). fold p in Hpm, HL, HR.
    assert (Hlen4 : len d4 = len d) by (by rewrite (swaps_len _ _ _ _ Hs4)).
    assert (Hs04 : swaps a b d d4) by (eapply swaps_trans; eassumption).
    assert (Hlb4 : lowerBound less d4 a b)
      by (by apply (lowerBound_swaps less d d4)).
    destruct (mid - a <? b - mid).
    + destruct (IH d4 a mid limit1 true true) as [Hs5 Hadj5];
        [lia | lia | lia | lia | |].
      { apply (lowerBound_shrink d4 a b); [lia | exact Hlb4]. }
      set (d5 := pdqsortLoop less f d4 a mid limit1 true true) in *.
      assert (Hlen5 : len d5 = len d) by (by rewrite (swaps_len _ _ _ _ Hs5)).
      assert (Hpm5 : at_ d5 mid = p).
      { rewrite <- Hpm. apply (swaps_outside a mid d4 d5); [lia | lia | exact Hs5 | lia]. }
      assert (HL5 : allIn (fun o => lessO less o p = true) d5 a mid)
        by (apply (swaps_allIn _ a mid d4 d5); [lia | lia | exact Hs5 | exact HL]).
      assert (HR5 : allIn (fun o => lessO less o p = false) d5 (mid + 1) b)
        by (apply (swaps_allIn_outside _ a mid d4 d5); [lia | lia | exact Hs5 | lia | exact HR]).
      destruct (IH d5 (mid + 1) b limit1 (mid - a >=? Z.quot (b - a) 8) aP)
        as [Hs6 Hadj6]; [lia | lia | lia | lia | |].
      { intros k Hk. replace (mid + 1 - 1) with mid by lia. rewrite Hpm5.
        apply (HR5 k). lia. }
      set (d6 := pdqsortLoop less f d5 (mid + 1) b limit1 _ aP) in *.
      split.
      { eapply swaps_trans; [exact Hs04|].
        eapply swaps_trans; [eapply swaps_mono; [| |exact Hs5]; lia|].
        eapply swaps_mono; [| |exact Hs6]; lia. }
      apply (join_sorted d6 a mid b p).
      * rewrite <- Hpm5.
        apply (swaps_outside (mid + 1) b d5 d6); [lia | lia | exact Hs6 | lia].
      * apply (swaps_allIn_outside _ (mid + 1) b d5 d6);
          [lia | lia | exact Hs6 | lia | exact HL5].
      * apply (swaps_allIn _ (mid + 1) b d5 d6); [lia | lia | exact Hs6 | exact HR5].
      * apply (swaps_adj_outside less (mid + 1) b d5 d6);
          [lia | lia | exact Hs6 | lia | exact Hadj5].
      * exact Hadj6.
    + destruct (IH d4 (mid + 1) b limit1 true true) as [Hs5 Hadj5];
        [lia | lia | lia | lia | |].
      { intros k Hk. replace (mid + 1 - 1) with mid by lia. rewrite Hpm.
        apply (HR k). lia. }
      set (d5 := pdqsortLoop less f d4 (mid + 1) b limit1 true true) in *.
      assert (Hlen5 : len d5 = len d) by (by rewrite (swaps_len _ _ _ _ Hs5)).
      assert (Hpm5 : at_ d5 mid = p).
      { rewrite <- Hpm.
        apply (swaps_outside (mid + 1) b d4 d5); [lia | lia | exact Hs5 | lia]. }
      assert (HR5 : allIn (fun o => lessO less o p = false) d5 (mid + 1) b)
        by (apply (swaps_allIn _ (mid + 1) b d4 d5); [lia | lia | exact Hs5 | exact HR]).
      assert (HL5 : allIn (fun o => lessO less o p = true) d5 a mid)
        by (apply (swaps_allIn_outside _ (mid + 1) b d4 d5);
            [lia | lia | exact Hs5 | lia | exact HL]).
      assert (Hlb5 : lowerBound less d5 a mid).
      { intros k Hk.
        rewrite !(swaps_outside (mid + 1) b d4 d5 ltac:(lia) ltac:(lia) Hs5) by lia.
        apply Hlb4. lia. }
      destruct (IH d5 a mid limit1 (b - mid >=? Z.quot (b - a) 8) aP)
        as [Hs6 Hadj6]; [lia | lia | lia | lia | exact Hlb5 |].
      set (d6 := pdqsortLoop less f d5 a mid limit1 _ aP) in *.
      split.
      { eapply swaps_trans; [exact Hs04|].
        eapply swaps_trans; [eapply swaps_mono; [| |exact Hs5]; lia|].
        eapply swaps_mono; [| |exact Hs6]; lia. }
      apply (join_sorted d6 a mid b p).
      * rewrite <- Hpm5.
        apply (swaps_outside a mid d5 d6); [lia | lia | exact Hs6 | lia].
      * apply (swaps_allIn _ a mid d5 d6); [lia | lia | exact Hs6 | exact HL5].
      * apply (swaps_allIn_outside _ a mid d5 d6);
          [lia | lia | exact Hs6 | lia | exact HR5].
      * exact Hadj6.
      * apply (swaps_adj_outside less a mid d5 d6);
          [lia | lia | exact Hs6 | lia | exact Hadj5].
Qed.

Lemma at_cons (x : A) l k : 0 <= k -> at_ (x :: l) (k + 1) = at_ l k.
Proof.
  intros Hk. unfold at_.
  replace (k + 1 <? 0) with false by (symmetry; apply Z.ltb_ge; lia).
  replace (k <? 0) with false by (symmetry; apply Z.ltb_ge; lia).
  replace (Z.to_nat (k + 1)) with (S (Z.to_nat k)) by lia. reflexivity.
Qed.

Lemma adj_Sorted : forall l : list A,
  adj less l 0 (len l) -> Sorted (fun a b => less b a = false) l.
Proof.
  induction l as [|x l IH]; intros Hadj; [constructor|].
  assert (Hlen : len (x :: l) = len l + 1) by (unfold len; cbn [length]; lia).
  constructor.
  - apply IH. intros k Hk1 Hk2.
    rewrite <- (at_cons x l k), <- (at_cons x l (k + 1)) by lia. apply Hadj; lia.
  - destruct l as [|y l]; constructor.
    specialize (Hadj 0 ltac:(lia)). apply Hadj.
    unfold len. cbn [length]. lia.
Qed.

Theorem Slice_sorts (x : list A) :
  Permutation (Slice A x less) x
  /\ StronglySorted (fun a b => less b a = false) (Slice A x less).
Proof.
  unfold Slice, pdqsort_func. fold (len x).
  destruct (pdqsortLoop_spec (S (Z.to_nat (len x - 0))) x 0 (len x)
              (bits_Len (len x)) true true) as [Hs Hadj].
  - lia.
  - unfold len. lia.
  - lia.
  - unfold len. lia.
  - apply lowerBound_0.
  - set (r := pdqsortLoop _ _ _ _ _ _ _ _) in *.
    split; [exact (swaps_perm _ _ _ _ Hs)|].
    apply Sorted_StronglySorted.
    + intros a b c Hab Hbc.
      exact (swo_incomparable less swo c b a Hbc Hab).
    + apply adj_Sorted. by rewrite (swaps_len _ _ _ _ Hs).
Qed.
End Pdqsort.

(** Go's [sort.Slice] keeps the promise. *)
Theorem Slice_SortsSlices : SortsSlices Slice.
Proof. intros A x less Hswo. by apply Slice_sorts. Qed.
End SortFacts.

(* ================================================================== *)
(** * Properties of the series normaliser *)

Module NormalizeFacts.
Import Normalize.

Lemma Before_irrefl t : Before t t = false.
Proof.
  unfold Before. rewrite Z.ltb_irrefl, Z.eqb_refl, Z.ltb_irrefl. reflexivity.
Qed.

Lemma Before_spec t u :
  Before t u = true
  <-> t_sec t < t_sec u \/ (t_sec t = t_sec u /\ t_nsec t < t_nsec u).
Proof.
  unfold Before.
  rewrite orb_true_iff, andb_true_iff, !Z.ltb_lt, Z.eqb_eq. reflexivity.
Qed.

Lemma Before_false t u :
  Before t u = false
  <-> t_sec u < t_sec t \/ (t_sec t = t_sec u /\ t_nsec u <= t_nsec t).
Proof.
  destruct (Before t u) eqn:H.
  - apply Before_spec in H. split; [discriminate | lia].
  - split; [|reflexivity]. intros _.
    assert (Hn : ~ (t_sec t < t_sec u \/ (t_sec t = t_sec u /\ t_nsec t < t_nsec u))).
    { intros Hc. apply Before_spec in Hc. congruence. }
    lia.
Qed.

Lemma lessByDate_swo : SortFacts.StrictWeakOrder lessByDate.
Proof.
  unfold lessByDate. split.
  - intros x. apply Before_irrefl.
  - intros x y z. rewrite !Before_spec. lia.
  - intros x y z. rewrite !Before_false. lia.
Qed.

(** ** The frame as a list of rows *)

Definition zeroRow : sortData := mkSortData zeroTime 0%float 0%float 0%float 0%float 0.

Definition rowOf (date : time_Time) (price : Price) : sortData :=
  mkSortData date (Open price) (Close price) (High price) (Low price) (Volume price).

Definition frameOf (rows : list sortData) : PriceDataFrame :=
  mkPriceDataFrame (map sd_date rows) (map sd_open rows) (map sd_close rows)
                   (map sd_high rows) (map sd_low rows) (map sd_volume rows).

Lemma makeFrame_frameOf n : makeFrame n = frameOf (replicate n zeroRow).
Proof.
  unfold makeFrame, frameOf.
  change (@map) with (@fmap list _). by rewrite !fmap_replicate.
Qed.

Lemma setRow_frameOf i d rows :
  setRow i (sd_date d) (sd_open d) (sd_close d) (sd_high d) (sd_low d) (sd_volume d)
         (frameOf rows)
  = frameOf (<[i := d]> rows).
Proof.
  unfold setRow, frameOf. cbn.
  change (@map) with (@fmap list _). by rewrite !list_fmap_insert.
Qed.

Lemma insert_middle {A} (pre : list A) (x y : A) (rest : list A) :
  <[length pre := x]> (pre ++ y :: rest) = pre ++ x :: rest.
Proof.
  rewrite insert_app_r_alt by lia. by rewrite Nat.sub_diag.
Qed.

Lemma rowAt_frameOf rows i : rowAt (frameOf rows) i = nth i rows zeroRow.
Proof.
  unfold rowAt, frameOf. cbn.
  change zeroTime with (sd_date zeroRow).
  change 0%float with (sd_open zeroRow) at 1.
  change 0%float with (sd_close zeroRow) at 1.
  change 0%float with (sd_high zeroRow) at 1.
  change 0%float with (sd_low zeroRow) at 1.
  change 0 with (sd_volume zeroRow).
  rewrite !map_nth. by destruct (nth i rows zeroRow).
Qed.

Lemma map_nth_seq {A} (l : list A) d :
  map (fun i => nth i l d) (seq 0 (length l)) = l.
Proof.
  induction l as [|x l IH]; [reflexivity|].
  cbn [length seq map nth]. f_equal.
  rewrite <- seq_shift, map_map. exact IH.
Qed.

Lemma collect_frameOf rows : collect (length rows) (frameOf rows) = rows.
Proof.
  unfold collect. rewrite <- (map_nth_seq rows zeroRow) at 3.
  apply map_ext. intros i. apply rowAt_frameOf.
Qed.

Lemma writeBack_frameOf data : forall pre rest,
  length rest = length data ->
  writeBack (length pre) data (frameOf (pre ++ rest)) = frameOf (pre ++ data).
Proof.
  induction data as [|d data IH]; intros pre rest Hlen.
  - destruct rest; [reflexivity | discriminate].
  - destruct rest as [|r rest]; [discriminate|].
    cbn [writeBack]. rewrite setRow_frameOf, insert_middle.
    replace (S (length pre)) with (length (pre ++ [d]))
      by (rewrite length_app; cbn; lia).
    replace (pre ++ d :: rest) with ((pre ++ [d]) ++ rest) by (by rewrite <- app_assoc).
    rewrite IH by (cbn in Hlen; lia).
    by rewrite <- app_assoc.
Qed.

Section Parsing.
Variable time_Parse : string -> string -> option time_Time.

(** The rows of the first loop, or the error of the first timestamp that
    does not parse. *)
Fixpoint parseRows (prices : list Price) : Result (list sortData) :=
  match prices with
  | [] => inr []
  | price :: rest =>
      match parseTime time_Parse (Time price) with
      | inl e => inl e
      | inr date =>
          match parseRows rest with
          | inl e => inl e
          | inr rows => inr (rowOf date price :: rows)
          end
      end
  end.

Lemma fillLoop_parseRows prices : forall pre,
  fillLoop time_Parse (length pre) prices
           (frameOf (pre ++ replicate (length prices) zeroRow))
  = match parseRows prices with
    | inl e => inl e
    | inr rows => inr (frameOf (pre ++ rows))
    end.
Proof.
  induction prices as [|price rest IH]; intros pre; [reflexivity|].
  cbn [fillLoop parseRows length replicate].
  destruct (parseTime time_Parse (Time price)) as [e|date]; [reflexivity|].
  pose proof (setRow_frameOf (length pre) (rowOf date price)
                (pre ++ zeroRow :: replicate (length rest) zeroRow)) as Hset.
  cbn [rowOf sd_date sd_open sd_close sd_high sd_low sd_volume] in Hset.
  rewrite Hset, insert_middle.
  replace (S (length pre)) with (length (pre ++ [rowOf date price]))
    by (rewrite length_app; cbn; lia).
  replace (pre ++ rowOf date price :: replicate (length rest) zeroRow)
    with ((pre ++ [rowOf date price]) ++ replicate (length rest) zeroRow)
    by (by rewrite <- app_assoc).
  rewrite IH. destruct (parseRows rest) as [e|rows]; [reflexivity|].
  by rewrite <- app_assoc.
Qed.

Lemma parseRows_length prices rows :
  parseRows prices = inr rows -> length rows = length prices.
Proof.
  revert rows. induction prices as [|price rest IH]; intros rows H; cbn in H.
  - by inversion H.
  - destruct (parseTime time_Parse (Time price)); [discriminate|].
    destruct (parseRows rest) as [|rows']; [discriminate|].
    inversion H. cbn. f_equal. by apply IH.
Qed.

(** The whole function in terms of rows, for a sort that keeps the number
    of elements. *)
Lemma PricesToDataFrame_rows
      (sort_Slice : forall A : Type, list A -> (A -> A -> bool) -> list A) prices :
  (forall l, length (sort_Slice sortData l lessByDate) = length l) ->
  PricesToDataFrame time_Parse sort_Slice prices
  = match parseRows prices with
    | inl e => inl e
    | inr rows =>
        inr (frameOf (match prices with
                      | [] => []
                      | _ => sort_Slice sortData rows lessByDate
                      end))
    end.
Proof.
  intros Hlen. destruct prices as [|price rest]; [reflexivity|].
  unfold PricesToDataFrame.
  rewrite makeFrame_frameOf.
  pose proof (fillLoop_parseRows (price :: rest) []) as Hfill.
  cbn [app] in Hfill. change (length []) with 0%nat in Hfill. rewrite Hfill.
  destruct (parseRows (price :: rest)) as [e|rows] eqn:Hrows; [reflexivity|].
  f_equal. apply parseRows_length in Hrows.
  rewrite <- Hrows, collect_frameOf.
  pose proof (writeBack_frameOf (sort_Slice sortData rows lessByDate) [] rows) as Hwb.
  cbn [length app] in Hwb. apply Hwb. by rewrite Hlen.
Qed.

Lemma parseTime_inr value date :
  parseTime time_Parse value = inr date
  <-> time_Parse time_RFC3339 value = Some date
      \/ (time_Parse time_RFC3339 value = None
          /\ time_Parse "2006-01-02" value = Some date).
Proof.
  unfold parseTime.
  destruct (time_Parse time_RFC3339 value) as [d|];
    [|destruct (time_Parse "2006-01-02" value) as [d|]]; split.
  - intros H. left. congruence.
  - intros [H | [H _]]; congruence.
  - intros H. right. split; congruence.
  - intros [H | [_ H]]; congruence.
  - discriminate.
  - intros [H | [_ H]]; discriminate.
Qed.

Lemma parseTime_inl value e :
  parseTime time_Parse value = inl e
  <-> time_Parse time_RFC3339 value = None
      /\ time_Parse "2006-01-02" value = None
      /\ e = ErrParseTime value.
Proof.
  unfold parseTime.
  destruct (time_Parse time_RFC3339 value) as [d|];
    [|destruct (time_Parse "2006-01-02" value) as [d|]]; split.
  - discriminate.
  - intros (H & _). discriminate.
  - discriminate.
  - intros (_ & H & _). discriminate.
  - intros H. split; [done|]. split; [done|]. congruence.
  - intros (_ & _ & ->). reflexivity.
Qed.

(** A timestamp is accepted when one of the two layouts parses it. *)
Definition accepted (value : string) : Prop :=
  time_Parse time_RFC3339 value <> None \/ time_Parse "2006-01-02" value <> None.

(** The row a record is turned into. *)
Definition rowFor (price : Price) (row : sortData) : Prop :=
  exists date, parseTime time_Parse (Time price) = inr date /\ row = rowOf date price.

Lemma parseRows_accepted prices :
  (forall p, In p prices -> accepted (Time p)) ->
  exists rows, parseRows prices = inr rows /\ Forall2 rowFor prices rows.
Proof.
  induction prices as [|price rest IH]; intros Hall.
  - exists []. split; [reflexivity | constructor].
  - destruct IH as (rows & Hrows & HF).
    { intros p Hp. apply Hall. by right. }
    cbn [parseRows]. rewrite Hrows.
    destruct (parseTime time_Parse (Time price)) as [e|date] eqn:Hp.
    + apply parseTime_inl in Hp as (H1 & H2 & _).
      destruct (Hall price (or_introl eq_refl)) as [H | H]; contradiction.
    + exists (rowOf date price :: rows). split; [reflexivity|].
      constructor; [|exact HF]. by exists date.
Qed.

Lemma parseRows_rejected prices :
  (exists p, In p prices
             /\ time_Parse time_RFC3339 (Time p) = None
             /\ time_Parse "2006-01-02" (Time p) = None) ->
  exists bad, In bad prices
              /\ time_Parse time_RFC3339 (Time bad) = None
              /\ time_Parse "2006-01-02" (Time bad) = None
              /\ parseRows prices = inl (ErrParseTime (Time bad)).
Proof.
  induction prices as [|price rest IH]; intros (p & Hin & H1 & H2).
  - destruct Hin.
  - cbn [parseRows].
    destruct (parseTime time_Parse (Time price)) as [e|date] eqn:Hp.
    + apply parseTime_inl in Hp as (H1' & H2' & ->).
      exists price. repeat split; [by left | done | done].
    + destruct Hin as [-> | Hin].
      { apply parseTime_inr in Hp as [Hp | [_ Hp]]; congruence. }
      destruct IH as (bad & Hb & Hb1 & Hb2 & Hrows); [by exists p|].
      exists bad. rewrite Hrows. repeat split; [by right | done | done].
Qed.

(** A parse error leaves before the sort is reached. *)
Lemma PricesToDataFrame_error
      (sort_Slice : forall A : Type, list A -> (A -> A -> bool) -> list A) prices e :
  parseRows prices = inl e ->
  PricesToDataFrame time_Parse sort_Slice prices = inl e.
Proof.
  intros Hrows. destruct prices as [|price rest]; [discriminate|].
  unfold PricesToDataFrame. rewrite makeFrame_frameOf.
  pose proof (fillLoop_parseRows (price :: rest) []) as Hfill.
  cbn [app] in Hfill. change (length []) with 0%nat in Hfill.
  rewrite Hfill, Hrows. reflexivity.
Qed.

(** The table of a run whose timestamps are all accepted. *)
Lemma PricesToDataFrame_accepted
      (sort_Slice : forall A : Type, list A -> (A -> A -> bool) -> list A) prices :
  SortFacts.SortsSlices sort_Slice ->
  (forall p, In p prices -> accepted (Time p)) ->
  exists rows sorted,
    PricesToDataFrame time_Parse sort_Slice prices = inr (frameOf sorted)
    /\ Forall2 rowFor prices rows
    /\ Permutation sorted rows
    /\ StronglySorted (fun a b => lessByDate b a = false) sorted.
Proof.
  intros Hsort Hall.
  destruct (parseRows_accepted prices Hall) as (rows & Hrows & HF).
  rewrite PricesToDataFrame_rows, Hrows.
  - destruct prices as [|price rest].
    + inversion HF; subst. exists [], []. repeat split; constructor.
    + destruct (Hsort sortData rows lessByDate lessByDate_swo) as [Hperm Hsorted].
      exists rows, (sort_Slice sortData rows lessByDate).
      repeat split; done.
  - intros l. destruct (Hsort sortData l lessByDate lessByDate_swo) as [Hperm _].
    by apply Permutation_length.
Qed.
End Parsing.

Lemma StronglySorted_lookup {A} (R : A -> A -> Prop) (l : list A) :
  StronglySorted R l ->
  forall i j x y, (i < j)%nat -> l !! i = Some x -> l !! j = Some y -> R x y.
Proof.
  induction 1 as [|a l Hs IH Hall]; intros i j x y Hij Hi Hj.
  - destruct i; discriminate.
  - destruct j as [|j]; [lia|]. cbn in Hj. destruct i as [|i].
    + cbn in Hi. inversion Hi; subst.
      rewrite List.Forall_forall in Hall. apply Hall.
      apply list_elem_of_In, list_elem_of_lookup. eauto.
    + cbn in Hi. apply (IH i j); [lia | done | done].
Qed.

Lemma Forall2_In_l {A B} (R : A -> B -> Prop) (l1 : list A) (l2 : list B) x :
  Forall2 R l1 l2 -> In x l1 -> exists y, In y l2 /\ R x y.
Proof.
  induction 1 as [|a b l1 l2 Hab HF IH]; intros Hin; [destruct Hin|].
  destruct Hin as [<- | Hin].
  - exists b. split; [by left | done].
  - destruct (IH Hin) as (y & Hy & HR). exists y. split; [by right | done].
Qed.

Lemma StronglySorted_map {A B} (f : A -> B) (R : B -> B -> Prop) (l : list A) :
  StronglySorted (fun a b => R (f a) (f b)) l -> StronglySorted R (map f l).
Proof.
  induction 1 as [|a l Hs IH Hall]; cbn; constructor; [done|].
  rewrite List.Forall_forall in *. intros b Hb.
  apply in_map_iff in Hb as (c & <- & Hc). by apply Hall.
Qed.

(** ** A reference parser for the scenarios *)

Definition digit (c : ascii) : option Z :=
  let n := Z.of_nat (nat_of_ascii c) in
  if (48 <=? n) && (n <=? 57) then Some (n - 48) else None.

(** [n] decimal digits at the head of [s]. *)
Fixpoint digits (n : nat) (acc : Z) (s : string) : option (Z * string) :=
  match n with
  | O => Some (acc, s)
  | S n' =>
      match s with
      | String c rest =>
          match digit c with
          | Some d => digits n' (acc * 10 + d) rest
          | None => None
          end
      | EmptyString => None
      end
  end.

Definition expect (c : ascii) (s : string) : option string :=
  match s with
  | String a rest => if Ascii.eqb a c then Some rest else None
  | EmptyString => None
  end.

Definition isLeap (y : Z) : bool :=
  (y mod 4 =? 0) && (negb (y mod 100 =? 0) || (y mod 400 =? 0)).

Definition daysIn (y m : Z) : Z :=
  if m =? 2 then (if isLeap y then 29 else 28)
  else if (m =? 4) || (m =? 6) || (m =? 9) || (m =? 11) then 30 else 31.

(** Days from 0001-01-01 to the given day of the proleptic Gregorian
    calendar. *)
Definition daysSinceYear1 (y m d : Z) : Z :=
  let y' := if m <=? 2 then y - 1 else y in
  let era := y' / 400 in
  let yoe := y' - era * 400 in
  let mp := if m >? 2 then m - 3 else m + 9 in
  let doy := (153 * mp + 2) / 5 + d - 1 in
  let doe := yoe * 365 + yoe / 4 - yoe / 100 + doy in
  era * 146097 + doe - 306.

Definition parseDay (s : string) : option (Z * string) :=
  '(y, s) ← digits 4 0 s;
  s ← expect "-" s;
  '(m, s) ← digits 2 0 s;
  s ← expect "-" s;
  '(d, s) ← digits 2 0 s;
  if (1 <=? m) && (m <=? 12) && (1 <=? d) && (d <=? daysIn y m)
  then Some (daysSinceYear1 y m d, s) else None.

Definition parseClock (s : string) : option (Z * string) :=
  '(h, s) ← digits 2 0 s;
  s ← expect ":" s;
  '(mi, s) ← digits 2 0 s;
  s ← expect ":" s;
  '(sec, s) ← digits 2 0 s;
  if (h <? 24) && (mi <? 60) && (sec <? 60)
  then Some (h * 3600 + mi * 60 + sec, s) else None.

(** [time.Parse] on the two layouts of [PricesToDataFrame], for the
    timestamps of the scenarios: a calendar day [YYYY-MM-DD], and for
    RFC 3339 a day and a time of day in UTC, [YYYY-MM-DDThh:mm:ssZ]. *)
Definition referenceParse (layout value : string) : option time_Time :=
  if String.eqb layout "2006-01-02" then
    '(day, rest) ← parseDay value;
    if String.eqb rest "" then Some (mkTime (day * 86400) 0 0) else None
  else if String.eqb layout time_RFC3339 then
    '(day, rest) ← parseDay value;
    rest ← expect "T" rest;
    '(clock, rest) ← parseClock rest;
    rest ← expect "Z" rest;
    if String.eqb rest "" then Some (mkTime (day * 86400 + clock) 0 0) else None
  else None.

(** ** Scenarios *)

Definition quote (time : string) (volume : Z) : Price :=
  mkPrice 10%float 11%float 12%float 9%float volume time.

(** Three records, out of order, in both timestamp formats. *)
Definition threeDays : list Price :=
  [quote "2024-01-03" 3; quote "2024-01-01T00:00:00Z" 1; quote "2024-01-02" 2].

(** Thirteen daily records; the seventh repeats the day of the first. *)
Definition thirteenDays : list Price :=
  [quote "2024-01-01" 100; quote "2024-01-02" 101; quote "2024-01-03" 102;
   quote "2024-01-04" 103; quote "2024-01-05" 104; quote "2024-01-06" 105;
   quote "2024-01-01" 106; quote "2024-01-07" 107; quote "2024-01-08" 108;
   quote "2024-01-09" 109; quote "2024-01-10" 110; quote "2024-01-11" 111;
   quote "2024-01-12" 112].

(** ** The claims *)

(** C4: the empty list gives the empty table and no error; a list whose
    timestamps are all accepted by one of the two layouts gives, with no
    error, a table whose six columns have the length of the input and
    whose [Dates] never step back in time.  [sort.Slice] enters through
    what it promises. *)
Theorem PricesToDataFrame_sorted_table
        (time_Parse : string -> string -> option time_Time)
        (sort_Slice : forall A : Type, list A -> (A -> A -> bool) -> list A)
        (prices : list Price) :
  PricesToDataFrame time_Parse sort_Slice [] = inr (mkPriceDataFrame [] [] [] [] [] [])
  /\ (SortFacts.SortsSlices sort_Slice ->
      (forall p, In p prices -> accepted time_Parse (Time p)) ->
      exists df,
        PricesToDataFrame time_Parse sort_Slice prices = inr df
        /\ length (Dates df) = length prices
        /\ length (df_Open df) = length prices
        /\ length (df_Close df) = length prices
        /\ length (df_High df) = length prices
        /\ length (df_Low df) = length prices
        /\ length (df_Volume df) = length prices
        /\ forall i j di dj,
             (i < j)%nat -> Dates df !! i = Some di -> Dates df !! j = Some dj ->
             Before dj di = false).
Proof.
  split; [reflexivity|]. intros Hsort Hall.
  destruct (PricesToDataFrame_accepted time_Parse sort_Slice prices Hsort Hall)
    as (rows & sorted & Hrun & HF & Hperm & Hsorted).
  exists (frameOf sorted). split; [exact Hrun|].
  assert (Hlen : length sorted = length prices).
  { rewrite (Permutation_length Hperm). symmetry. exact (Forall2_length _ _ _ HF). }
  cbn [frameOf Dates df_Open df_Close df_High df_Low df_Volume].
  rewrite !length_map. repeat split; try exact Hlen.
  intros i j di dj Hij Hi Hj.
  apply (StronglySorted_lookup (fun a b => Before b a = false) (map sd_date sorted))
    with (i := i) (j := j); [|done..].
  apply StronglySorted_map. exact Hsorted.
Qed.

Lemma PricesToDataFrame_sorted_table_witness :
  exists df,
    PricesToDataFrame referenceParse GoSort.Slice threeDays = inr df
    /\ length (Dates df) = length threeDays
    /\ length (df_Open df) = length threeDays
    /\ length (df_Close df) = length threeDays
    /\ length (df_High df) = length threeDays
    /\ length (df_Low df) = length threeDays
    /\ length (df_Volume df) = length threeDays
    /\ forall i j di dj,
         (i < j)%nat -> Dates df !! i = Some di -> Dates df !! j = Some dj ->
         Before dj di = false.
Proof.
  apply (PricesToDataFrame_sorted_table referenceParse GoSort.Slice threeDays).
  - exact SortFacts.Slice_SortsSlices.
  - intros p [<- | [<- | [<- | []]]].
    + right. vm_compute. discriminate.
    + left. vm_compute. discriminate.
    + right. vm_compute. discriminate.
Defined.

(** C5 as the specification states it fails.  With Go's [sort.Slice] the
    first and the seventh of these thirteen records carry the same
    timestamp, and the table lists the seventh (volume 106) before the
    first (volume 100). *)
Lemma PricesToDataFrame_not_stable :
  referenceParse "2006-01-02" "2024-01-01" = Some (mkTime 63839664000 0 0)
  /\ (Time <$> thirteenDays !! 0%nat) = Some "2024-01-01"%string
  /\ (Time <$> thirteenDays !! 6%nat) = Some "2024-01-01"%string
  /\ exists df,
       PricesToDataFrame referenceParse GoSort.Slice thirteenDays = inr df
       /\ df_Volume df = [106; 100; 101; 102; 103; 104; 105; 107; 108; 109; 110; 111; 112]
       /\ Dates df !! 0%nat = Some (mkTime 63839664000 0 0)
       /\ Dates df !! 1%nat = Some (mkTime 63839664000 0 0).
Proof.
  split; [vm_compute; reflexivity|].
  split; [reflexivity|]. split; [reflexivity|].
  eexists. split; [vm_compute; reflexivity|].
  split; [reflexivity|]. split; reflexivity.
Qed.

(** C5 (amended): the sort of [PricesToDataFrame] orders the rows by
    timestamp and keeps every record: the rows of the table are the rows
    of the input records, each exactly once, and a row never comes after
    one with a later timestamp.  The order among rows with equal
    timestamps is whatever [sort.Slice] leaves. *)
Theorem PricesToDataFrame_sorted_permutation
        (time_Parse : string -> string -> option time_Time)
        (sort_Slice : forall A : Type, list A -> (A -> A -> bool) -> list A)
        (prices : list Price) :
  SortFacts.SortsSlices sort_Slice ->
  (forall p, In p prices -> accepted time_Parse (Time p)) ->
  exists rows sorted,
    PricesToDataFrame time_Parse sort_Slice prices = inr (frameOf sorted)
    /\ Forall2 (rowFor time_Parse) prices rows
    /\ Permutation sorted rows
    /\ forall i j a b,
         (i < j)%nat -> sorted !! i = Some a -> sorted !! j = Some b ->
         Before (sd_date b) (sd_date a) = false.
Proof.
  intros Hsort Hall.
  destruct (PricesToDataFrame_accepted time_Parse sort_Slice prices Hsort Hall)
    as (rows & sorted & Hrun & HF & Hperm & Hsorted).
  exists rows, sorted. repeat split; [done..|].
  intros i j a b Hij Hi Hj.
  exact (StronglySorted_lookup _ sorted Hsorted i j a b Hij Hi Hj).
Qed.

Lemma PricesToDataFrame_sorted_permutation_witness :
  exists rows sorted,
    PricesToDataFrame referenceParse GoSort.Slice threeDays = inr (frameOf sorted)
    /\ Forall2 (rowFor referenceParse) threeDays rows
    /\ Permutation sorted rows
    /\ forall i j a b,
         (i < j)%nat -> sorted !! i = Some a -> sorted !! j = Some b ->
         Before (sd_date b) (sd_date a) = false.
Proof.
  apply (PricesToDataFrame_sorted_permutation referenceParse GoSort.Slice threeDays).
  - exact SortFacts.Slice_SortsSlices.
  - intros p [<- | [<- | [<- | []]]].
    + right. vm_compute. discriminate.
    + left. vm_compute. discriminate.
    + right. vm_compute. discriminate.
Defined.

(** C6: each timestamp is parsed with the RFC 3339 layout first and with
    the date-only layout "2006-01-02" when that fails: the table holds
    the RFC 3339 reading of a record when there is one, the date-only
    reading otherwise.  One record that neither layout accepts aborts the
    conversion: the result is the parse error of such a record and no
    table. *)
Theorem PricesToDataFrame_parsing
        (time_Parse : string -> string -> option time_Time)
        (sort_Slice : forall A : Type, list A -> (A -> A -> bool) -> list A)
        (prices : list Price) :
  ((exists p, In p prices
              /\ time_Parse time_RFC3339 (Time p) = None
              /\ time_Parse "2006-01-02" (Time p) = None) ->
   exists bad, In bad prices
               /\ time_Parse time_RFC3339 (Time bad) = None
               /\ time_Parse "2006-01-02" (Time bad) = None
               /\ PricesToDataFrame time_Parse sort_Slice prices
                  = inl (ErrParseTime (Time bad)))
  /\ (SortFacts.SortsSlices sort_Slice ->
      (forall p, In p prices -> accepted time_Parse (Time p)) ->
      exists df,
        PricesToDataFrame time_Parse sort_Slice prices = inr df
        /\ (forall p date, In p prices ->
              time_Parse time_RFC3339 (Time p) = Some date -> In date (Dates df))
        /\ (forall p date, In p prices ->
              time_Parse time_RFC3339 (Time p) = None ->
              time_Parse "2006-01-02" (Time p) = Some date -> In date (Dates df))).
Proof.
  split.
  - intros Hbad.
    destruct (parseRows_rejected time_Parse prices Hbad) as (bad & Hin & H1 & H2 & Hrows).
    exists bad. repeat split; [done..|].
    by apply PricesToDataFrame_error.
  - intros Hsort Hall.
    destruct (PricesToDataFrame_accepted time_Parse sort_Slice prices Hsort Hall)
      as (rows & sorted & Hrun & HF & Hperm & _).
    exists (frameOf sorted). split; [exact Hrun|].
    assert (Hin : forall p date, In p prices ->
                    parseTime time_Parse (Time p) = inr date ->
                    In date (Dates (frameOf sorted))).
    { intros p date Hp Hparse. cbn [frameOf Dates].
      destruct (Forall2_In_l _ _ _ _ HF Hp) as (row & Hrow & date' & Hd & ->).
      apply in_map_iff. exists (rowOf date' p). split.
      - cbn. congruence.
      - apply (Permutation_in _ (Permutation_sym Hperm)). exact Hrow. }
    split; intros p date Hp.
    + intros H. apply (Hin p date Hp). apply parseTime_inr. by left.
    + intros H1 H2. apply (Hin p date Hp). apply parseTime_inr. by right.
Qed.

Lemma PricesToDataFrame_parsing_witness :
  exists bad,
    In bad (quote "01/02/2024" 7 :: threeDays)
    /\ referenceParse time_RFC3339 (Time bad) = None
    /\ referenceParse "2006-01-02" (Time bad) = None
    /\ PricesToDataFrame referenceParse GoSort.Slice (quote "01/02/2024" 7 :: threeDays)
       = inl (ErrParseTime (Time bad)).
Proof.
  apply (PricesToDataFrame_parsing referenceParse GoSort.Slice
                                   (quote "01/02/2024" 7 :: threeDays)).
  exists (quote "01/02/2024" 7). split; [by left|]. split; reflexivity.
Defined.

End NormalizeFacts.

(* ================================================================== *)
(** * Properties of the paginated aggregators *)

Module PaginateFacts.
Import Retry RetryFacts Paginate.

(** ** The requests a call leaves in the world *)








(** ** One iteration of the loop *)

Inductive Fetched (T : Type) :=
| Failed (e : error)
| Page (page : list T).
Arguments Failed {T} e.
Arguments Page {T} page.

Section Loop.
Variable E : Env.
Variable T : Type.
Variable dateOf : T -> string.
Variable decode : string -> option (list T).
Variable what : string.
Variable pageURL : string -> string.
Variables (ticker : string) (startDate : option string) (limit : Z)
          (headers : gmap string string).

Local Abbreviation loop :=
  (pageLoop E T dateOf decode what pageURL ticker startDate limit headers).

(** Lines 377-403 (470-496): one page request and what it decodes to. *)
Definition fetchPage (currentEndDate : string) (w : World)
  : option (Fetched T * World) :=
  match makeAPIRequest E (pageURL currentEndDate) headers "GET" None 3 w with
  | None => None
  | Some (inl err, w1) => Some (Failed (ErrAPIRequest err), w1)
  | Some (inr resp, w1) =>
      if negb (StatusCode resp =? 200) then
        Some (Failed (ErrStatus ticker (StatusCode resp) (Body resp)), w1)
      else if BodyReadFails resp then Some (Failed ErrReadBody, w1)
      else match decode (Body resp) with
           | None => Some (Failed (ErrDecode what), w1)
           | Some page => Some (Page page, w1)
           end
  end.

(** The cursor a page moves the walk to: its oldest date, time of day
    stripped. *)
Definition nextCursor (page : list T) : string :=
  match page with
  | [] => ""%string
  | first :: _ => stripTime (minDateOf T dateOf first page)
  end.

Lemma fetchPage_total cursor w : exists f w1, fetchPage cursor w = Some (f, w1).
Proof.
  unfold fetchPage.
  destruct (makeAPIRequest_total E (pageURL cursor) headers "GET" None 3 w)
    as (res & w1 & ->); [unfold maxInt64; lia|].
  destruct res as [err|resp]; [eauto|].
  destruct (negb (StatusCode resp =? 200)); [eauto|].
  destruct (BodyReadFails resp); [eauto|].
  destruct (decode (Body resp)); eauto.
Qed.


(** The loop, one iteration unfolded. *)
Lemma pageLoop_step fuel cursor all w :
  loop (S fuel) cursor all w
  = match fetchPage cursor w with
    | None => None
    | Some (Failed e, w1) => Some (inl e, w1)
    | Some (Page [], w1) => Some (inr all, w1)
    | Some (Page page, w1) =>
        if match startDate with None => true | Some _ => false end
           || (Z.of_nat (length page) <? limit)
        then Some (inr (all ++ page), w1)
        else
          match startDate with
          | Some sd =>
              if String.leb (nextCursor page) sd then Some (inr (all ++ page), w1)
              else loop fuel (nextCursor page) (all ++ page) w1
          | None => loop fuel (nextCursor page) (all ++ page) w1
          end
    end.
Proof.
  cbn [pageLoop]. unfold fetchPage.
  destruct (makeAPIRequest E (pageURL cursor) headers "GET" None 3 w)
    as [[[err|resp] w1]|]; [reflexivity| |reflexivity].
  destruct (negb (StatusCode resp =? 200)); [reflexivity|].
  destruct (BodyReadFails resp); [reflexivity|].
  destruct (decode (Body resp)) as [[|first rest]|]; reflexivity.
Qed.


(** In bounded mode a fetched page decides whether the loop is left. *)
Lemma pageLoop_bounded sd fuel cursor all w page w1 :
  startDate = Some sd ->
  fetchPage cursor w = Some (Page page, w1) ->
  (page = [] \/ Z.of_nat (length page) < limit
   \/ String.leb (nextCursor page) sd = true ->
   loop (S fuel) cursor all w = Some (inr (all ++ page), w1))
  /\ (~ (page = [] \/ Z.of_nat (length page) < limit
         \/ String.leb (nextCursor page) sd = true) ->
      loop (S fuel) cursor all w = loop fuel (nextCursor page) (all ++ page) w1).
Proof.
  intros Hsd Hf. rewrite pageLoop_step, Hf, Hsd.
  destruct page as [|first rest]; cbn [orb].
  - split; [by rewrite app_nil_r | intros H; exfalso; apply H; by left].
  - destruct (Z.of_nat (length (first :: rest)) <? limit) eqn:Hlen.
    + apply Z.ltb_lt in Hlen.
      split; [done | intros H; exfalso; apply H; right; by left].
    + apply Z.ltb_ge in Hlen.
      destruct (String.leb (nextCursor (first :: rest)) sd) eqn:Hleb.
      * split; [done | intros H; exfalso; apply H; right; by right].
      * split; [|done]. intros [H | [H | H]]; [discriminate | exfalso; lia | congruence].
Qed.

(** In unbounded mode the first iteration is the last. *)
Lemma pageLoop_unbounded fuel cursor all w :
  startDate = None ->
  loop (S fuel) cursor all w
  = match fetchPage cursor w with
    | None => None
    | Some (Failed e, w1) => Some (inl e, w1)
    | Some (Page page, w1) => Some (inr (all ++ page), w1)
    end.
Proof.
  intros Hsd. rewrite pageLoop_step, Hsd.
  destruct (fetchPage cursor w) as [[[e|[|first rest]] w1]|]; cbn [orb];
    [done | by rewrite app_nil_r | done | done].
Qed.
End Loop.

(** ** Dates and their order *)

Definition isDigit (c : ascii) : bool :=
  let n := nat_of_ascii c in ((48 <=? n) && (n <=? 57))%nat.

(** A calendar day in the layout "2006-01-02". *)
Definition isDate (s : string) : bool :=
  match s with
  | String y1 (String y2 (String y3 (String y4 (String h1 (String m1 (String m2
      (String h2 (String d1 (String d2 EmptyString))))))))) =>
      isDigit y1 && isDigit y2 && isDigit y3 && isDigit y4 && Ascii.eqb h1 "-"
      && isDigit m1 && isDigit m2 && Ascii.eqb h2 "-" && isDigit d1 && isDigit d2
  | _ => false
  end.

Lemma isDate_length s : isDate s = true -> String.length s = 10%nat.
Proof.
  do 10 (destruct s as [|? s]; [discriminate|]).
  destruct s; [reflexivity | discriminate].
Qed.

(** A string read as a number in base 256: for strings of one length the
    order of the numbers is the order [<] of Go strings. *)
Fixpoint strVal (s : string) : Z :=
  match s with
  | EmptyString => 0
  | String c rest =>
      Z.of_N (N_of_ascii c) * 256 ^ Z.of_nat (String.length rest) + strVal rest
  end.

Lemma strVal_bound s : 0 <= strVal s < 256 ^ Z.of_nat (String.length s).
Proof.
  induction s as [|c rest IH]; cbn [strVal String.length]; [lia|].
  pose proof (N_ascii_bounded c) as Hc.
  rewrite Nat2Z.inj_succ, Z.pow_succ_r by lia.
  assert (0 < 256 ^ Z.of_nat (String.length rest)) by (apply Z.pow_pos_nonneg; lia).
  nia.
Qed.

Lemma ltb_strVal a : forall b,
  String.length a = String.length b ->
  String.ltb a b = true -> strVal a < strVal b.
Proof.
  induction a as [|c1 r1 IH]; intros [|c2 r2] Hlen Hlt; try discriminate.
  cbn [String.length] in Hlen. injection Hlen as Hlen.
  unfold String.ltb in Hlt. cbn [String.compare] in Hlt.
  cbn [strVal]. rewrite Hlen.
  pose proof (strVal_bound r1) as B1. pose proof (strVal_bound r2) as B2.
  rewrite Hlen in B1.
  destruct (Ascii.compare c1 c2) eqn:Hc.
  - apply Ascii.compare_eq_iff in Hc. subst c2.
    assert (strVal r1 < strVal r2); [|lia].
    apply IH; [done|]. unfold String.ltb. exact Hlt.
  - unfold Ascii.compare in Hc. rewrite N.compare_lt_iff in Hc.
    assert (Hstep : Z.of_N (N_of_ascii c1) + 1 <= Z.of_N (N_of_ascii c2)) by lia.
    set (P := 256 ^ Z.of_nat (String.length r2)) in *.
    assert ((Z.of_N (N_of_ascii c1) + 1) * P <= Z.of_N (N_of_ascii c2) * P)
      by (apply Z.mul_le_mono_nonneg_r; lia).
    lia.
  - discriminate.
Qed.

(** ** Termination in bounded mode *)

Section Termination.
Variable E : Env.
Variable T : Type.
Variable dateOf : T -> string.
Variable decode : string -> option (list T).
Variable what : string.
Variable pageURL : string -> string.
Variables (ticker : string) (startDate : option string) (limit : Z)
          (headers : gmap string string).

Local Abbreviation loop :=
  (pageLoop E T dateOf decode what pageURL ticker startDate limit headers).
Local Abbreviation fetch :=
  (fetchPage E T decode what pageURL ticker headers).

(** Every page the service returns has a well-formed oldest day, and that
    day is strictly older than the cursor the page was asked for. *)
Definition OlderPages : Prop :=
  forall cursor w page w1,
    fetch cursor w = Some (Page page, w1) -> page <> [] ->
    isDate (nextCursor T dateOf page) = true
    /\ String.ltb (nextCursor T dateOf page) cursor = true.

Lemma pageLoop_from_date :
  OlderPages ->
  forall fuel cursor all w,
    isDate cursor = true -> strVal cursor < Z.of_nat fuel ->
    exists res w', loop fuel cursor all w = Some (res, w').
Proof.
  intros Holder. induction fuel as [|fuel IH]; intros cursor all w Hdate Hval.
  - pose proof (strVal_bound cursor). lia.
  - rewrite pageLoop_step.
    destruct (fetchPage_total E T decode what pageURL ticker headers cursor w)
      as (f & w1 & Hf).
    rewrite Hf. destruct f as [e|[|first rest]]; [eauto | eauto |].
    destruct (_ || _); [eauto|].
    destruct (Holder cursor w (first :: rest) w1 Hf ltac:(discriminate)) as [Hd Hlt].
    assert (Hless : strVal (nextCursor T dateOf (first :: rest)) < Z.of_nat fuel).
    { apply ltb_strVal in Hlt; [lia|].
      by rewrite (isDate_length _ Hd), (isDate_length _ Hdate). }
    destruct startDate as [sd|].
    + destruct (String.leb _ sd); [eauto|]. by apply IH.
    + by apply IH.
Qed.

(** From any cursor: one iteration, then at most one per well-formed
    day. *)
Lemma pageLoop_enough_fuel :
  OlderPages ->
  forall n cursor all w,
    256 ^ 10 <= Z.of_nat n ->
    exists res w', loop (S n) cursor all w = Some (res, w').
Proof.
  intros Holder n cursor all w Hn. rewrite pageLoop_step.
  destruct (fetchPage_total E T decode what pageURL ticker headers cursor w)
    as (f & w1 & Hf).
  rewrite Hf. destruct f as [e|[|first rest]]; [eauto | eauto |].
  destruct (_ || _); [eauto|].
  destruct (Holder cursor w (first :: rest) w1 Hf ltac:(discriminate)) as [Hd Hlt].
  assert (Hless : strVal (nextCursor T dateOf (first :: rest)) < Z.of_nat n).
  { pose proof (strVal_bound (nextCursor T dateOf (first :: rest))) as B.
    rewrite (isDate_length _ Hd) in B.
    change (Z.of_nat 10) with 10 in B.
    destruct B as [_ B]. exact (Z.lt_le_trans _ _ _ B Hn). }
  destruct (pageLoop_from_date Holder n (nextCursor T dateOf (first :: rest))
              (all ++ first :: rest) w1 Hd Hless) as (res & w' & Hres).
  rewrite Hres.
  destruct startDate as [sd|]; [destruct (String.leb _ sd)|]; eauto.
Qed.

Lemma pageLoop_empty_page fuel cursor all w w1 :
  fetch cursor w = Some (Page [], w1) ->
  loop (S fuel) cursor all w = Some (inr all, w1).
Proof. intros Hf. by rewrite pageLoop_step, Hf. Qed.
End Termination.

(** ** The cursor *)

Lemma ltb_leb a b : String.ltb a b = true -> String.leb a b = true.
Proof.
  unfold String.ltb, String.leb. by destruct (String.compare a b).
Qed.

Lemma ltb_false_leb a b : String.ltb a b = false -> String.leb b a = true.
Proof.
  unfold String.ltb, String.leb. rewrite (String.compare_antisym a b).
  by destruct (String.compare b a).
Qed.

Lemma leb_refl a : String.leb a a = true.
Proof.
  destruct (String.leb_total a a) as [H | H]; exact H.
Qed.

Lemma leb_trans a b c :
  String.leb a b = true -> String.leb b c = true -> String.leb a c = true.
Proof.
  intros Hab Hbc. apply Is_true_true.
  apply (transitivity (R := String.le) (y := b)); by apply Is_true_true.
Qed.

(** The fold of lines 417-422 (510-515) finds a least date of the page. *)
Lemma minDateOf_least {T} (dateOf : T -> string) (page : list T) : forall m0,
  let m := fold_left (fun minDate t =>
                        if String.ltb (dateOf t) minDate then dateOf t else minDate)
                     page m0 in
  String.leb m m0 = true
  /\ Forall (fun t => String.leb m (dateOf t) = true) page
  /\ (m = m0 \/ In m (map dateOf page)).
Proof.
  induction page as [|t rest IH]; intros m0; cbn [fold_left map].
  - split; [apply leb_refl|]. split; [constructor | by left].
  - set (m1 := if String.ltb (dateOf t) m0 then dateOf t else m0).
    destruct (IH m1) as (Hle & Hall & Hin).
    assert (H1 : String.leb m1 m0 = true /\ String.leb m1 (dateOf t) = true).
    { unfold m1. destruct (String.ltb (dateOf t) m0) eqn:Hlt.
      - split; [by apply ltb_leb | apply leb_refl].
      - split; [apply leb_refl | by apply ltb_false_leb]. }
    destruct H1 as [H10 H1t]. split; [by eapply leb_trans|].
    split; [constructor; [by eapply leb_trans | exact Hall]|].
    destruct Hin as [Hin | Hin]; [|right; by right].
    rewrite Hin. unfold m1. destruct (String.ltb (dateOf t) m0); [right|]; by left.
Qed.

(** [strings.Split(d, "T")[0]] is the part of [d] before its first "T". *)
Lemma strings_Split_0_prefix d :
  exists tail,
    d = strings_Split_0 d "T" +:+ tail
    /\ strings_Contains (strings_Split_0 d "T") "T" = false
    /\ (tail = ""%string /\ strings_Contains d "T" = false
        \/ exists r, tail = String "T" r).
Proof.
  induction d as [|c d IH]; cbn [strings_Split_0 strings_Contains].
  - exists ""%string. split; [reflexivity|]. split; [reflexivity | by left].
  - destruct (Ascii.eqb_spec c "T") as [->|Hne].
    + exists (String "T" d). split; [reflexivity|]. split; [reflexivity|].
      right. by exists d.
    + destruct IH as (tail & Hd & Hno & Htail). exists tail.
      cbn [strings_Contains].
      replace (Ascii.eqb c "T") with false by (symmetry; by apply Ascii.eqb_neq).
      cbn [orb]. split.
      * change (String c d = String c (strings_Split_0 d "T" +:+ tail)).
        by rewrite <- Hd.
      * split; [exact Hno|]. destruct Htail as [[-> Hc] | Hr]; [left | by right].
        split; [reflexivity | exact Hc].
Qed.

(** The cursor of a non-empty page is the day part of a least date of the
    page: a date [d] of the page, not after any other, cut before its
    first "T". *)
Definition CursorIsOldestDay {T : Type} (dateOf : T -> string) : Prop :=
  forall first rest,
    exists d tail,
      In d (map dateOf (first :: rest))
      /\ Forall (fun t => String.leb d (dateOf t) = true) (first :: rest)
      /\ d = nextCursor T dateOf (first :: rest) +:+ tail
      /\ strings_Contains (nextCursor T dateOf (first :: rest)) "T" = false
      /\ (tail = ""%string \/ exists r, tail = String "T" r).

Lemma cursor_is_oldest_day {T} (dateOf : T -> string) : CursorIsOldestDay dateOf.
Proof.
  intros first rest. cbn [nextCursor]. unfold minDateOf.
  destruct (minDateOf_least dateOf (first :: rest) (dateOf first))
    as (_ & Hall & Hin).
  set (d := fold_left _ (first :: rest) (dateOf first)) in *.
  destruct (strings_Split_0_prefix d) as (tail & Hd & Hno & Htail).
  unfold stripTime. destruct (strings_Contains d "T") eqn:Hc.
  - exists d, tail. split; [destruct Hin as [-> | Hin]; [by left | exact Hin]|].
    split; [exact Hall|]. split; [exact Hd|]. split; [exact Hno|].
    destruct Htail as [[_ Hf] | Hr]; [congruence | by right].
  - exists d, ""%string. split; [destruct Hin as [-> | Hin]; [by left | exact Hin]|].
    split; [exact Hall|]. split.
    + clear. induction d as [|c d IH]; [reflexivity|].
      change (String c d = String c (d +:+ "")). by rewrite <- IH.
    + split; [exact Hc | by left].
Qed.

(** ** The two aggregators *)

Lemma append_assoc (a b c : string) : (a +:+ b) +:+ c = a +:+ (b +:+ c).
Proof.
  induction a as [|x a IH]; [reflexivity|].
  change (String x ((a +:+ b) +:+ c) = String x (a +:+ (b +:+ c))).
  f_equal. exact IH.
Qed.

Lemma length_append (a b : string) :
  String.length (a +:+ b) = (String.length a + String.length b)%nat.
Proof.
  induction a as [|x a IH]; [reflexivity|].
  change (S (String.length (a +:+ b)) = S (String.length a + String.length b)).
  f_equal. exact IH.
Qed.

Lemma append_inj_r (s a : string) : forall b, a +:+ s = b +:+ s -> a = b.
Proof.
  induction a as [|x a IH]; intros [|y b] H.
  - reflexivity.
  - apply (f_equal String.length) in H.
    change (String.length s = S (String.length (b +:+ s))) in H.
    rewrite length_append in H. lia.
  - apply (f_equal String.length) in H.
    change (S (String.length (a +:+ s)) = String.length s) in H.
    rewrite length_append in H. lia.
  - change (String x (a +:+ s) = String y (b +:+ s)) in H.
    injection H as -> H. f_equal. by apply IH.
Qed.

(** One page request of [GetInsiderTrades] and of [GetCompanyNews]. *)
Definition tradesFetch (E : Env) (ticker : string) (startDate : option string)
           (limit : Z) (apiKey : list string)
  : string -> World -> option (Fetched InsiderTrade * World) :=
  fetchPage E InsiderTrade (decodeInsiderTrades E) "内部交易"
            (tradesURL E ticker startDate limit) ticker (apiHeaders E apiKey).

Definition newsFetch (E : Env) (ticker : string) (startDate : option string)
           (limit : Z) (apiKey : list string)
  : string -> World -> option (Fetched CompanyNews * World) :=
  fetchPage E CompanyNews (decodeCompanyNews E) "公司新闻"
            (newsURL E ticker startDate limit) ticker (apiHeaders E apiKey).

(** The URL of a page request when a start date is supplied. *)
Lemma tradesURL_bounded E ticker sd limit cursor :
  tradesURL E ticker (Some sd) limit cursor
  = "https://api.financialdatasets.ai/insider-trades/?ticker=" +:+ ticker
    +:+ "&filing_date_lte=" +:+ cursor +:+ "&filing_date_gte=none"
    +:+ "&limit=" +:+ itoa (defaultLimit limit 1000).
Proof.
  unfold tradesURL, tradesStartDateStr. cbv beta zeta iota.
  rewrite !append_assoc. reflexivity.
Qed.


(** The stop rule of bounded mode, for a loop, its page request and its
    date field: once a page has been fetched, the loop is left (with the
    page appended and no further request) when the page is empty, or
    shorter than [limit], or its cursor is at or before the start date;
    otherwise the loop goes round again from that cursor. *)
Definition StopsExactlyWhen {T : Type} (dateOf : T -> string)
           (fetch : string -> World -> option (Fetched T * World))
           (loop : nat -> string -> list T -> World
                   -> option (Result (list T) * World))
           (startDate : string) (limit : Z) : Prop :=
  forall fuel cursor all w page w1,
    fetch cursor w = Some (Page page, w1) ->
    (page = [] \/ Z.of_nat (length page) < limit
     \/ String.leb (nextCursor T dateOf page) startDate = true ->
     loop (S fuel) cursor all w = Some (inr (all ++ page), w1))
    /\ (~ (page = [] \/ Z.of_nat (length page) < limit
           \/ String.leb (nextCursor T dateOf page) startDate = true) ->
        loop (S fuel) cursor all w
        = loop fuel (nextCursor T dateOf page) (all ++ page) w1).

(** Unbounded mode: the call is one page request, and its page is the
    result. *)
Definition SinglePage {T : Type} (fetch : World -> option (Fetched T * World))
           (call : nat -> World -> option (Result (list T) * World)) : Prop :=
  forall fuel w,
    call (S fuel) w
    = match fetch w with
      | None => None
      | Some (Failed e, w1) => Some (inl e, w1)
      | Some (Page page, w1) => Some (inr page, w1)
      end.

(** ** Scenarios *)

Definition envDecoding (srv : list Request -> Request -> Outcome)
           (trades : string -> option (list InsiderTrade))
           (news : string -> option (list CompanyNews)) : Env :=
  mkEnv srv (fun _ => true) (fun _ => Some "{}"%string) (fun k => k)
        (fun _ => ""%string) (fun _ => None) trades news
        (fun _ => None) (fun _ => "2025-09-25"%string).

Definition filing (date : string) : InsiderTrade :=
  mkInsiderTrade "AAPL" None None None None None None None None None None None date.

(** The insider-trades URL of the walk below, for a cursor. *)
Definition walkURL (cursor : string) : string :=
  "https://api.financialdatasets.ai/insider-trades/?ticker=AAPL&filing_date_lte="
  +:+ cursor +:+ "&filing_date_gte=none&limit=2".

(** A service holding four filings, paged two at a time: it answers with
    the request's URL and the decoder maps each URL to its page. *)
Definition walkPages (body : string) : option (list InsiderTrade) :=
  if String.eqb body (walkURL "2024-03-10")
  then Some [filing "2024-03-07"; filing "2024-03-05T16:30:00"]
  else if String.eqb body (walkURL "2024-03-05")
  then Some [filing "2024-03-01"; filing "2024-02-28"]
  else Some [].

Definition walkEnv : Env :=
  envDecoding (fun _ req => Reply (mkResponse 200 (URL req) false))
              walkPages (fun _ => None).

Lemma walkURL_tradesURL cursor :
  tradesURL walkEnv "AAPL" (Some "2024-01-01"%string) 2 cursor = walkURL cursor.
Proof. rewrite tradesURL_bounded. reflexivity. Qed.

Lemma walkURL_inj a b : walkURL a = walkURL b -> a = b.
Proof.
  unfold walkURL. intros H.
  apply String.app_inj in H. by apply append_inj_r in H.
Qed.

Lemma walk_fetch cursor w :
  tradesFetch walkEnv "AAPL" (Some "2024-01-01"%string) 2 [] cursor w
  = match walkPages (walkURL cursor) with
    | Some page =>
        Some (Page page,
              mkWorld (requests w ++ [getRequest (walkURL cursor)]) (sleeps w) (stdout w))
    | None =>
        Some (Failed (ErrDecode "内部交易"),
              mkWorld (requests w ++ [getRequest (walkURL cursor)]) (sleeps w) (stdout w))
    end.
Proof.
  unfold tradesFetch, fetchPage. rewrite walkURL_tradesURL.
  rewrite (makeAPIRequest_run walkEnv (walkURL cursor) (apiHeaders walkEnv [])
             "GET" None 3 (getRequest (walkURL cursor)) eq_refl 0%nat w
             (Reply (mkResponse 200 (walkURL cursor) false)));
    [| lia | unfold maxInt64; lia | intros i Hi; lia | reflexivity
     | left; cbn; lia].
  cbn [resultOf StatusCode Body BodyReadFails Z.eqb Pos.eqb negb
       decodeInsiderTrades walkEnv envDecoding].
  destruct (walkPages (walkURL cursor)); cbn; by rewrite !app_nil_r.
Qed.

Lemma walk_older :
  OlderPages walkEnv InsiderTrade FilingDate (decodeInsiderTrades walkEnv) "内部交易"
             (tradesURL walkEnv "AAPL" (Some "2024-01-01"%string) 2) "AAPL"
             (apiHeaders walkEnv []).
Proof.
  intros cursor w page w1 Hf Hne.
  change (tradesFetch walkEnv "AAPL" (Some "2024-01-01"%string) 2 [] cursor w
          = Some (Page page, w1)) in Hf.
  rewrite walk_fetch in Hf. unfold walkPages in Hf.
  destruct (String.eqb_spec (walkURL cursor) (walkURL "2024-03-10")) as [H1|_].
  { apply walkURL_inj in H1. subst cursor. inversion Hf; subst page.
    split; vm_compute; reflexivity. }
  destruct (String.eqb_spec (walkURL cursor) (walkURL "2024-03-05")) as [H2|_].
  { apply walkURL_inj in H2. subst cursor. inversion Hf; subst page.
    split; vm_compute; reflexivity. }
  inversion Hf; subst page. by destruct Hne.
Qed.


(** ** The claims *)

(** C7: in bounded mode (a start date is supplied) the loops of
    [GetInsiderTrades] and [GetCompanyNews] stop exactly when the fetched
    page is empty, or has fewer than [limit] records, or its cursor (the
    oldest date of the page, time of day stripped) is at or before the
    start date, and otherwise go on from that cursor; in unbounded mode
    (no start date) a call issues one page request and returns that page
    as it is, whatever its size.  [limit] is the value the functions use
    after defaulting 0 to 1000. *)
Theorem pagination_stop_rule E ticker endDate limit apiKey :
  (forall sd,
     StopsExactlyWhen FilingDate
       (tradesFetch E ticker (Some sd) limit apiKey)
       (tradesLoop E ticker (Some sd) limit apiKey)
       sd (defaultLimit limit 1000))
  /\ (forall sd,
        StopsExactlyWhen DateTime
          (newsFetch E ticker (Some sd) limit apiKey)
          (newsLoop E ticker (Some sd) limit apiKey)
          sd (defaultLimit limit 1000))
  /\ SinglePage (tradesFetch E ticker None limit apiKey endDate)
                (GetInsiderTrades E ticker endDate None limit apiKey)
  /\ SinglePage (newsFetch E ticker None limit apiKey endDate)
                (GetCompanyNews E ticker endDate None limit apiKey)
  /\ CursorIsOldestDay FilingDate
  /\ CursorIsOldestDay DateTime.
Proof.
  split; [|split; [|split; [|split; [|split; apply cursor_is_oldest_day]]]];
    repeat split.
  - intros Hstop. eapply pageLoop_bounded; [reflexivity | exact H | exact Hstop].
  - intros Hgo. eapply pageLoop_bounded; [reflexivity | exact H | exact Hgo].
  - intros Hstop. eapply pageLoop_bounded; [reflexivity | exact H | exact Hstop].
  - intros Hgo. eapply pageLoop_bounded; [reflexivity | exact H | exact Hgo].
  - intros fuel w. unfold GetInsiderTrades, tradesLoop, tradesFetch.
    rewrite pageLoop_unbounded by reflexivity.
    destruct (fetchPage _ _ _ _ _ _ _ _ _) as [[[e|[|first rest]] w1]|]; reflexivity.
  - intros fuel w. unfold GetCompanyNews, newsLoop, newsFetch.
    rewrite pageLoop_unbounded by reflexivity.
    destruct (fetchPage _ _ _ _ _ _ _ _ _) as [[[e|[|first rest]] w1]|]; reflexivity.
Qed.

Lemma pagination_stop_rule_witness :
  tradesLoop walkEnv "AAPL" (Some "2024-03-01"%string) 2 [] 1 "2024-03-05"
             [filing "2024-03-07"; filing "2024-03-05T16:30:00"]
             (mkWorld [getRequest (walkURL "2024-03-10")] [] [])
  = Some (inr ([filing "2024-03-07"; filing "2024-03-05T16:30:00"]
               ++ [filing "2024-03-01"; filing "2024-02-28"]),
          mkWorld [getRequest (walkURL "2024-03-10");
                   getRequest (walkURL "2024-03-05")] [] []).
Proof.
  destruct (pagination_stop_rule walkEnv "AAPL" "2024-03-10" 2 []) as [Hrule _].
  apply (Hrule "2024-03-01"%string 0%nat "2024-03-05"%string
               [filing "2024-03-07"; filing "2024-03-05T16:30:00"]
               (mkWorld [getRequest (walkURL "2024-03-10")] [] [])
               [filing "2024-03-01"; filing "2024-02-28"]
               (mkWorld [getRequest (walkURL "2024-03-10");
                         getRequest (walkURL "2024-03-05")] [] [])).
  - vm_compute. reflexivity.
  - right. right. vm_compute. reflexivity.
Defined.

(** C8: a bounded-mode call of [GetInsiderTrades] or [GetCompanyNews]
    returns after finitely many page requests whenever every page the
    service returns has an oldest day strictly older than the cursor it
    was asked for; and an empty page ends the loop at once, that page
    request being the last.  Dates are calendar days in the layout
    "2006-01-02", compared as Go compares strings. *)
Theorem pagination_terminates E ticker endDate sd limit apiKey w :
  (OlderPages E InsiderTrade FilingDate (decodeInsiderTrades E) "内部交易"
              (tradesURL E ticker (Some sd) limit) ticker (apiHeaders E apiKey) ->
   exists fuel res w',
     GetInsiderTrades E ticker endDate (Some sd) limit apiKey fuel w = Some (res, w'))
  /\ (OlderPages E CompanyNews DateTime (decodeCompanyNews E) "公司新闻"
                 (newsURL E ticker (Some sd) limit) ticker (apiHeaders E apiKey) ->
      exists fuel res w',
        GetCompanyNews E ticker endDate (Some sd) limit apiKey fuel w = Some (res, w'))
  /\ (forall fuel cursor all w0 w1,
        tradesFetch E ticker (Some sd) limit apiKey cursor w0 = Some (Page [], w1) ->
        tradesLoop E ticker (Some sd) limit apiKey (S fuel) cursor all w0
        = Some (inr all, w1))
  /\ (forall fuel cursor all w0 w1,
        newsFetch E ticker (Some sd) limit apiKey cursor w0 = Some (Page [], w1) ->
        newsLoop E ticker (Some sd) limit apiKey (S fuel) cursor all w0
        = Some (inr all, w1)).
Proof.
  assert (Hn : 256 ^ 10 <= Z.of_nat (Z.to_nat (256 ^ 10))).
  { rewrite Z2Nat.id; [apply Z.le_refl | apply Z.pow_nonneg; lia]. }
  split; [|split; [|split]].
  - intros Holder.
    destruct (pageLoop_enough_fuel _ _ _ _ _ _ _ (Some sd) (defaultLimit limit 1000) _
                Holder (Z.to_nat (256 ^ 10)) endDate [] w Hn) as (res & w' & Hrun).
    exists (S (Z.to_nat (256 ^ 10))).
    unfold GetInsiderTrades, tradesLoop. rewrite Hrun.
    destruct res as [e|all]; cbn [finish]; eauto.
  - intros Holder.
    destruct (pageLoop_enough_fuel _ _ _ _ _ _ _ (Some sd) (defaultLimit limit 1000) _
                Holder (Z.to_nat (256 ^ 10)) endDate [] w Hn) as (res & w' & Hrun).
    exists (S (Z.to_nat (256 ^ 10))).
    unfold GetCompanyNews, newsLoop. rewrite Hrun.
    destruct res as [e|all]; cbn [finish]; eauto.
  - intros fuel cursor all w0 w1 Hf. by apply pageLoop_empty_page.
  - intros fuel cursor all w0 w1 Hf. by apply pageLoop_empty_page.
Qed.

Lemma pagination_terminates_witness :
  exists fuel res w',
    GetInsiderTrades walkEnv "AAPL" "2024-03-10" (Some "2024-01-01"%string) 2 []
                     fuel emptyWorld
    = Some (res, w').
Proof.
  apply (pagination_terminates walkEnv "AAPL" "2024-03-10" "2024-01-01" 2 []
                               emptyWorld).
  exact walk_older.
Defined.



End PaginateFacts.

(* ================================================================== *)
(** * Properties of the line-item decoder *)

Module LineItemFacts.
Import LineItemJSON.

(** The value an object gives a key: that of its last member with the
    key, starting from [acc]. *)
Fixpoint lastFrom (acc : option json) (key : string) (members : list (string * json))
  : option json :=
  match members with
  | [] => acc
  | kv :: rest =>
      lastFrom (if String.eqb (fst kv) key then Some (snd kv) else acc) key rest
  end.

Definition lastValue (key : string) (members : list (string * json)) : option json :=
  lastFrom None key members.

Lemma lastFrom_acc key members : forall acc,
  lastFrom acc key members
  = match lastValue key members with
    | Some v => Some v
    | None => acc
    end.
Proof.
  unfold lastValue. induction members as [|kv rest IH]; intros acc; [reflexivity|].
  cbn [lastFrom]. rewrite (IH (if String.eqb (fst kv) key then _ else _)).
  rewrite (IH (if String.eqb (fst kv) key then Some (snd kv) else None)).
  destruct (lastFrom None key rest); [reflexivity|].
  by destruct (String.eqb (fst kv) key).
Qed.

Lemma lastValue_cons key kv rest :
  lastValue key (kv :: rest)
  = match lastValue key rest with
    | Some v => Some v
    | None => if String.eqb (fst kv) key then Some (snd kv) else None
    end.
Proof. unfold lastValue at 1. cbn [lastFrom]. apply lastFrom_acc. Qed.

Lemma lastValue_In key members v :
  lastValue key members = Some v -> In (key, v) members.
Proof.
  induction members as [|kv rest IH]; [discriminate|].
  rewrite lastValue_cons. destruct (lastValue key rest) as [v'|].
  - intros H. right. apply IH. exact H.
  - destruct (String.eqb_spec (fst kv) key) as [<-|_]; [|discriminate].
    intros H. injection H as <-. left. by destruct kv.
Qed.

(** ** The generic map *)

Lemma raw_lookup members : forall (m0 : gmap string any) key,
  fold_left (fun m kv => <[fst kv := toAny (snd kv)]> m) members m0 !! key
  = match lastValue key members with
    | Some v => Some (toAny v)
    | None => m0 !! key
    end.
Proof.
  induction members as [|kv rest IH]; intros m0 key; [reflexivity|].
  cbn [fold_left]. rewrite IH, lastValue_cons.
  destruct (lastValue key rest); [reflexivity|].
  destruct (String.eqb_spec (fst kv) key) as [->|Hne].
  - by rewrite lookup_insert_eq.
  - by rewrite lookup_insert_ne.
Qed.

(** ** The fixed fields *)

Definition getField (f : Field) (li : LineItem) : string :=
  match f with
  | FTicker => Ticker li
  | FReportPeriod => ReportPeriod li
  | FPeriod => Period li
  | FCurrency => Currency li
  end.

Lemma getField_setField f g s li :
  getField f (setField g s li) = if String.eqb (tagName g) (tagName f) then s
                                 else getField f li.
Proof. destruct f, g; reflexivity. Qed.

Lemma fieldFor_tagName f : fieldFor (tagName f) = Some f.
Proof. destruct f; reflexivity. Qed.

(** A line-item payload: an object in which the members the decoder
    binds to a fixed field are called by that field's own name and hold
    a string. *)
Definition LineItemPayload (members : list (string * json)) : Prop :=
  forall kv f, In kv members -> fieldFor (fst kv) = Some f ->
               fst kv = tagName f /\ exists s, snd kv = JString s.

(** The string a payload gives a fixed field, [dflt] when it has none. *)
Definition fieldValue (f : Field) (members : list (string * json)) (dflt : string)
  : string :=
  match lastValue (tagName f) members with
  | Some (JString s) => s
  | _ => dflt
  end.

Lemma payload_string members f v :
  LineItemPayload members -> lastValue (tagName f) members = Some v ->
  exists s, v = JString s.
Proof.
  intros Hpay Hv. apply lastValue_In in Hv.
  destruct (Hpay _ f Hv (fieldFor_tagName f)) as [_ Hs]. exact Hs.
Qed.

Lemma alias_fields members : forall li,
  LineItemPayload members ->
  exists li',
    fold_left decodeMember members (li, None) = (li', None)
    /\ forall f, getField f li' = fieldValue f members (getField f li).
Proof.
  induction members as [|kv rest IH]; intros li Hpay.
  - exists li. split; [reflexivity|]. intros f. reflexivity.
  - assert (Hrest : LineItemPayload rest).
    { intros kv' f Hin. apply Hpay. by right. }
    cbn [fold_left]. unfold decodeMember at 2. cbn [fst snd].
    destruct (fieldFor (fst kv)) as [g|] eqn:Hg.
    + destruct (Hpay kv g (or_introl eq_refl) Hg) as [Hname [s Hs]].
      rewrite Hs.
      destruct (IH (setField g s li) Hrest) as (li' & Hrun & Hfields).
      exists li'. split; [exact Hrun|]. intros f.
      rewrite Hfields, getField_setField.
      unfold fieldValue. rewrite lastValue_cons, Hname, Hs.
      destruct (lastValue (tagName f) rest) as [v|] eqn:Hv.
      * destruct (payload_string rest f v Hrest Hv) as [s' ->]. reflexivity.
      * by destruct (String.eqb (tagName g) (tagName f)).
    + destruct (IH li Hrest) as (li' & Hrun & Hfields).
      exists li'. split; [exact Hrun|]. intros f.
      rewrite Hfields. unfold fieldValue. rewrite lastValue_cons.
      destruct (String.eqb_spec (fst kv) (tagName f)) as [Heq|_].
      { rewrite Heq, fieldFor_tagName in Hg. discriminate. }
      by destruct (lastValue (tagName f) rest).
Qed.

(** ** The keys removed from the generic map *)

Definition fixedKeys : list string :=
  ["ticker"; "report_period"; "period"; "currency"]%string.

Lemma deleted_fixed (m : gmap string any) key :
  In key fixedKeys ->
  delete "currency"%string
         (delete "period"%string
                 (delete "report_period"%string (delete "ticker"%string m))) !! key
  = None.
Proof.
  intros [<- | [<- | [<- | [<- | []]]]].
  - rewrite !lookup_delete_ne by discriminate. apply lookup_delete_eq.
  - rewrite !lookup_delete_ne by discriminate. apply lookup_delete_eq.
  - rewrite !lookup_delete_ne by discriminate. apply lookup_delete_eq.
  - apply lookup_delete_eq.
Qed.

Lemma deleted_other (m : gmap string any) key :
  ~ In key fixedKeys ->
  delete "currency"%string
         (delete "period"%string
                 (delete "report_period"%string (delete "ticker"%string m))) !! key
  = m !! key.
Proof.
  intros Hnot. rewrite !lookup_delete_ne; [reflexivity|..];
    intros <-; apply Hnot; cbn; tauto.
Qed.

(** ** Scenario: the payload of the specification *)

Definition examplePayload : json :=
  JObject [("ticker", JString "AAPL"); ("report_period", JString "2024-Q1");
           ("period", JString "q"); ("currency", JString "USD");
           ("revenue", JNumber 1000); ("custom_metric", JNumber 42)]%string.

Definition emptyLineItem : LineItem := mkLineItem "" "" "" "" ∅.

(** ** The claim *)

(** C9 as the specification states it fails, on two payloads that are
    not of that kind.  A key in another case, [{"Ticker":"AAPL",
    "revenue":1000}]: the field [Ticker] is filled although the payload
    has no member named [ticker], and the key stays in [Data] with its
    value.  A number under a fixed key, [{"ticker":123,"revenue":1000}]:
    the call returns an error, no field is filled and [Data] is not set,
    although [revenue] is a remaining key. *)
Lemma UnmarshalJSON_other_payloads :
  UnmarshalJSON (Some (JObject [("Ticker", JString "AAPL");
                                ("revenue", JNumber 1000)]%string))
                emptyLineItem
  = (mkLineItem "AAPL" "" "" ""
                (<["Ticker"%string := AString "AAPL"]>
                   (<["revenue"%string := AFloat 1000]> ∅)),
     None)
  /\ UnmarshalJSON (Some (JObject [("ticker", JNumber 123);
                                   ("revenue", JNumber 1000)]%string))
                   emptyLineItem
     = (emptyLineItem, Some ErrJSON).
Proof. split; vm_compute; reflexivity. Qed.

(** C9 (amended): decoding a line-item payload, an object whose members
    bound to a fixed field are called by the field's own name and hold a
    string and whose numbers all fit float64, returns no error, sets
    each of the four fixed fields from the member of its name (the last
    one if it is repeated; a field whose name is absent keeps its value)
    and sets [Data] to exactly the other keys of the payload with their
    values; the payload of the specification gives the four fields and a
    [Data] map holding just [revenue = 1000] and [custom_metric = 42]. *)
Theorem UnmarshalJSON_lineItem members li :
  LineItemPayload members ->
  numbersFit (JObject members) = true ->
  (exists li',
     UnmarshalJSON (Some (JObject members)) li = (li', None)
     /\ Ticker li' = fieldValue FTicker members (Ticker li)
     /\ ReportPeriod li' = fieldValue FReportPeriod members (ReportPeriod li)
     /\ Period li' = fieldValue FPeriod members (Period li)
     /\ Currency li' = fieldValue FCurrency members (Currency li)
     /\ (forall key, In key fixedKeys -> Data li' !! key = None)
     /\ (forall key, ~ In key fixedKeys ->
                     Data li' !! key = toAny <$> lastValue key members))
  /\ UnmarshalJSON (Some examplePayload) emptyLineItem
     = (mkLineItem "AAPL" "2024-Q1" "q" "USD"
                   (<["revenue"%string := AFloat 1000]>
                      (<["custom_metric"%string := AFloat 42]> ∅)),
        None).
Proof.
  intros Hpay Hfit. split.
  - destruct (alias_fields members li Hpay) as (li1 & Hrun & Hfields).
    unfold UnmarshalJSON, unmarshalAlias, unmarshalRaw. rewrite Hrun, Hfit.
    eexists. split; [reflexivity|]. cbn [Ticker ReportPeriod Period Currency Data].
    split; [exact (Hfields FTicker)|]. split; [exact (Hfields FReportPeriod)|].
    split; [exact (Hfields FPeriod)|]. split; [exact (Hfields FCurrency)|].
    split; intros key Hkey.
    + by apply deleted_fixed.
    + rewrite deleted_other, raw_lookup, lookup_empty by exact Hkey.
      by destruct (lastValue key members).
  - vm_compute. reflexivity.
Qed.

Lemma UnmarshalJSON_lineItem_witness :
  exists li',
    UnmarshalJSON (Some examplePayload) emptyLineItem = (li', None)
    /\ Ticker li' = "AAPL"%string
    /\ Data li' !! "revenue"%string = Some (AFloat 1000)
    /\ Data li' !! "ticker"%string = None.
Proof.
  destruct (UnmarshalJSON_lineItem
              [("ticker", JString "AAPL"); ("report_period", JString "2024-Q1");
               ("period", JString "q"); ("currency", JString "USD");
               ("revenue", JNumber 1000); ("custom_metric", JNumber 42)]%string
              emptyLineItem) as [(li' & Hrun & Ht & _ & _ & _ & Hfix & Hdata) _].
  - intros kv f Hin Hf.
    repeat (destruct Hin as [<- | Hin];
            [vm_compute in Hf;
             first [discriminate
                   | injection Hf as <-; split; [reflexivity | eexists; reflexivity]]|]).
    destruct Hin.
  - vm_compute. reflexivity.
  - exists li'. split; [exact Hrun|]. split; [exact Ht|].
    split.
    + rewrite (Hdata "revenue"%string); [reflexivity|]. unfold fixedKeys.
      intros [H | [H | [H | [H | []]]]]; discriminate H.
    + apply Hfix. by left.
Defined.

End LineItemFacts.

(* ================================================================== *)
(** * More on the retry client *)

Module RetryMore.
Import Retry RetryFacts.

(** ** The request of an attempt *)

Section BuildRequest.
Variable E : Env.
Variables (url : string) (headers : gmap string string) (method : string)
          (jsonData : option (gmap string any)).

(** What the loop over [headers] keeps and what it sets.  Two keys of the
    map with one canonical form would make the outcome depend on the
    order of the iteration; the last clause speaks of the others. *)
Lemma setHeaders (r0 : Request) :
  let r := map_fold (fun k v r => setHeader E k v r) r0 headers in
  Method r = Method r0 /\ URL r = URL r0 /\ ReqBody r = ReqBody r0
  /\ (forall k, (forall k' v, headers !! k' = Some v -> canonicalHeaderKey E k' <> k) ->
                Header r !! k = Header r0 !! k)
  /\ (forall k v, headers !! k = Some v ->
                  (forall k', k' <> k -> is_Some (headers !! k') ->
                              canonicalHeaderKey E k' <> canonicalHeaderKey E k) ->
                  Header r !! canonicalHeaderKey E k = Some v).
Proof.
  cbv zeta.
  apply (map_fold_weak_ind
           (fun r (m : gmap string string) =>
              Method r = Method r0 /\ URL r = URL r0 /\ ReqBody r = ReqBody r0
              /\ (forall k, (forall k' v, m !! k' = Some v -> canonicalHeaderKey E k' <> k) ->
                            Header r !! k = Header r0 !! k)
              /\ (forall k v, m !! k = Some v ->
                              (forall k', k' <> k -> is_Some (m !! k') ->
                                          canonicalHeaderKey E k' <> canonicalHeaderKey E k) ->
                              Header r !! canonicalHeaderKey E k = Some v))).
  - repeat split; try reflexivity. intros k v Hk. by rewrite lookup_empty in Hk.
  - intros i x m r Hi (HM & HU & HB & Hkeep & Hset).
    cbn [setHeader Method URL ReqBody Header].
    split; [exact HM|]. split; [exact HU|]. split; [exact HB|]. split.
    + intros k Hno.
      rewrite lookup_insert_ne by (apply (Hno i x); apply lookup_insert_eq).
      apply Hkeep. intros k' v Hk'. apply (Hno k' v).
      rewrite lookup_insert_ne; [exact Hk'|]. intros <-. congruence.
    + intros k v Hk Huniq.
      destruct (decide (i = k)) as [->|Hne].
      * rewrite lookup_insert_eq in Hk. inversion Hk; subst.
        apply lookup_insert_eq.
      * rewrite lookup_insert_ne in Hk by exact Hne.
        rewrite lookup_insert_ne.
        2:{ apply Huniq; [exact Hne|]. rewrite lookup_insert_eq. by eexists. }
        apply Hset; [exact Hk|]. intros k' Hk' Hsome. apply Huniq; [exact Hk'|].
        rewrite lookup_insert_ne; [exact Hsome|]. intros <-.
        rewrite Hi in Hsome. by destruct Hsome.
Qed.

Lemma newRequest_fields m body r0 :
  newRequest E url m body = Some r0 -> r0 = mkRequest m url ∅ body.
Proof.
  unfold newRequest. destruct (urlParses E url); [|discriminate].
  intros Hr. by inversion Hr.
Qed.
End BuildRequest.

(** X1: the method argument only tells a POST with a body from the rest.
    The request of an attempt is a POST carrying the marshalled body
    exactly when [method] is "POST" and [jsonData] is not nil; every
    other call, whatever [method] says, sends a GET without a body. *)
Theorem buildRequest_method E url headers method jsonData req :
  buildRequest E url headers method jsonData = inr req ->
  URL req = url
  /\ ((method = "POST"%string
       /\ exists data, jsonData = Some data
                       /\ Method req = "POST"%string
                       /\ ReqBody req = json_Marshal E data
                       /\ is_Some (ReqBody req))
      \/ ((method <> "POST"%string \/ jsonData = None)
          /\ Method req = "GET"%string /\ ReqBody req = None)).
Proof.
  unfold buildRequest. intros Hb.
  destruct jsonData as [data|].
  - destruct (String.eqb_spec method "POST") as [->|Hne].
    + destruct (json_Marshal E data) as [body|] eqn:Hm; [|discriminate].
      destruct (newRequest E url "POST" (Some body)) as [r0|] eqn:Hr0; [|discriminate].
      apply newRequest_fields in Hr0. subst r0. inversion Hb; subst req.
      destruct (setHeaders E headers
                  (setHeader E "Content-Type" "application/json"
                             (mkRequest "POST" url ∅ (Some body))))
        as (HM & HU & HB & _).
      split; [by rewrite HU|]. left. split; [reflexivity|]. exists data.
      split; [reflexivity|]. split; [by rewrite HM|].
      rewrite HB, Hm. split; [reflexivity | by eexists].
    + destruct (newRequest E url "GET" None) as [r0|] eqn:Hr0; [|discriminate].
      apply newRequest_fields in Hr0. subst r0. inversion Hb; subst req.
      destruct (setHeaders E headers (mkRequest "GET" url ∅ None))
        as (HM & HU & HB & _).
      split; [by rewrite HU|]. right. split; [by left|].
      split; [by rewrite HM | by rewrite HB].
  - destruct (newRequest E url "GET" None) as [r0|] eqn:Hr0; [|discriminate].
    apply newRequest_fields in Hr0. subst r0. inversion Hb; subst req.
    destruct (setHeaders E headers (mkRequest "GET" url ∅ None))
      as (HM & HU & HB & _).
    split; [by rewrite HU|]. right. split; [by right|].
    split; [by rewrite HM | by rewrite HB].
Qed.

Lemma buildRequest_method_witness :
  URL (mkRequest "GET" "u" ∅ None) = "u"%string
  /\ (("DELETE"%string = "POST"%string
       /\ exists data, @None (gmap string any) = Some data
                       /\ Method (mkRequest "GET" "u" ∅ None) = "POST"%string
                       /\ ReqBody (mkRequest "GET" "u" ∅ None)
                          = json_Marshal always429 data
                       /\ is_Some (ReqBody (mkRequest "GET" "u" ∅ None)))
      \/ (("DELETE"%string <> "POST"%string \/ @None (gmap string any) = None)
          /\ Method (mkRequest "GET" "u" ∅ None) = "GET"%string
          /\ ReqBody (mkRequest "GET" "u" ∅ None) = None)).
Proof.
  apply (buildRequest_method always429 "u" ∅ "DELETE" None (mkRequest "GET" "u" ∅ None)).
  reflexivity.
Defined.

(** X2: the headers of an attempt.  A header of the [headers] map
    arrives under its canonical name when no other key of the map has
    that canonical name; a POST carries "Content-Type: application/json"
    unless a key of the map claims that name; nothing else is sent. *)
Theorem buildRequest_headers E url headers method jsonData req :
  buildRequest E url headers method jsonData = inr req ->
  (forall k v, headers !! k = Some v ->
               (forall k', k' <> k -> is_Some (headers !! k') ->
                           canonicalHeaderKey E k' <> canonicalHeaderKey E k) ->
               Header req !! canonicalHeaderKey E k = Some v)
  /\ (forall k, (forall k' v, headers !! k' = Some v -> canonicalHeaderKey E k' <> k) ->
                Header req !! k
                = if String.eqb (Method req) "POST"
                     && String.eqb k (canonicalHeaderKey E "Content-Type")
                  then Some "application/json"%string else None).
Proof.
  unfold buildRequest. intros Hb.
  assert (Hget : forall r0, newRequest E url "GET" None = Some r0 ->
            inr (map_fold (fun k v r => setHeader E k v r) r0 headers)
            = (inr req : Result Request) ->
            (forall k v, headers !! k = Some v ->
               (forall k', k' <> k -> is_Some (headers !! k') ->
                           canonicalHeaderKey E k' <> canonicalHeaderKey E k) ->
               Header req !! canonicalHeaderKey E k = Some v)
            /\ (forall k, (forall k' v, headers !! k' = Some v ->
                                         canonicalHeaderKey E k' <> k) ->
                Header req !! k
                = if String.eqb (Method req) "POST"
                     && String.eqb k (canonicalHeaderKey E "Content-Type")
                  then Some "application/json"%string else None)).
  { intros r0 Hr0 Hreq. apply newRequest_fields in Hr0. subst r0.
    inversion Hreq; subst req.
    destruct (setHeaders E headers (mkRequest "GET" url ∅ None))
      as (HM & _ & _ & Hkeep & Hset).
    split; [exact Hset|]. intros k Hno. rewrite (Hkeep k Hno), HM.
    cbn [Method Header]. by rewrite lookup_empty. }
  destruct jsonData as [data|].
  - destruct (String.eqb method "POST").
    + destruct (json_Marshal E data) as [body|]; [|discriminate].
      destruct (newRequest E url "POST" (Some body)) as [r0|] eqn:Hr0; [|discriminate].
      apply newRequest_fields in Hr0. subst r0. inversion Hb; subst req.
      destruct (setHeaders E headers
                  (setHeader E "Content-Type" "application/json"
                             (mkRequest "POST" url ∅ (Some body))))
        as (HM & _ & _ & Hkeep & Hset).
      split; [exact Hset|]. intros k Hno. rewrite (Hkeep k Hno), HM.
      cbn [setHeader Method Header andb]. rewrite String.eqb_refl. cbn [andb].
      destruct (String.eqb_spec k (canonicalHeaderKey E "Content-Type")) as [->|Hne].
      * apply lookup_insert_eq.
      * rewrite lookup_insert_ne by congruence. apply lookup_empty.
    + destruct (newRequest E url "GET" None) as [r0|] eqn:Hr0; [|discriminate].
      by apply (Hget r0).
  - destruct (newRequest E url "GET" None) as [r0|] eqn:Hr0; [|discriminate].
    by apply (Hget r0).
Qed.

(** ** The budget of a call *)

Lemma attemptLoop_budget E url headers method jsonData maxRetries req :
  buildRequest E url headers method jsonData = inr req ->
  maxRetries <= maxInt64 ->
  forall fuel attempt w res w',
    0 <= attempt ->
    attemptLoop E url headers method jsonData maxRetries fuel attempt w
    = Some (res, w') ->
    exists n : nat,
      Z.of_nat n <= Z.max 0 (maxRetries + 1 - attempt)
      /\ (attempt <= maxRetries -> (1 <= n)%nat)
      /\ requests w' = requests w ++ replicate n req
      /\ length (sleeps w') = (length (sleeps w) + Nat.pred n)%nat
      /\ length (stdout w') = (length (stdout w) + Nat.pred n)%nat.
Proof.
  intros Hbuild Hmax.
  induction fuel as [|fuel IH]; intros attempt w res w' H0 Hrun; [discriminate|].
  cbn [attemptLoop] in Hrun.
  destruct (attempt <=? maxRetries) eqn:Hle.
  2:{ apply Z.leb_gt in Hle. inversion Hrun; subst. exists 0%nat.
      cbn [replicate Nat.pred]. rewrite app_nil_r, !Nat.add_0_r.
      repeat split; lia. }
  apply Z.leb_le in Hle. rewrite Hbuild in Hrun.
  assert (Hone : exists n : nat,
              Z.of_nat n <= Z.max 0 (maxRetries + 1 - attempt)
              /\ (attempt <= maxRetries -> (1 <= n)%nat)
              /\ requests (mkWorld (requests w ++ [req]) (sleeps w) (stdout w))
                 = requests w ++ replicate n req
              /\ length (sleeps (mkWorld (requests w ++ [req]) (sleeps w) (stdout w)))
                 = (length (sleeps w) + Nat.pred n)%nat
              /\ length (stdout (mkWorld (requests w ++ [req]) (sleeps w) (stdout w)))
                 = (length (stdout w) + Nat.pred n)%nat).
  { exists 1%nat. cbn [replicate Nat.pred requests sleeps stdout].
    rewrite !Nat.add_0_r. repeat split; lia. }
  destruct (server E (requests w) req) as [cause|resp].
  { inversion Hrun; subst. exact Hone. }
  destruct ((StatusCode resp =? 429) && (attempt <? maxRetries)) eqn:Hc.
  2:{ inversion Hrun; subst. exact Hone. }
  apply andb_true_iff in Hc as [_ Hlt]. apply Z.ltb_lt in Hlt.
  rewrite wrap64_small in Hrun by (unfold maxInt64 in *; lia).
  apply IH in Hrun; [|lia].
  destruct Hrun as (n & Hn & Hpos & Hreq & Hsl & Hout).
  specialize (Hpos ltac:(lia)).
  cbn [requests sleeps stdout] in Hreq, Hsl, Hout.
  exists (S n). split; [lia|]. split; [lia|]. split; [|split].
  - rewrite Hreq, <- app_assoc. reflexivity.
  - rewrite Hsl, length_app. cbn [length Nat.pred]. lia.
  - rewrite Hout, length_app. cbn [length Nat.pred]. lia.
Qed.

(** ** The order of the loop over [headers] *)

(** Go leaves the order of [for key, value := range headers] open, and
    every attempt runs the loop again.  [buildRequestIn] is the request
    of an attempt whose loop visits the entries in [order];
    [Retry.buildRequest] is the one of [map_fold]'s order. *)
Definition buildRequestIn (E : Env) (url : string) (order : list (string * string))
           (method : string) (jsonData : option (gmap string any)) : Result Request :=
  match buildRequest E url ∅ method jsonData with
  | inl e => inl e
  | inr req => inr (fold_left (fun r kv => setHeader E (fst kv) (snd kv) r) order req)
  end.

(** No two keys of [headers] have one canonical name. *)
Definition distinctNames (E : Env) (headers : gmap string string) : Prop :=
  forall k k', is_Some (headers !! k) -> is_Some (headers !! k') ->
               canonicalHeaderKey E k = canonicalHeaderKey E k' -> k = k'.

Lemma buildRequest_base E url headers method jsonData :
  buildRequest E url headers method jsonData
  = match buildRequest E url ∅ method jsonData with
    | inl e => inl e
    | inr req => inr (map_fold (fun k v r => setHeader E k v r) req headers)
    end.
Proof.
  unfold buildRequest.
  destruct jsonData as [data|]; [destruct (String.eqb method "POST")|].
  - destruct (json_Marshal E data) as [body|]; [|reflexivity].
    destruct (newRequest E url "POST" (Some body)); [|reflexivity].
    by rewrite map_fold_empty.
  - destruct (newRequest E url "GET" None); [|reflexivity].
    by rewrite map_fold_empty.
  - destruct (newRequest E url "GET" None); [|reflexivity].
    by rewrite map_fold_empty.
Qed.

(** With distinct canonical names the order of the loop does not matter:
    every order gives the request of [Retry.buildRequest]. *)
Lemma buildRequest_any_order E url headers method jsonData order :
  distinctNames E headers ->
  Permutation order (map_to_list headers) ->
  buildRequestIn E url order method jsonData
  = buildRequest E url headers method jsonData.
Proof.
  intros Hdist Hperm. rewrite buildRequest_base. unfold buildRequestIn.
  destruct (buildRequest E url ∅ method jsonData) as [e|req]; [reflexivity|].
  f_equal. rewrite map_fold_foldr, <- fold_left_rev_right.
  assert (Hf : forall l,
            foldr (uncurry (fun k v r => setHeader E k v r)) req l
            = fold_right (fun kv r => setHeader E (fst kv) (snd kv) r) req l).
  { induction l as [|[k v] l IH]; [reflexivity|]. cbn [foldr fold_right uncurry fst snd].
    by rewrite IH. }
  rewrite Hf.
  assert (Hrev : rev order ≡ₚ map_to_list headers).
  { rewrite <- Hperm. symmetry. apply Permutation_rev. }
  clear Hperm Hf. revert Hrev. generalize (rev order) as l. intros l Hperm.
  apply (foldr_permutation eq (fun kv r => setHeader E (fst kv) (snd kv) r) req
                           l (map_to_list headers)); [|exact Hperm].
  intros j1 [k1 v1] j2 [k2 v2] r Hne H1 H2. unfold setHeader.
  cbn [Method URL Header ReqBody fst snd]. f_equal.
  apply insert_insert_ne. intros Hcan.
  assert (Hin : forall j k v, l !! j = Some (k, v) -> headers !! k = Some v).
  { intros j k v Hj. apply elem_of_map_to_list. rewrite <- Hperm.
    by eapply list_elem_of_lookup_2. }
  assert (Hk : k1 = k2).
  { apply Hdist; [eexists; by eapply Hin | eexists; by eapply Hin | exact Hcan]. }
  subst k2.
  assert (Hnd : NoDup (l.*1)).
  { rewrite Hperm. apply NoDup_fst_map_to_list. }
  apply Hne. apply (NoDup_lookup _ j1 j2 k1 Hnd);
    rewrite list_lookup_fmap; [by rewrite H1 | by rewrite H2].
Qed.

(** X3: a call never makes more than [maxRetries + 1] attempts, and
    between two attempts there is exactly one sleep and one progress
    notice.  When no two keys of [headers] have one canonical name, every
    attempt sends the same request, whatever the order in which it
    ranges over the map.  When the request cannot be built nothing is
    sent at all. *)
Theorem makeAPIRequest_budget E url headers method jsonData maxRetries w :
  maxRetries <= maxInt64 ->
  exists res w' (n : nat),
    makeAPIRequest E url headers method jsonData maxRetries w = Some (res, w')
    /\ Z.of_nat n <= Z.max 0 (maxRetries + 1)
    /\ length (requests w') = (length (requests w) + n)%nat
    /\ (distinctNames E headers ->
        forall order req,
          Permutation order (map_to_list headers) ->
          buildRequestIn E url order method jsonData = inr req ->
          requests w' = requests w ++ replicate n req)
    /\ (forall e, buildRequest E url headers method jsonData = inl e ->
                  n = 0%nat /\ w' = w
                  /\ (0 <= maxRetries -> res = inl e))
    /\ length (sleeps w') = (length (sleeps w) + Nat.pred n)%nat
    /\ length (stdout w') = (length (stdout w) + Nat.pred n)%nat.
Proof.
  intros Hmax.
  destruct (makeAPIRequest_total E url headers method jsonData maxRetries w Hmax)
    as (res & w' & Hrun).
  exists res, w'.
  destruct (buildRequest E url headers method jsonData) as [e|req] eqn:Hb.
  - exists 0%nat. split; [exact Hrun|].
    unfold makeAPIRequest, attemptFuel in Hrun. cbn [attemptLoop] in Hrun.
    rewrite Hb in Hrun.
    assert (Hw : w' = w /\ (0 <= maxRetries -> res = inl e)).
    { destruct (0 <=? maxRetries) eqn:Hle.
      - inversion Hrun; subst. by split.
      - apply Z.leb_gt in Hle. inversion Hrun; subst. split; [done | lia]. }
    destruct Hw as [-> Hres]. cbn [Nat.pred replicate]. rewrite !Nat.add_0_r.
    split; [lia|]. split; [done|]. split; [intros; by rewrite app_nil_r|].
    split; [|done]. intros e' [= <-]. done.
  - destruct (attemptLoop_budget E url headers method jsonData maxRetries req Hb Hmax
                _ 0 w res w' ltac:(lia) Hrun) as (n & Hn & _ & Hreq & Hsl & Hout).
    exists n. split; [exact Hrun|]. split; [lia|].
    split; [rewrite Hreq, length_app, length_replicate; lia|].
    split.
    { intros Hdist order req' Hperm Hin.
      rewrite (buildRequest_any_order E url headers method jsonData order Hdist Hperm),
        Hb in Hin.
      inversion Hin; subst req'. exact Hreq. }
    split; [intros ? [=]|]. by split.
Qed.

Lemma makeAPIRequest_budget_witness :
  exists res w' (n : nat),
    makeAPIRequest twice429 "u" {[ "X-API-KEY"%string := "k"%string ]} "GET" None 3
                   emptyWorld = Some (res, w')
    /\ Z.of_nat n <= Z.max 0 (3 + 1)
    /\ length (requests w') = (length (requests emptyWorld) + n)%nat
    /\ (distinctNames twice429 {[ "X-API-KEY"%string := "k"%string ]} ->
        forall order req,
          Permutation order (map_to_list {[ "X-API-KEY"%string := "k"%string ]}) ->
          buildRequestIn twice429 "u" order "GET" None = inr req ->
          requests w' = requests emptyWorld ++ replicate n req)
    /\ (forall e, buildRequest twice429 "u" {[ "X-API-KEY"%string := "k"%string ]}
                               "GET" None = inl e ->
                  n = 0%nat /\ w' = emptyWorld
                  /\ (0 <= 3 -> res = inl e))
    /\ length (sleeps w') = (length (sleeps emptyWorld) + Nat.pred n)%nat
    /\ length (stdout w') = (length (stdout emptyWorld) + Nat.pred n)%nat.
Proof.
  apply (makeAPIRequest_budget twice429 "u" {[ "X-API-KEY"%string := "k"%string ]}
                               "GET" None 3 emptyWorld).
  unfold maxInt64. lia.
Defined.

Lemma buildRequest_headers_witness :
  Header (mkRequest "GET" "u" {[ "X-API-KEY"%string := "k"%string ]} None)
  !! canonicalHeaderKey always429 "X-API-KEY"
  = Some "k"%string.
Proof.
  destruct (buildRequest_headers always429 "u" {[ "X-API-KEY"%string := "k"%string ]}
              "GET" None
              (mkRequest "GET" "u" {[ "X-API-KEY"%string := "k"%string ]} None))
    as [Hset _].
  - reflexivity.
  - apply Hset.
    + apply lookup_singleton_eq.
    + intros k' Hne [v Hv]. apply lookup_singleton_Some in Hv as [<- _]. done.
Defined.

(** A call that could build its request sent it between once and
    [maxRetries + 1] times. *)
Lemma makeAPIRequest_sends E url headers method jsonData maxRetries req w res w' :
  buildRequest E url headers method jsonData = inr req ->
  0 <= maxRetries <= maxInt64 ->
  makeAPIRequest E url headers method jsonData maxRetries w = Some (res, w') ->
  exists n : nat,
    (1 <= n)%nat /\ Z.of_nat n <= maxRetries + 1
    /\ requests w' = requests w ++ replicate n req.
Proof.
  intros Hb [H0 Hmax] Hrun.
  destruct (attemptLoop_budget E url headers method jsonData maxRetries req Hb Hmax
              _ 0 w res w' ltac:(lia) Hrun) as (n & Hn & Hpos & Hreq & _).
  exists n. split; [apply Hpos; lia|]. split; [lia | exact Hreq].
Qed.

End RetryMore.

(* ================================================================== *)
(** * Properties of the single-request fetch functions *)

Module FetchFacts.
Import Retry RetryFacts RetryMore.

(** ** The API key on the wire *)

(** The key a fetch function uses: the first variadic argument when it
    is there and not empty, the environment variable otherwise. *)
Definition financialAPIKey (E : Env) (apiKey : list string) : string :=
  match apiKey with
  | k :: _ => if String.eqb k "" then getenv E "FINANCIAL_DATASETS_API_KEY" else k
  | [] => getenv E "FINANCIAL_DATASETS_API_KEY"
  end.

(** The header map of the requests a fetch function sends. *)
Definition sentHeaders (E : Env) (apiKey : list string) : gmap string string :=
  if String.eqb (financialAPIKey E apiKey) "" then ∅
  else {[ canonicalHeaderKey E "X-API-KEY" := financialAPIKey E apiKey ]}.

Lemma apiHeaders_key E apiKey :
  apiHeaders E apiKey
  = if String.eqb (financialAPIKey E apiKey) "" then ∅
    else {[ "X-API-KEY"%string := financialAPIKey E apiKey ]}.
Proof.
  unfold apiHeaders, financialAPIKey. destruct apiKey as [|k rest].
  - by destruct (String.eqb (getenv E "FINANCIAL_DATASETS_API_KEY") "").
  - destruct (String.eqb k "") eqn:Hk; cbn [negb].
    + by destruct (String.eqb (getenv E "FINANCIAL_DATASETS_API_KEY") "").
    + by rewrite Hk.
Qed.

(** The GET request of a fetch function. *)
Definition fetchRequest (E : Env) (url : string) (apiKey : list string) : Request :=
  mkRequest "GET" url (sentHeaders E apiKey) None.

Lemma buildRequest_fetch E url apiKey :
  buildRequest E url (apiHeaders E apiKey) "GET" None
  = if urlParses E url then inr (fetchRequest E url apiKey) else inl ErrNewGET.
Proof.
  unfold buildRequest, newRequest, fetchRequest, sentHeaders.
  destruct (urlParses E url); [|reflexivity].
  rewrite apiHeaders_key.
  destruct (String.eqb (financialAPIKey E apiKey) "").
  - by rewrite map_fold_empty.
  - rewrite map_fold_singleton. unfold setHeader. cbn [Method URL Header ReqBody].
    by rewrite insert_empty.
Qed.

(** What a GET of a fetch function leaves in the world. *)
Lemma fetch_sends E url apiKey w res w' :
  makeAPIRequest E url (apiHeaders E apiKey) "GET" None 3 w = Some (res, w') ->
  if urlParses E url then
    exists n : nat, (1 <= n <= 4)%nat
                    /\ requests w' = requests w ++ replicate n (fetchRequest E url apiKey)
  else res = inl ErrNewGET /\ w' = w.
Proof.
  intros Hrun. pose proof (buildRequest_fetch E url apiKey) as Hb.
  destruct (urlParses E url).
  - destruct (makeAPIRequest_sends E url _ "GET" None 3 _ w res w' Hb
                ltac:(unfold maxInt64; lia) Hrun) as (n & H1 & H2 & Hreq).
    exists n. split; [lia | exact Hreq].
  - unfold makeAPIRequest, attemptFuel in Hrun. cbn [attemptLoop] in Hrun.
    change (0 <=? 3) with true in Hrun. cbv iota in Hrun.
    rewrite Hb in Hrun. by inversion Hrun.
Qed.

(** X4: what [GetPrices] puts on the wire.  It sends one GET, repeated at
    most three times, to the prices URL of its arguments, with the API
    key as the only header (none when neither the argument nor the
    environment gives a key); a URL that does not parse is an error
    before anything is sent. *)
Theorem GetPrices_requests E decodePrices ticker startDate endDate apiKey w res w' :
  GetPrices E decodePrices ticker startDate endDate apiKey w = Some (res, w') ->
  let url := ("https://api.financialdatasets.ai/prices/?ticker=" +:+ ticker
              +:+ "&interval=day&interval_multiplier=1&start_date=" +:+ startDate
              +:+ "&end_date=" +:+ endDate)%string in
  if urlParses E url then
    exists n : nat,
      (1 <= n <= 4)%nat
      /\ requests w' = requests w ++ replicate n (fetchRequest E url apiKey)
  else res = inl (ErrAPIRequest ErrNewGET) /\ w' = w.
Proof.
  unfold GetPrices. intros Hrun. cbv zeta. fold (pricesURL ticker startDate endDate).
  destruct (makeAPIRequest E (pricesURL ticker startDate endDate)
              (apiHeaders E apiKey) "GET" None 3 w) as [[r w1]|] eqn:Hreq;
    [|discriminate].
  apply fetch_sends in Hreq.
  assert (Hw : w' = w1).
  { destruct r as [err|resp]; [by inversion Hrun|].
    destruct (negb (StatusCode resp =? 200)); [by inversion Hrun|].
    destruct (BodyReadFails resp); [by inversion Hrun|].
    destruct (decodePrices (Body resp)) as [[|p l]|]; by inversion Hrun. }
  subst w1. destruct (urlParses E (pricesURL ticker startDate endDate)).
  - exact Hreq.
  - destruct Hreq as [-> ->]. by inversion Hrun.
Qed.

Lemma GetPrices_requests_witness :
  exists n : nat,
    (1 <= n <= 4)%nat
    /\ requests (mkWorld
                   (replicate 4
                      (getRequest "https://api.financialdatasets.ai/prices/?ticker=AAPL&interval=day&interval_multiplier=1&start_date=2024-01-01&end_date=2024-02-01"))
                   [60000000000; 90000000000; 120000000000]
                   [RateLimited 1 4 60; RateLimited 2 4 90; RateLimited 3 4 120])
       = requests emptyWorld
         ++ replicate n
              (fetchRequest always429
                 "https://api.financialdatasets.ai/prices/?ticker=AAPL&interval=day&interval_multiplier=1&start_date=2024-01-01&end_date=2024-02-01"
                 []).
Proof.
  apply (GetPrices_requests always429 (fun _ => None) "AAPL" "2024-01-01" "2024-02-01" []
           emptyWorld (inl (ErrStatus "AAPL" 429 "rate limited"))).
  vm_compute. reflexivity.
Defined.

(** X5: the defaults of [GetFinancialMetrics] as the service sees them.
    An empty period is asked for as "ttm" and a limit of 0 as 10, so a
    call with both is the call with "ttm" and 10; every request of a call
    is the GET of that URL with the API key as its only header. *)
Theorem GetFinancialMetrics_requests E ticker endDate period limit apiKey w res w' :
  GetFinancialMetrics E ticker endDate period limit apiKey w = Some (res, w') ->
  let url := ("https://api.financialdatasets.ai/financial-metrics/?ticker=" +:+ ticker
              +:+ "&report_period_lte=" +:+ endDate
              +:+ "&limit=" +:+ itoa (if (limit =? 0)%Z then 10 else limit)
              +:+ "&period=" +:+ (if String.eqb period "" then "ttm" else period))%string in
  GetFinancialMetrics E ticker endDate "" 0 apiKey
  = GetFinancialMetrics E ticker endDate "ttm" 10 apiKey
  /\ if urlParses E url then
       exists n : nat,
         (1 <= n <= 4)%nat
         /\ requests w' = requests w ++ replicate n (fetchRequest E url apiKey)
     else res = inl (ErrAPIRequest ErrNewGET) /\ w' = w.
Proof.
  unfold GetFinancialMetrics. intros Hrun. cbv zeta. split; [reflexivity|].
  change (("https://api.financialdatasets.ai/financial-metrics/?ticker=" +:+ ticker
           +:+ "&report_period_lte=" +:+ endDate
           +:+ "&limit=" +:+ itoa (if (limit =? 0)%Z then 10 else limit)
           +:+ "&period=" +:+ (if String.eqb period "" then "ttm" else period))%string)
    with (metricsURL ticker endDate period limit).
  destruct (makeAPIRequest E (metricsURL ticker endDate period limit)
              (apiHeaders E apiKey) "GET" None 3 w) as [[r w1]|] eqn:Hreq;
    [|discriminate].
  apply fetch_sends in Hreq.
  assert (Hw : w' = w1).
  { destruct r as [err|resp]; [by inversion Hrun|].
    destruct (negb (StatusCode resp =? 200)); [by inversion Hrun|].
    destruct (BodyReadFails resp); [by inversion Hrun|].
    destruct (decodeFinancialMetrics E (Body resp)) as [[|p l]|]; by inversion Hrun. }
  subst w1. destruct (urlParses E (metricsURL ticker endDate period limit)).
  - exact Hreq.
  - destruct Hreq as [-> ->]. by inversion Hrun.
Qed.

Lemma GetFinancialMetrics_requests_witness :
  GetFinancialMetrics always429 "AAPL" "2024-02-01" "" 0 []
  = GetFinancialMetrics always429 "AAPL" "2024-02-01" "ttm" 10 [].
Proof.
  destruct (GetFinancialMetrics_requests always429 "AAPL" "2024-02-01" "" 0 [] emptyWorld
              (inl (ErrStatus "AAPL" 429 "rate limited"))
              (mkWorld
                 (replicate 4
                    (getRequest "https://api.financialdatasets.ai/financial-metrics/?ticker=AAPL&report_period_lte=2024-02-01&limit=10&period=ttm"))
                 [60000000000; 90000000000; 120000000000]
                 [RateLimited 1 4 60; RateLimited 2 4 90; RateLimited 3 4 120]))
    as [Heq _].
  - vm_compute. reflexivity.
  - exact Heq.
Defined.

(** X6: a service that keeps answering 429.  [GetFinancialMetrics] then
    fails with the status error of the fourth answer (ticker, 429 and
    its body), after four requests and sleeps of 60, 90 and 120
    seconds. *)
Theorem GetFinancialMetrics_rate_limited E ticker endDate period limit apiKey w :
  urlParses E (metricsURL ticker endDate period limit) = true ->
  (forall history req, exists r, server E history req = Reply r /\ StatusCode r = 429) ->
  exists r w',
    GetFinancialMetrics E ticker endDate period limit apiKey w
    = Some (inl (ErrStatus ticker 429 (Body r)), w')
    /\ requests w'
       = requests w
         ++ replicate 4 (fetchRequest E (metricsURL ticker endDate period limit) apiKey)
    /\ server E (requests w
                 ++ replicate 3 (fetchRequest E (metricsURL ticker endDate period limit)
                                              apiKey))
              (fetchRequest E (metricsURL ticker endDate period limit) apiKey)
       = Reply r
    /\ sleeps w' = sleeps w ++ [60 * 1000000000; 90 * 1000000000; 120 * 1000000000].
Proof.
  intros Hurl H429.
  set (url := metricsURL ticker endDate period limit).
  set (req := fetchRequest E url apiKey).
  assert (Hb : buildRequest E url (apiHeaders E apiKey) "GET" None = inr req).
  { rewrite buildRequest_fetch. fold url in Hurl. by rewrite Hurl. }
  destruct (H429 (requests w ++ replicate 3 req) req) as (r & Hr & Hs).
  exists r. eexists. split; [|split; [|split]].
  - unfold GetFinancialMetrics. fold url.
    rewrite (makeAPIRequest_run E url _ "GET" None 3 req Hb 3 w (Reply r));
      [| lia | unfold maxInt64; lia | | exact Hr | by right].
    + cbn [resultOf]. rewrite Hs. cbn. reflexivity.
    + intros i _. apply H429.
  - reflexivity.
  - exact Hr.
  - reflexivity.
Qed.

Lemma GetFinancialMetrics_rate_limited_witness :
  exists r w',
    GetFinancialMetrics always429 "AAPL" "2024-02-01" "" 0 [] emptyWorld
    = Some (inl (ErrStatus "AAPL" 429 (Body r)), w')
    /\ requests w'
       = requests emptyWorld
         ++ replicate 4 (fetchRequest always429
                           (metricsURL "AAPL" "2024-02-01" "" 0) [])
    /\ server always429
              (requests emptyWorld
               ++ replicate 3 (fetchRequest always429
                                 (metricsURL "AAPL" "2024-02-01" "" 0) []))
              (fetchRequest always429 (metricsURL "AAPL" "2024-02-01" "" 0) [])
       = Reply r
    /\ sleeps w' = sleeps emptyWorld
                   ++ [60 * 1000000000; 90 * 1000000000; 120 * 1000000000].
Proof.
  apply (GetFinancialMetrics_rate_limited always429 "AAPL" "2024-02-01" "" 0 []
                                          emptyWorld).
  - reflexivity.
  - intros history req. exists tooManyRequests. split; reflexivity.
Defined.

End FetchFacts.

(* ================================================================== *)
(** * More on the paginated aggregators *)

Module PaginateMore.
Import Retry RetryFacts Paginate PaginateFacts RetryMore FetchFacts.

(** ** The clock *)

(** The environment with another clock. *)
Definition withClock (E : Env) (clock : Z -> string) : Env :=
  mkEnv (server E) (urlParses E) (json_Marshal E) (canonicalHeaderKey E) (getenv E)
        (decodeFinancialMetrics E) (decodeInsiderTrades E) (decodeCompanyNews E)
        (decodeCompanyFacts E) clock.

Lemma attemptLoop_withClock E clock url headers method jsonData maxRetries :
  forall fuel attempt w,
    attemptLoop (withClock E clock) url headers method jsonData maxRetries fuel attempt w
    = attemptLoop E url headers method jsonData maxRetries fuel attempt w.
Proof.
  induction fuel as [|fuel IH]; intros attempt w; [reflexivity|].
  cbn [attemptLoop].
  change (buildRequest (withClock E clock) url headers method jsonData)
    with (buildRequest E url headers method jsonData).
  change (server (withClock E clock)) with (server E).
  destruct (attempt <=? maxRetries); [|reflexivity].
  destruct (buildRequest E url headers method jsonData) as [e|req]; [reflexivity|].
  destruct (server E (requests w) req) as [cause|resp]; [reflexivity|].
  destruct ((StatusCode resp =? 429) && (attempt <? maxRetries)); [|reflexivity].
  apply IH.
Qed.

Lemma pageLoop_withClock E clock (T : Type) (dateOf : T -> string) decode what
      (url1 url2 : string -> string) ticker startDate limit headers :
  (forall cursor, url1 cursor = url2 cursor) ->
  forall fuel cursor all w,
    pageLoop (withClock E clock) T dateOf decode what url1 ticker startDate limit
             headers fuel cursor all w
    = pageLoop E T dateOf decode what url2 ticker startDate limit headers
               fuel cursor all w.
Proof.
  intros Hurl. induction fuel as [|fuel IH]; intros cursor all w; [reflexivity|].
  cbn [pageLoop]. unfold makeAPIRequest.
  rewrite attemptLoop_withClock, Hurl.
  destruct (attemptLoop E (url2 cursor) headers "GET" None 3 _ 0 w)
    as [[[err|resp] w1]|]; [reflexivity| |reflexivity].
  destruct (negb (StatusCode resp =? 200)); [reflexivity|].
  destruct (BodyReadFails resp); [reflexivity|].
  destruct (decode (Body resp)) as [[|first rest]|]; [reflexivity| |reflexivity].
  destruct (_ || _); [reflexivity|].
  destruct startDate as [sd|]; [|apply IH].
  destruct (String.leb _ sd); [reflexivity | apply IH].
Qed.

(** X7: the two aggregators never look at the clock.  The default start
    date they compute from [time.Now()] when no start date is given
    (thirty days back for insider trades, thirty days ahead for news)
    reaches neither a request nor the result: with any other clock a
    call does, sends and returns the same. *)
Theorem aggregators_ignore_the_clock E clock ticker endDate startDate limit apiKey fuel w :
  GetInsiderTrades (withClock E clock) ticker endDate startDate limit apiKey fuel w
  = GetInsiderTrades E ticker endDate startDate limit apiKey fuel w
  /\ GetCompanyNews (withClock E clock) ticker endDate startDate limit apiKey fuel w
     = GetCompanyNews E ticker endDate startDate limit apiKey fuel w.
Proof.
  split.
  - unfold GetInsiderTrades, tradesLoop.
    change (decodeInsiderTrades (withClock E clock)) with (decodeInsiderTrades E).
    change (apiHeaders (withClock E clock) apiKey) with (apiHeaders E apiKey).
    rewrite (pageLoop_withClock E clock InsiderTrade FilingDate (decodeInsiderTrades E)
               "内部交易" (tradesURL (withClock E clock) ticker startDate limit)
               (tradesURL E ticker startDate limit)); [reflexivity|].
    intros cursor. by destruct startDate.
  - unfold GetCompanyNews, newsLoop.
    change (decodeCompanyNews (withClock E clock)) with (decodeCompanyNews E).
    change (apiHeaders (withClock E clock) apiKey) with (apiHeaders E apiKey).
    rewrite (pageLoop_withClock E clock CompanyNews DateTime (decodeCompanyNews E)
               "公司新闻" (newsURL (withClock E clock) ticker startDate limit)
               (newsURL E ticker startDate limit)); [reflexivity|].
    intros cursor. by destruct startDate.
Qed.

(** ** A cursor that does not move *)

Section Stuck.
Variable E : Env.
Variable T : Type.
Variable dateOf : T -> string.
Variable decode : string -> option (list T).
Variable what : string.
Variable pageURL : string -> string.
Variables (ticker : string) (sd : string) (limit : Z) (apiKey : list string).

(** Every answer of the service is a page of [limit] records or more
    whose oldest day is after the start date. *)
Definition FullYoungPages : Prop :=
  forall history req,
    exists resp page,
      server E history req = Reply resp
      /\ StatusCode resp = 200 /\ BodyReadFails resp = false
      /\ decode (Body resp) = Some page
      /\ page <> [] /\ limit <= Z.of_nat (length page)
      /\ String.leb (nextCursor T dateOf page) sd = false.

Lemma pageLoop_stuck :
  (forall cursor, urlParses E (pageURL cursor) = true) ->
  FullYoungPages ->
  forall fuel cursor all w,
    pageLoop E T dateOf decode what pageURL ticker (Some sd) limit
             (apiHeaders E apiKey) fuel cursor all w = None.
Proof.
  intros Hurl Hfull. induction fuel as [|fuel IH]; intros cursor all w; [reflexivity|].
  rewrite pageLoop_step.
  set (req := fetchRequest E (pageURL cursor) apiKey).
  assert (Hb : buildRequest E (pageURL cursor) (apiHeaders E apiKey) "GET" None
               = inr req).
  { rewrite buildRequest_fetch. by rewrite Hurl. }
  destruct (Hfull (requests w) req)
    as (resp & page & Hr & Hs & Hread & Hdec & Hne & Hlen & Hleb).
  unfold fetchPage.
  rewrite (makeAPIRequest_run E (pageURL cursor) _ "GET" None 3 req Hb 0 w (Reply resp));
    [| lia | unfold maxInt64; lia | intros i Hi; lia
     | cbn [replicate]; by rewrite app_nil_r | left; lia].
  cbn [resultOf]. rewrite Hs, Hread, Hdec. cbn [Z.eqb Pos.eqb negb].
  destruct page as [|first rest]; [done|].
  replace (Z.of_nat (length (first :: rest)) <? limit) with false
    by (symmetry; apply Z.ltb_ge; lia).
  cbn [orb]. rewrite Hleb. apply IH.
Qed.
End Stuck.

(** X8: bounded mode can go round for ever.  When every answer of the
    service is a full page (at least [limit] records) whose oldest day is
    still after the start date, as when the page asked for up to a day
    holds [limit] records of that very day, [GetInsiderTrades] and
    [GetCompanyNews] never return: whatever the number of iterations
    allowed, the loop has not been left. *)
Theorem bounded_mode_can_loop_for_ever E ticker endDate sd limit apiKey :
  (forall url, urlParses E url = true) ->
  (FullYoungPages E InsiderTrade FilingDate (decodeInsiderTrades E) sd
                  (defaultLimit limit 1000) ->
   forall fuel w,
     GetInsiderTrades E ticker endDate (Some sd) limit apiKey fuel w = None)
  /\ (FullYoungPages E CompanyNews DateTime (decodeCompanyNews E) sd
                     (defaultLimit limit 1000) ->
      forall fuel w,
        GetCompanyNews E ticker endDate (Some sd) limit apiKey fuel w = None).
Proof.
  intros Hurl. split; intros Hfull fuel w.
  - unfold GetInsiderTrades, tradesLoop.
    by rewrite (pageLoop_stuck E InsiderTrade FilingDate (decodeInsiderTrades E)).
  - unfold GetCompanyNews, newsLoop.
    by rewrite (pageLoop_stuck E CompanyNews DateTime (decodeCompanyNews E)).
Qed.

(** A service that answers every request with the same two filings of
    one day. *)
Definition sameDayEnv : Env :=
  envDecoding (fun _ _ => Reply (mkResponse 200 "page" false))
              (fun _ => Some [filing "2024-03-07"; filing "2024-03-07"])
              (fun _ => None).

Lemma bounded_mode_can_loop_for_ever_witness :
  GetInsiderTrades sameDayEnv "AAPL" "2024-03-07" (Some "2024-01-01"%string) 2 []
                   1000 emptyWorld = None.
Proof.
  apply (bounded_mode_can_loop_for_ever sameDayEnv "AAPL" "2024-03-07" "2024-01-01" 2 []).
  - reflexivity.
  - intros history req.
    exists (mkResponse 200 "page" false), [filing "2024-03-07"; filing "2024-03-07"].
    split; [reflexivity|]. split; [reflexivity|]. split; [reflexivity|].
    split; [reflexivity|]. split; [discriminate|].
    split; [vm_compute; discriminate | vm_compute; reflexivity].
Defined.

(** ** Nothing is lost, nothing is dropped *)

(** The answers of the service to the requests [new], sent after
    [history]. *)
Fixpoint replay (E : Env) (history new : list Request) : list Outcome :=
  match new with
  | [] => []
  | req :: rest => server E history req :: replay E (history ++ [req]) rest
  end.

Lemma replay_app E new1 : forall history new2,
  replay E history (new1 ++ new2)
  = replay E history new1 ++ replay E (history ++ new1) new2.
Proof.
  induction new1 as [|req new1 IH]; intros history new2; cbn [replay app].
  - by rewrite app_nil_r.
  - rewrite IH, <- app_assoc. reflexivity.
Qed.

(** The records of an answer: those a 200 answer decodes to. *)
Definition recordsOf {T : Type} (decode : string -> option (list T)) (o : Outcome)
  : list T :=
  match o with
  | Reply resp =>
      if StatusCode resp =? 200 then
        match decode (Body resp) with
        | Some page => page
        | None => []
        end
      else []
  | TransportFailure _ => []
  end.

Lemma attemptLoop_replay E url headers method jsonData maxRetries :
  forall fuel attempt w resp w',
    attemptLoop E url headers method jsonData maxRetries fuel attempt w
    = Some (inr resp, w') ->
    exists new pre,
      requests w' = requests w ++ new
      /\ replay E (requests w) new = pre ++ [Reply resp]
      /\ Forall (fun o => exists r, o = Reply r /\ StatusCode r = 429) pre.
Proof.
  induction fuel as [|fuel IH]; intros attempt w resp w' Hrun; [discriminate|].
  cbn [attemptLoop] in Hrun.
  destruct (attempt <=? maxRetries); [|discriminate].
  destruct (buildRequest E url headers method jsonData) as [e|req]; [discriminate|].
  destruct (server E (requests w) req) as [cause|r] eqn:Hr; [discriminate|].
  destruct ((StatusCode r =? 429) && (attempt <? maxRetries)) eqn:Hc.
  - apply andb_true_iff in Hc as [Hs _]. apply Z.eqb_eq in Hs.
    apply IH in Hrun. destruct Hrun as (new & pre & Hreq & Hrep & Hpre).
    cbn [requests] in Hreq, Hrep.
    exists (req :: new), (Reply r :: pre). split; [|split].
    + rewrite Hreq, <- app_assoc. reflexivity.
    + cbn [replay]. rewrite Hr, Hrep. reflexivity.
    + constructor; [by exists r | exact Hpre].
  - inversion Hrun; subst. exists [req], []. split; [reflexivity|].
    split; [|constructor]. cbn [replay app]. by rewrite Hr.
Qed.

Section Conservation.
Variable E : Env.
Variable T : Type.
Variable dateOf : T -> string.
Variable decode : string -> option (list T).
Variable what : string.
Variable pageURL : string -> string.
Variables (ticker : string) (startDate : option string) (limit : Z)
          (headers : gmap string string).

Lemma recordsOf_429 (pre : list Outcome) :
  Forall (fun o => exists r, o = Reply r /\ StatusCode r = 429) pre ->
  flat_map (recordsOf decode) pre = [].
Proof.
  induction 1 as [|o pre (r & -> & Hs) _ IH]; [reflexivity|].
  cbn [flat_map recordsOf]. rewrite Hs, IH. reflexivity.
Qed.

Lemma fetchPage_replay cursor w page w1 :
  fetchPage E T decode what pageURL ticker headers cursor w = Some (Page page, w1) ->
  exists new,
    requests w1 = requests w ++ new
    /\ flat_map (recordsOf decode) (replay E (requests w) new) = page.
Proof.
  unfold fetchPage, makeAPIRequest. intros Hf.
  destruct (attemptLoop E (pageURL cursor) headers "GET" None 3 _ 0 w)
    as [[[err|resp] w2]|] eqn:Hrun; try discriminate.
  apply attemptLoop_replay in Hrun. destruct Hrun as (new & pre & Hreq & Hrep & Hpre).
  destruct (StatusCode resp =? 200) eqn:Hs; cbn [negb] in Hf; [|discriminate].
  destruct (BodyReadFails resp); [discriminate|].
  destruct (decode (Body resp)) as [p|] eqn:Hd; [|discriminate].
  inversion Hf; subst. exists new. split; [exact Hreq|].
  rewrite Hrep, flat_map_app, (recordsOf_429 pre Hpre).
  cbn [flat_map recordsOf app]. rewrite Hs, Hd. by rewrite app_nil_r.
Qed.

Lemma pageLoop_replay : forall fuel cursor all w res w',
  pageLoop E T dateOf decode what pageURL ticker startDate limit headers
           fuel cursor all w = Some (inr res, w') ->
  exists new,
    requests w' = requests w ++ new
    /\ res = all ++ flat_map (recordsOf decode) (replay E (requests w) new).
Proof.
  induction fuel as [|fuel IH]; intros cursor all w res w' Hrun; [discriminate|].
  rewrite pageLoop_step in Hrun.
  destruct (fetchPage E T decode what pageURL ticker headers cursor w)
    as [[[e|page] w1]|] eqn:Hf; try discriminate.
  destruct (fetchPage_replay cursor w page w1 Hf) as (new & Hreq & Hrec).
  assert (Hstop : forall r, r = all ++ page ->
            exists new0, requests w1 = requests w ++ new0
                         /\ r = all ++ flat_map (recordsOf decode)
                                                (replay E (requests w) new0)).
  { intros r ->. exists new. by rewrite Hrec. }
  assert (Hgo : forall c,
            pageLoop E T dateOf decode what pageURL ticker startDate limit headers
                     fuel c (all ++ page) w1 = Some (inr res, w') ->
            exists new0, requests w' = requests w ++ new0
                         /\ res = all ++ flat_map (recordsOf decode)
                                                  (replay E (requests w) new0)).
  { intros c Hc. apply IH in Hc. destruct Hc as (new2 & Hreq2 & Hres2).
    exists (new ++ new2). split; [by rewrite Hreq2, Hreq, app_assoc|].
    rewrite replay_app, flat_map_app, Hrec, <- Hreq, Hres2.
    by rewrite app_assoc. }
  destruct page as [|first rest].
  { inversion Hrun; subst. apply Hstop. by rewrite app_nil_r. }
  destruct (_ || _); [inversion Hrun; subst; by apply Hstop|].
  destruct startDate as [sd|]; [|by apply (Hgo _ Hrun)].
  destruct (String.leb _ sd); [inversion Hrun; subst; by apply Hstop|].
  by apply (Hgo _ Hrun).
Qed.
End Conservation.

(** X9: what a successful call returns is what the service sent.  The
    list [GetInsiderTrades] (or [GetCompanyNews]) returns is, in the
    order of receipt, the records of every answer with status 200 to the
    requests of the call: no record is lost, none is dropped, records
    that two pages share are there twice, and the list is not cut to
    [limit]. *)
Theorem aggregators_return_what_was_received E ticker endDate startDate limit apiKey
        fuel w w' :
  (forall trades,
     GetInsiderTrades E ticker endDate startDate limit apiKey fuel w
     = Some (inr trades, w') ->
     exists new,
       requests w' = requests w ++ new
       /\ trades = flat_map (recordsOf (decodeInsiderTrades E))
                            (replay E (requests w) new))
  /\ (forall news,
        GetCompanyNews E ticker endDate startDate limit apiKey fuel w
        = Some (inr news, w') ->
        exists new,
          requests w' = requests w ++ new
          /\ news = flat_map (recordsOf (decodeCompanyNews E))
                             (replay E (requests w) new)).
Proof.
  split.
  - intros trades. unfold GetInsiderTrades, finish, tradesLoop.
    destruct (pageLoop _ _ _ _ _ _ _ _ _ _ fuel endDate [] w)
      as [[[e|all] w1]|] eqn:Hloop; try discriminate.
    intros Hrun. apply pageLoop_replay in Hloop.
    destruct Hloop as (new & Hreq & Hall). cbn [app] in Hall.
    assert (trades = all /\ w' = w1) as [-> ->]
      by (destruct all; by inversion Hrun).
    by exists new.
  - intros news. unfold GetCompanyNews, finish, newsLoop.
    destruct (pageLoop _ _ _ _ _ _ _ _ _ _ fuel endDate [] w)
      as [[[e|all] w1]|] eqn:Hloop; try discriminate.
    intros Hrun. apply pageLoop_replay in Hloop.
    destruct Hloop as (new & Hreq & Hall). cbn [app] in Hall.
    assert (news = all /\ w' = w1) as [-> ->]
      by (destruct all; by inversion Hrun).
    by exists new.
Qed.

Lemma aggregators_return_what_was_received_witness :
  exists new,
    requests (mkWorld [getRequest (walkURL "2024-03-10");
                       getRequest (walkURL "2024-03-05");
                       getRequest (walkURL "2024-02-28")] [] [])
    = requests emptyWorld ++ new
    /\ [filing "2024-03-07"; filing "2024-03-05T16:30:00";
        filing "2024-03-01"; filing "2024-02-28"]
       = flat_map (recordsOf (decodeInsiderTrades walkEnv))
                  (replay walkEnv (requests emptyWorld) new).
Proof.
  apply (proj1 (aggregators_return_what_was_received
                  walkEnv "AAPL" "2024-03-10" (Some "2024-01-01"%string) 2 [] 5
                  emptyWorld
                  (mkWorld [getRequest (walkURL "2024-03-10");
                            getRequest (walkURL "2024-03-05");
                            getRequest (walkURL "2024-02-28")] [] []))).
  vm_compute. reflexivity.
Defined.

End PaginateMore.

(* ================================================================== *)
(** * More on the line-item decoder *)

Module LineItemMore.
Import LineItemJSON LineItemFacts.

Lemma tagName_inj f g : tagName f = tagName g -> f = g.
Proof. destruct f, g; intros H; try reflexivity; discriminate H. Qed.

Lemma getField_setField_same f s li : getField f (setField f s li) = s.
Proof. rewrite getField_setField. by rewrite String.eqb_refl. Qed.

Lemma getField_setField_other f g s li :
  g <> f -> getField f (setField g s li) = getField f li.
Proof.
  intros Hne. rewrite getField_setField.
  destruct (String.eqb_spec (tagName g) (tagName f)) as [H|_]; [|reflexivity].
  apply tagName_inj in H. contradiction.
Qed.

Lemma Data_setField f s li : Data (setField f s li) = Data li.
Proof. by destruct f. Qed.

(** A key that a field takes without being the field's own name is none
    of the four names. *)
Lemma fieldFor_folded k f :
  fieldFor k = Some f -> k <> tagName f -> ~ In k fixedKeys.
Proof.
  unfold fieldFor, fields. cbn [find tagName].
  intros Hf Hne Hin.
  destruct Hin as [<- | [<- | [<- | [<- | []]]]]; cbn in Hf;
    inversion Hf; subst f; by apply Hne.
Qed.

(** Members that hold no string for [f] leave [f] as it is. *)
Lemma decode_keeps_field f (post : list (string * json)) :
  (forall kv, In kv post -> fieldFor (fst kv) = Some f ->
              forall s', snd kv <> JString s') ->
  forall st,
    getField f (fst (fold_left decodeMember post st)) = getField f (fst st).
Proof.
  induction post as [|kv post IH]; intros Hpost st; [reflexivity|].
  cbn [fold_left]. rewrite IH by (intros kv' Hin; apply Hpost; by right).
  unfold decodeMember. destruct (fieldFor (fst kv)) as [g|] eqn:Hg; [|reflexivity].
  destruct (snd kv) as [| | |s'| |] eqn:Hv; try reflexivity.
  cbn [fst]. apply getField_setField_other. intros ->.
  by apply (Hpost kv (or_introl eq_refl) Hg s').
Qed.

Lemma decode_Data (members : list (string * json)) : forall st,
  Data (fst (fold_left decodeMember members st)) = Data (fst st).
Proof.
  induction members as [|kv rest IH]; intros st; [reflexivity|].
  cbn [fold_left]. rewrite IH. unfold decodeMember.
  destruct (fieldFor (fst kv)) as [g|]; [|reflexivity].
  destruct (snd kv); try reflexivity. cbn [fst]. apply Data_setField.
Qed.

(** A member is well typed when the field it is bound to, if any, can
    take its value: a string or null. *)
Definition wellTyped (kv : string * json) : Prop :=
  forall f, fieldFor (fst kv) = Some f ->
            snd kv = JNull \/ exists s, snd kv = JString s.

Lemma decodeMember_error st kv :
  snd (decodeMember st kv) = None <-> snd st = None /\ wellTyped kv.
Proof.
  unfold decodeMember, wellTyped.
  destruct (fieldFor (fst kv)) as [g|] eqn:Hg.
  - assert (Hbad : (snd kv = JNull \/ exists s, snd kv = JString s)
                   \/ (~ (snd kv = JNull \/ exists s, snd kv = JString s)
                       /\ snd (match snd kv with
                               | JString s => (setField g s (fst st), snd st)
                               | JNull => st
                               | _ => (fst st,
                                       match snd st with
                                       | None => Some ErrJSON
                                       | Some e => Some e
                                       end)
                               end) <> None)).
    { destruct (snd kv) as [| | |s'| |]; try (left; (by left) || (right; by eexists));
        right; (split; [intros [H | [s H]]; discriminate H
                       | cbn [snd]; by destruct (snd st)]). }
    destruct Hbad as [Hok | [Hno Herr]].
    + split.
      * intros H. split; [|intros f _; exact Hok].
        destruct Hok as [Hn | [s Hs]]; [rewrite Hn in H | rewrite Hs in H]; exact H.
      * intros [H _]. destruct Hok as [Hn | [s Hs]]; [rewrite Hn | rewrite Hs]; exact H.
    + split; [intros H; contradiction|].
      intros [_ Hwt]. exfalso. apply Hno. by apply (Hwt g).
  - split; [intros H; split; [exact H | intros f Hf; discriminate Hf] | by intros [H _]].
Qed.

Lemma decode_error (members : list (string * json)) : forall st,
  snd (fold_left decodeMember members st) = None
  <-> snd st = None /\ Forall wellTyped members.
Proof.
  induction members as [|kv rest IH]; intros st.
  - cbn [fold_left]. split; [intros H; split; [exact H | constructor] | by intros [H _]].
  - cbn [fold_left]. rewrite IH, decodeMember_error. split.
    + intros [[H1 H2] H3]. split; [exact H1 | by constructor].
    + intros [H1 H2]. inversion H2; subst. by repeat split.
Qed.

Lemma lastValue_middle key (pre post : list (string * json)) v :
  (forall kv, In kv post -> fst kv <> key) ->
  lastValue key (pre ++ (key, v) :: post) = Some v.
Proof.
  intros Hpost. induction pre as [|kv pre IH]; cbn [app].
  - rewrite lastValue_cons. cbn [fst snd]. rewrite String.eqb_refl.
    assert (Hnone : lastValue key post = None).
    { clear -Hpost. induction post as [|kv post IH]; [reflexivity|].
      rewrite lastValue_cons, IH by (intros kv' Hin; apply Hpost; by right).
      destruct (String.eqb_spec (fst kv) key) as [H|_]; [|reflexivity].
      exfalso. by apply (Hpost kv (or_introl eq_refl)). }
    by rewrite Hnone.
  - by rewrite lastValue_cons, IH.
Qed.

(** X10: fields are bound up to the case of the key, the bag by the
    exact key.  The last string a payload gives under a key that a field
    takes (its own name, or the name in another case) is the value of the
    field after the call, error or not; when the key is not the field's
    own name and the call succeeds, the key and its value are in [Data]
    as well. *)
Theorem UnmarshalJSON_binds_folded_names pre k s post f li :
  fieldFor k = Some f ->
  (forall kv, In kv post -> fieldFor (fst kv) = Some f ->
              forall s', snd kv <> JString s') ->
  getField f (fst (UnmarshalJSON (Some (JObject (pre ++ (k, JString s) :: post))) li)) = s
  /\ (snd (UnmarshalJSON (Some (JObject (pre ++ (k, JString s) :: post))) li) = None ->
      k <> tagName f ->
      (forall kv, In kv post -> fst kv <> k) ->
      Data (fst (UnmarshalJSON (Some (JObject (pre ++ (k, JString s) :: post))) li)) !! k
      = Some (AString s)).
Proof.
  intros Hk Hpost.
  set (members := pre ++ (k, JString s) :: post).
  assert (Hfield : getField f (fst (fold_left decodeMember members (li, None))) = s).
  { unfold members. rewrite fold_left_app. cbn [fold_left].
    rewrite (decode_keeps_field f post Hpost).
    unfold decodeMember at 1. cbn [fst snd]. rewrite Hk.
    apply getField_setField_same. }
  unfold UnmarshalJSON, unmarshalAlias, unmarshalRaw.
  destruct (fold_left decodeMember members (li, None)) as [li1 [e|]] eqn:Hrun;
    cbn [fst snd] in *.
  - split; [exact Hfield | discriminate].
  - destruct (numbersFit (JObject members)); cbn [fst snd].
    + split; [by destruct f|]. intros _ Hne Hlater. cbn [Data].
      rewrite deleted_other by (by apply (fieldFor_folded k f)).
      rewrite raw_lookup. unfold members. by rewrite lastValue_middle.
    + split; [exact Hfield | discriminate].
Qed.

Lemma UnmarshalJSON_binds_folded_names_witness :
  getField FTicker
    (fst (UnmarshalJSON (Some (JObject ([] ++ ("Ticker"%string, JString "AAPL") :: [])))
                        emptyLineItem)) = "AAPL"%string
  /\ (snd (UnmarshalJSON (Some (JObject ([] ++ ("Ticker"%string, JString "AAPL") :: [])))
                         emptyLineItem) = None ->
      "Ticker"%string <> tagName FTicker ->
      (forall kv : string * json, In kv [] -> fst kv <> "Ticker"%string) ->
      Data (fst (UnmarshalJSON
                   (Some (JObject ([] ++ ("Ticker"%string, JString "AAPL") :: [])))
                   emptyLineItem)) !! "Ticker"%string
      = Some (AString "AAPL")).
Proof.
  apply (UnmarshalJSON_binds_folded_names [] "Ticker" "AAPL" [] FTicker emptyLineItem).
  - reflexivity.
  - intros kv [].
Defined.

(** X11: when decoding fails.  On an object the call returns an error
    exactly when some member bound to a fixed field holds something other
    than a string or null, or some number literal of the payload, at any
    depth, is beyond float64; the error leaves [Data] as it was before
    the call. *)
Theorem UnmarshalJSON_type_error members li :
  (snd (UnmarshalJSON (Some (JObject members)) li) = None
   <-> Forall wellTyped members /\ numbersFit (JObject members) = true)
  /\ (snd (UnmarshalJSON (Some (JObject members)) li) <> None ->
      Data (fst (UnmarshalJSON (Some (JObject members)) li)) = Data li).
Proof.
  pose proof (decode_error members (li, None)) as Herr.
  pose proof (decode_Data members (li, None)) as Hdata.
  unfold UnmarshalJSON, unmarshalAlias, unmarshalRaw.
  destruct (fold_left decodeMember members (li, None)) as [li1 [e|]];
    cbn [fst snd] in *.
  - split; [|intros _; exact Hdata]. split; [discriminate|].
    intros [H _]. destruct Herr as [_ Herr]. by apply Herr.
  - destruct (numbersFit (JObject members)); cbn [fst snd].
    + split; [|intros H; by destruct H]. split; [|reflexivity].
      intros _. split; [by apply Herr | reflexivity].
    + split; [|intros _; exact Hdata]. split; [discriminate|].
      intros [_ H]. discriminate H.
Qed.

End LineItemMore.

(* ================================================================== *)
(** * More on the series normaliser and the price functions *)

Module PricesFacts.
Import Normalize NormalizeFacts FetchFacts.

Lemma parseRows_first_rejected time_Parse pre bad post :
  (forall p, In p pre -> accepted time_Parse (Time p)) ->
  time_Parse time_RFC3339 (Time bad) = None ->
  time_Parse "2006-01-02" (Time bad) = None ->
  parseRows time_Parse (pre ++ bad :: post) = inl (ErrParseTime (Time bad)).
Proof.
  intros Hpre H1 H2. induction pre as [|p pre IH]; cbn [app parseRows].
  - assert (Hp : parseTime time_Parse (Time bad) = inl (ErrParseTime (Time bad)))
      by (by apply parseTime_inl).
    by rewrite Hp.
  - destruct (parseTime time_Parse (Time p)) as [e|date] eqn:Hp.
    + apply parseTime_inl in Hp as (Hp1 & Hp2 & _).
      destruct (Hpre p (or_introl eq_refl)) as [H | H]; contradiction.
    + rewrite IH; [reflexivity|]. intros q Hq. apply Hpre. by right.
Qed.

(** X12: the error of [PricesToDataFrame] is that of the first record,
    in input order, whose timestamp neither layout accepts; the records
    after it are not looked at and the sort is not reached, whatever
    [time.Parse] and [sort.Slice] are. *)
Theorem PricesToDataFrame_first_error
        (time_Parse : string -> string -> option time_Time)
        (sort_Slice : forall A : Type, list A -> (A -> A -> bool) -> list A)
        pre bad post :
  (forall p, In p pre -> accepted time_Parse (Time p)) ->
  time_Parse time_RFC3339 (Time bad) = None ->
  time_Parse "2006-01-02" (Time bad) = None ->
  PricesToDataFrame time_Parse sort_Slice (pre ++ bad :: post)
  = inl (ErrParseTime (Time bad)).
Proof.
  intros Hpre H1 H2. apply PricesToDataFrame_error.
  by apply parseRows_first_rejected.
Qed.

Lemma PricesToDataFrame_first_error_witness :
  PricesToDataFrame referenceParse GoSort.Slice
                    ([quote "2024-01-03" 3] ++ quote "03/01/2024" 4
                       :: [quote "yesterday" 5; quote "2024-01-02" 2])
  = inl (ErrParseTime (Time (quote "03/01/2024" 4))).
Proof.
  apply (PricesToDataFrame_first_error referenceParse GoSort.Slice
           [quote "2024-01-03" 3] (quote "03/01/2024" 4)
           [quote "yesterday" 5; quote "2024-01-02" 2]).
  - intros p [<- | []]. right. vm_compute. discriminate.
  - reflexivity.
  - reflexivity.
Defined.

(** X13: [GetPriceData] is [GetPrices] followed by [PricesToDataFrame].
    An error of the fetch is returned as it is, and no table; prices
    whose timestamps are all accepted give, with any sort that meets the
    contract of [sort.Slice] and no request beyond those of the fetch, a
    table that holds the row of every fetched record exactly once,
    ordered by time. *)
Theorem GetPriceData_table E decodePrices ticker startDate endDate apiKey time_Parse
        (sort_Slice : forall A : Type, list A -> (A -> A -> bool) -> list A) w w1 :
  SortFacts.SortsSlices sort_Slice ->
  (forall e,
     GetPrices E decodePrices ticker startDate endDate apiKey w = Some (inl e, w1) ->
     GetPriceData E decodePrices ticker startDate endDate apiKey time_Parse sort_Slice w
     = Some (inl e, w1))
  /\ (forall prices,
        GetPrices E decodePrices ticker startDate endDate apiKey w
        = Some (inr prices, w1) ->
        (forall p, In p prices -> accepted time_Parse (Time p)) ->
        exists rows sorted,
          GetPriceData E decodePrices ticker startDate endDate apiKey time_Parse
                       sort_Slice w
          = Some (inr (frameOf sorted), w1)
          /\ Forall2 (rowFor time_Parse) prices rows
          /\ Permutation sorted rows
          /\ length (Dates (frameOf sorted)) = length prices
          /\ forall i j a b,
               (i < j)%nat -> sorted !! i = Some a -> sorted !! j = Some b ->
               Before (sd_date b) (sd_date a) = false).
Proof.
  intros Hsort. split.
  - intros e Hget. unfold GetPriceData. by rewrite Hget.
  - intros prices Hget Hall. unfold GetPriceData. rewrite Hget.
    destruct (PricesToDataFrame_accepted time_Parse sort_Slice prices Hsort Hall)
      as (rows & sorted & Hrun & HF & Hperm & Hsorted).
    exists rows, sorted. rewrite Hrun.
    split; [reflexivity|]. split; [exact HF|]. split; [exact Hperm|]. split.
    + cbn [frameOf Dates]. rewrite length_map, (Permutation_length Hperm).
      symmetry. exact (Forall2_length _ _ _ HF).
    + intros i j a b Hij Hi Hj.
      exact (StronglySorted_lookup _ sorted Hsorted i j a b Hij Hi Hj).
Qed.

Lemma GetPriceData_table_witness :
  exists rows sorted,
    GetPriceData (RetryFacts.envOf (fun _ _ => Reply RetryFacts.okResponse)) (fun _ => Some threeDays)
                 "AAPL" "2024-01-01" "2024-01-03" [] referenceParse GoSort.Slice
                 RetryFacts.emptyWorld
    = Some (inr (frameOf sorted),
            mkWorld
              [RetryFacts.getRequest "https://api.financialdatasets.ai/prices/?ticker=AAPL&interval=day&interval_multiplier=1&start_date=2024-01-01&end_date=2024-01-03"]
              [] [])
    /\ Forall2 (rowFor referenceParse) threeDays rows
    /\ Permutation sorted rows
    /\ length (Dates (frameOf sorted)) = length threeDays
    /\ forall i j a b,
         (i < j)%nat -> sorted !! i = Some a -> sorted !! j = Some b ->
         Before (sd_date b) (sd_date a) = false.
Proof.
  apply (proj2 (GetPriceData_table
                  (RetryFacts.envOf (fun _ _ => Reply RetryFacts.okResponse)) (fun _ => Some threeDays)
                  "AAPL" "2024-01-01" "2024-01-03" [] referenceParse GoSort.Slice
                  RetryFacts.emptyWorld
                  (mkWorld
                     [RetryFacts.getRequest "https://api.financialdatasets.ai/prices/?ticker=AAPL&interval=day&interval_multiplier=1&start_date=2024-01-01&end_date=2024-01-03"]
                     [] [])
                  SortFacts.Slice_SortsSlices)
               threeDays).
  - vm_compute. reflexivity.
  - intros p [<- | [<- | [<- | []]]].
    + right. vm_compute. discriminate.
    + left. vm_compute. discriminate.
    + right. vm_compute. discriminate.
Defined.

End PricesFacts.

(* ================================================================== *)
(** * Properties of the line-item search *)

Module SearchFacts.
Import Retry RetryFacts.

(** X14: the cut to [limit].  Once the service has answered 200 with a
    list of results, [SearchLineItems] returns its first [limit] results
    (all of them when there are no more than [limit], 0 standing for
    10), so never more than [limit]; with a negative [limit] and any
    result at all it does not return but panics on the slice bound. *)
Theorem SearchLineItems_limit E anyOfInt decodeLineItems ticker lineItems endDate
        period limit apiKey w resp w1 results :
  Retry.makeAPIRequest E searchURL (apiHeaders E apiKey) "POST"
    (Some (searchBody anyOfInt ticker lineItems endDate period limit)) 3 w
  = Some (inr resp, w1) ->
  StatusCode resp = 200 -> BodyReadFails resp = false ->
  decodeLineItems (Body resp) = Some results ->
  SearchLineItems E anyOfInt decodeLineItems ticker lineItems endDate period limit
                  apiKey w
  = Some (if (defaultLimit limit 10 <? 0) && negb (Nat.eqb (length results) 0)
          then Panics
          else Returns (inr (take (Z.to_nat (defaultLimit limit 10)) results)),
          w1)
  /\ (0 <= limit ->
      Z.of_nat (length (take (Z.to_nat (defaultLimit limit 10)) results))
      <= defaultLimit limit 10).
Proof.
  intros Hreq Hs Hread Hdec. split.
  - unfold SearchLineItems. cbv zeta. rewrite Hreq, Hs, Hread, Hdec.
    cbn [Z.eqb Pos.eqb negb].
    destruct results as [|first rest].
    { cbn [length Nat.eqb negb]. rewrite andb_false_r. by rewrite take_nil. }
    cbn [Nat.eqb negb]. rewrite andb_true_r.
    destruct (Z.of_nat (length (first :: rest)) >? defaultLimit limit 10) eqn:Hgt.
    + by destruct (defaultLimit limit 10 <? 0).
    + rewrite Z.gtb_ltb in Hgt. apply Z.ltb_ge in Hgt.
      replace (defaultLimit limit 10 <? 0) with false
        by (symmetry; apply Z.ltb_ge; lia).
      rewrite take_ge by lia. reflexivity.
  - intros Hlim. rewrite length_take.
    assert (0 <= defaultLimit limit 10)
      by (unfold defaultLimit; destruct (limit =? 0); lia).
    lia.
Qed.

(** A service with three results for every search. *)
Definition item (ticker : string) : LineItem := mkLineItem ticker "2024-Q1" "q" "USD" ∅.

Definition searchEnv : Env := envOf (fun _ _ => Reply (mkResponse 200 "results" false)).

(** In the scenario an [int] is kept as the number it marshals to. *)
Definition intAsNumber (n : Z) : any :=
  AFloat (if n <? 0 then PrimFloat.opp (PrimFloat.of_uint63 (Uint63.of_Z (- n)))
          else PrimFloat.of_uint63 (Uint63.of_Z n)).

Lemma SearchLineItems_limit_witness :
  SearchLineItems searchEnv intAsNumber
                  (fun _ => Some [item "A"; item "B"; item "C"])
                  "AAPL" ["revenue"%string] "2024-03-31" "" (-1) [] emptyWorld
  = Some (Panics,
          mkWorld [mkRequest "POST" searchURL
                             {[ "Content-Type"%string := "application/json"%string ]}
                             (Some "{}"%string)] [] []).
Proof.
  destruct (SearchLineItems_limit searchEnv intAsNumber
              (fun _ => Some [item "A"; item "B"; item "C"])
              "AAPL" ["revenue"%string] "2024-03-31" "" (-1) [] emptyWorld
              (mkResponse 200 "results" false)
              (mkWorld [mkRequest "POST" searchURL
                                  {[ "Content-Type"%string := "application/json"%string ]}
                                  (Some "{}"%string)] [] [])
              [item "A"; item "B"; item "C"])
    as [Hrun _].
  - vm_compute. reflexivity.
  - reflexivity.
  - reflexivity.
  - reflexivity.
  - exact Hrun.
Defined.

End SearchFacts.

(* ================================================================== *)
(** * Properties of the tools *)

Module ToolFacts.
Import Retry RetryFacts Paginate PaginateFacts RetryMore FetchFacts.

(** [t'] continues [t] with log lines only: nothing was done to the file
    system. *)
Definition onlyLogged (t t' : list ToolEvent) : Prop :=
  exists lines, t' = t ++ lines
                /\ Forall (fun ev => exists format args, ev = Logf format args) lines.

Lemma onlyLogged_refl t : onlyLogged t t.
Proof. exists []. split; [by rewrite app_nil_r | constructor]. Qed.

Lemma onlyLogged_log t t' format args :
  onlyLogged t t' -> onlyLogged t (t' ++ [Logf format args]).
Proof.
  intros (lines & -> & Hall). exists (lines ++ [Logf format args]).
  split; [by rewrite app_assoc|].
  apply Forall_app. split; [exact Hall|]. constructor; [by eexists _, _ | constructor].
Qed.

Lemma newsLimit_range limit :
  1 <= newsLimit limit <= 20 /\ (1 <= limit <= 20 -> newsLimit limit = limit).
Proof.
  unfold newsLimit. destruct (limit <=? 0) eqn:H0.
  - apply Z.leb_le in H0. cbn. split; [lia | intros; lia].
  - apply Z.leb_gt in H0. destruct (limit >? 20) eqn:H20; rewrite Z.gtb_ltb in H20.
    + apply Z.ltb_lt in H20. split; [lia | intros; lia].
    + apply Z.ltb_ge in H20. split; [lia | reflexivity].
Qed.

Lemma metricsLimit_range limit :
  1 <= metricsLimit limit <= 10 /\ (1 <= limit <= 10 -> metricsLimit limit = limit).
Proof.
  unfold metricsLimit. destruct (limit <=? 0) eqn:H0.
  - apply Z.leb_le in H0. cbn. split; [lia | intros; lia].
  - apply Z.leb_gt in H0. destruct (limit >? 10) eqn:H10; rewrite Z.gtb_ltb in H10.
    + apply Z.ltb_lt in H10. split; [lia | intros; lia].
    + apply Z.ltb_ge in H10. split; [lia | reflexivity].
Qed.

(** ** [get_company_news] *)

(** X15: the news tool as its caller sees it.  It never returns a Go
    error.  Without a symbol it answers with an error text and calls
    nothing.  Otherwise it calls its fetch function once, with the symbol,
    the date (today's when none is given), no start date and a limit
    brought into 1..20 (10 when none is given); a failure of the fetch
    becomes the error text of the answer and nothing is written to disk;
    a success is answered with the news and their count, whether or not
    the answer could be saved. *)
Theorem companyNewsTool_contract E H marshalIndent getNewsFunc req s out err s' :
  companyNewsTool E H marshalIndent getNewsFunc req s = Some ((out, err), s') ->
  err = None
  /\ (cni_Symbol req = ""%string ->
      out = mkCompanyNewsOutput "" "" [] 0 "股票代码不能为空"
      /\ http s' = http s /\ onlyLogged (events s) (events s'))
  /\ (cni_Symbol req <> ""%string ->
      let date := if String.eqb (cni_Date req) "" then nowPlusDays E 0
                  else cni_Date req in
      let limit := newsLimit (cni_Limit req) in
      1 <= limit <= 20
      /\ (1 <= cni_Limit req <= 20 -> limit = cni_Limit req)
      /\ exists res,
           getNewsFunc (cni_Symbol req) date None limit (http s) = Some (res, http s')
           /\ match res with
              | inl e =>
                  out = mkCompanyNewsOutput (cni_Symbol req) date [] 0
                                            ("获取新闻失败: " +:+ errText H e)
                  /\ onlyLogged (events s) (events s')
              | inr news =>
                  out = mkCompanyNewsOutput (cni_Symbol req) date news
                                            (Z.of_nat (length news)) ""
              end).
Proof.
  unfold companyNewsTool. intros Hrun.
  destruct (String.eqb_spec (cni_Symbol req) "") as [Hsym|Hsym].
  - inversion Hrun; subst. split; [reflexivity|]. split; [|done].
    intros _. split; [reflexivity|]. split; [reflexivity|].
    cbn [events]. do 2 apply onlyLogged_log. apply onlyLogged_refl.
  - cbv zeta in Hrun.
    destruct (getNewsFunc (cni_Symbol req) _ None _ (http s))
      as [[[e|news] w1]|] eqn:Hget; [| |discriminate].
    + inversion Hrun; subst. split; [reflexivity|]. split; [done|].
      intros _. cbv zeta. destruct (newsLimit_range (cni_Limit req)) as [Hr Hid].
      split; [exact Hr|]. split; [exact Hid|]. exists (inl e).
      split; [reflexivity|]. split; [reflexivity|].
      cbn [events]. do 3 apply onlyLogged_log. apply onlyLogged_refl.
    + destruct (saveNewsToFile H marshalIndent _ _) as [saveErr t].
      inversion Hrun; subst. split; [reflexivity|]. split; [done|].
      intros _. cbv zeta. destruct (newsLimit_range (cni_Limit req)) as [Hr Hid].
      split; [exact Hr|]. split; [exact Hid|]. exists (inr news).
      split; reflexivity.
Qed.

(** A fetch function that fails for every call. *)
Definition failingNews (symbol date : string) (since : option string) (limit : Z)
           (w : World) : option (Result (list CompanyNews) * World) :=
  Some (inl ErrReadBody, w).

Definition quietHost : Host :=
  mkHost (fun _ => "error"%string) (fun _ => "0.0"%string) "2025-09-25_10-00-00"
         (fun dir file => dir +:+ "/" +:+ file) (fun _ _ => false) (fun _ _ _ => false).

Lemma companyNewsTool_contract_witness :
  exists res,
    failingNews "AAPL" "2025-09-25" None 20 emptyWorld = Some (res, emptyWorld)
    /\ match res with
       | inl e =>
           mkCompanyNewsOutput "AAPL" "2025-09-25" [] 0 "获取新闻失败: error"
           = mkCompanyNewsOutput "AAPL" "2025-09-25" [] 0
                                 ("获取新闻失败: " +:+ errText quietHost e)
           /\ onlyLogged []
                [Logf "[CompanyNewsTool] 接收到请求: Symbol=%s, Date=%s, Limit=%d"
                      [ArgString "AAPL"; ArgString ""; ArgInt 50];
                 Logf "[CompanyNewsTool] 准备调用API: Symbol=%s, Date=%s, Limit=%d"
                      [ArgString "AAPL"; ArgString "2025-09-25"; ArgInt 20];
                 Logf "[CompanyNewsTool] API调用失败: %v" [ArgError ErrReadBody]]
       | inr news =>
           mkCompanyNewsOutput "AAPL" "2025-09-25" [] 0 "获取新闻失败: error"
           = mkCompanyNewsOutput "AAPL" "2025-09-25" news (Z.of_nat (length news)) ""
       end.
Proof.
  destruct (companyNewsTool_contract always429 quietHost (fun _ => None) failingNews
              (mkCompanyNewsInput "AAPL" "" 50) (mkToolWorld emptyWorld [])
              (mkCompanyNewsOutput "AAPL" "2025-09-25" [] 0 "获取新闻失败: error")
              None
              (mkToolWorld emptyWorld
                 [Logf "[CompanyNewsTool] 接收到请求: Symbol=%s, Date=%s, Limit=%d"
                       [ArgString "AAPL"; ArgString ""; ArgInt 50];
                  Logf "[CompanyNewsTool] 准备调用API: Symbol=%s, Date=%s, Limit=%d"
                       [ArgString "AAPL"; ArgString "2025-09-25"; ArgInt 20];
                  Logf "[CompanyNewsTool] API调用失败: %v" [ArgError ErrReadBody]]))
    as (_ & _ & Hcall).
  - reflexivity.
  - destruct (Hcall ltac:(discriminate)) as (_ & _ & Hres). exact Hres.
Defined.

(** The page request of [GetCompanyNews] when no start date is given. *)
Lemma newsURL_unbounded E ticker limit cursor :
  newsURL E ticker None limit cursor
  = "https://api.financialdatasets.ai/news/?ticker=" +:+ ticker
    +:+ "&end_date=" +:+ cursor +:+ "&limit=" +:+ itoa (defaultLimit limit 1000).
Proof.
  unfold newsURL. cbv beta zeta iota. rewrite !append_assoc. reflexivity.
Qed.

(** What one call of [GetCompanyNews] without a start date sends. *)
Lemma GetCompanyNews_unbounded_sends E ticker endDate limit fuel w res w' :
  GetCompanyNews E ticker endDate None limit [] (S fuel) w = Some (res, w') ->
  if urlParses E (newsURL E ticker None limit endDate) then
    exists n : nat,
      (1 <= n <= 4)%nat
      /\ requests w' = requests w
                       ++ replicate n (fetchRequest E (newsURL E ticker None limit endDate) [])
  else w' = w.
Proof.
  unfold GetCompanyNews, finish, newsLoop.
  rewrite pageLoop_unbounded by reflexivity. unfold fetchPage.
  destruct (makeAPIRequest E (newsURL E ticker None limit endDate) (apiHeaders E [])
              "GET" None 3 w) as [[r w1]|] eqn:Hreq; [|discriminate].
  apply fetch_sends in Hreq. intros Hrun.
  assert (Hw : w' = w1).
  { destruct r as [err|resp]; [by inversion Hrun|].
    destruct (negb (StatusCode resp =? 200)); [by inversion Hrun|].
    destruct (BodyReadFails resp); [by inversion Hrun|].
    destruct (decodeCompanyNews E (Body resp)) as [page|]; [|by inversion Hrun].
    cbn [app] in Hrun. destruct page; by inversion Hrun. }
  subst w1. destruct (urlParses E (newsURL E ticker None limit endDate)).
  - exact Hreq.
  - by destruct Hreq as [_ ->].
Qed.

(** X16: the news tool on the wire.  Wired to [GetCompanyNews] as
    [analyzeWithReactAgent] does, a call of the tool with a symbol sends
    one page request and no more: a GET, repeated at most three times
    when rate limited, of the news URL with the symbol, the date, no
    start date and a limit within 1..20.  The tool never walks through
    pages. *)
Theorem companyNewsTool_requests E H marshalIndent fuel req s out err s' :
  companyNewsTool E H marshalIndent (newsToolFunc E (S fuel)) req s
  = Some ((out, err), s') ->
  cni_Symbol req <> ""%string ->
  let date := if String.eqb (cni_Date req) "" then nowPlusDays E 0
              else cni_Date req in
  let url := ("https://api.financialdatasets.ai/news/?ticker=" +:+ cni_Symbol req
              +:+ "&end_date=" +:+ date
              +:+ "&limit=" +:+ itoa (newsLimit (cni_Limit req)))%string in
  1 <= newsLimit (cni_Limit req) <= 20
  /\ if urlParses E url then
       exists n : nat,
         (1 <= n <= 4)%nat
         /\ requests (http s') = requests (http s) ++ replicate n (fetchRequest E url [])
     else http s' = http s.
Proof.
  intros Hrun Hsym. cbv zeta.
  destruct (newsLimit_range (cni_Limit req)) as [Hr _]. split; [exact Hr|].
  set (date := if String.eqb (cni_Date req) "" then nowPlusDays E 0 else cni_Date req).
  assert (Hurl : newsURL E (cni_Symbol req) None (newsLimit (cni_Limit req)) date
                 = "https://api.financialdatasets.ai/news/?ticker=" +:+ cni_Symbol req
                   +:+ "&end_date=" +:+ date
                   +:+ "&limit=" +:+ itoa (newsLimit (cni_Limit req))).
  { rewrite newsURL_unbounded. unfold defaultLimit.
    replace (newsLimit (cni_Limit req) =? 0) with false
      by (symmetry; apply Z.eqb_neq; lia).
    reflexivity. }
  rewrite <- Hurl.
  unfold companyNewsTool in Hrun.
  replace (String.eqb (cni_Symbol req) "") with false in Hrun
    by (symmetry; by apply String.eqb_neq).
  cbv zeta in Hrun. fold date in Hrun. unfold newsToolFunc in Hrun.
  destruct (GetCompanyNews E (cni_Symbol req) date None (newsLimit (cni_Limit req)) []
              (S fuel) (http s)) as [[r w1]|] eqn:Hget; [|discriminate].
  apply GetCompanyNews_unbounded_sends in Hget.
  assert (Hw : http s' = w1).
  { destruct r as [e|news]; [by inversion Hrun|].
    destruct (saveNewsToFile H marshalIndent _ _) as [saveErr t].
    by inversion Hrun. }
  rewrite Hw. exact Hget.
Qed.

Lemma companyNewsTool_requests_witness :
  1 <= newsLimit 50 <= 20
  /\ exists n : nat,
       (1 <= n <= 4)%nat
       /\ requests (mkWorld
                      (replicate 4
                         (getRequest "https://api.financialdatasets.ai/news/?ticker=AAPL&end_date=2025-09-25&limit=20"))
                      [60000000000; 90000000000; 120000000000]
                      [RateLimited 1 4 60; RateLimited 2 4 90; RateLimited 3 4 120])
          = requests emptyWorld
            ++ replicate n
                 (fetchRequest always429
                    "https://api.financialdatasets.ai/news/?ticker=AAPL&end_date=2025-09-25&limit=20"
                    []).
Proof.
  apply (companyNewsTool_requests always429 quietHost (fun _ => None) 0
           (mkCompanyNewsInput "AAPL" "" 50) (mkToolWorld emptyWorld [])
           (mkCompanyNewsOutput "AAPL" "2025-09-25" [] 0 "获取新闻失败: error") None
           (mkToolWorld
              (mkWorld
                 (replicate 4
                    (getRequest "https://api.financialdatasets.ai/news/?ticker=AAPL&end_date=2025-09-25&limit=20"))
                 [60000000000; 90000000000; 120000000000]
                 [RateLimited 1 4 60; RateLimited 2 4 90; RateLimited 3 4 120])
              [Logf "[CompanyNewsTool] 接收到请求: Symbol=%s, Date=%s, Limit=%d"
                    [ArgString "AAPL"; ArgString ""; ArgInt 50];
               Logf "[CompanyNewsTool] 准备调用API: Symbol=%s, Date=%s, Limit=%d"
                    [ArgString "AAPL"; ArgString "2025-09-25"; ArgInt 20];
               Logf "[CompanyNewsTool] API调用失败: %v"
                    [ArgError (ErrStatus "AAPL" 429 "rate limited")]])).
  - vm_compute. reflexivity.
  - discriminate.
Defined.

(** ** [get_financial_metrics] *)

(** X17: the metrics tool on the wire.  Wired to [GetFinancialMetrics],
    a call of the tool with a symbol sends the GET of the metrics URL
    with the symbol, the date (today's when none is given), the period
    ("ttm" when none is given) and a limit brought into 1..10, 5 when
    none is given: the defaults of the tool, not the 10 of
    [GetFinancialMetrics], are what the service sees. *)
Theorem financialMetricsTool_requests E H marshalIndent req s out err s' :
  financialMetricsTool E H marshalIndent (metricsToolFunc E) req s
  = Some ((out, err), s') ->
  fmi_Symbol req <> ""%string ->
  let date := if String.eqb (fmi_Date req) "" then nowPlusDays E 0
              else fmi_Date req in
  let period := if String.eqb (fmi_Period req) "" then "ttm"%string
                else fmi_Period req in
  let url := ("https://api.financialdatasets.ai/financial-metrics/?ticker="
              +:+ fmi_Symbol req +:+ "&report_period_lte=" +:+ date
              +:+ "&limit=" +:+ itoa (metricsLimit (fmi_Limit req))
              +:+ "&period=" +:+ period)%string in
  1 <= metricsLimit (fmi_Limit req) <= 10
  /\ (fmi_Limit req <= 0 -> metricsLimit (fmi_Limit req) = 5)
  /\ err = None
  /\ if urlParses E url then
       exists n : nat,
         (1 <= n <= 4)%nat
         /\ requests (http s') = requests (http s) ++ replicate n (fetchRequest E url [])
     else http s' = http s.
Proof.
  intros Hrun Hsym. cbv zeta.
  destruct (metricsLimit_range (fmi_Limit req)) as [Hr _]. split; [exact Hr|].
  split.
  { intros Hle. unfold metricsLimit.
    replace (fmi_Limit req <=? 0) with true by (symmetry; by apply Z.leb_le).
    reflexivity. }
  set (date := if String.eqb (fmi_Date req) "" then nowPlusDays E 0 else fmi_Date req).
  set (period := if String.eqb (fmi_Period req) "" then "ttm"%string
                 else fmi_Period req).
  assert (Hurl : metricsURL (fmi_Symbol req) date period (metricsLimit (fmi_Limit req))
                 = "https://api.financialdatasets.ai/financial-metrics/?ticker="
                   +:+ fmi_Symbol req +:+ "&report_period_lte=" +:+ date
                   +:+ "&limit=" +:+ itoa (metricsLimit (fmi_Limit req))
                   +:+ "&period=" +:+ period).
  { unfold metricsURL, defaultLimit, metricsPeriod.
    replace (metricsLimit (fmi_Limit req) =? 0) with false
      by (symmetry; apply Z.eqb_neq; lia).
    replace (String.eqb period "") with false; [reflexivity|].
    symmetry. apply String.eqb_neq. unfold period.
    destruct (String.eqb_spec (fmi_Period req) ""); [discriminate | assumption]. }
  rewrite <- Hurl.
  unfold financialMetricsTool in Hrun.
  replace (String.eqb (fmi_Symbol req) "") with false in Hrun
    by (symmetry; by apply String.eqb_neq).
  cbv zeta in Hrun. fold date period in Hrun. unfold metricsToolFunc in Hrun.
  destruct (GetFinancialMetrics E (fmi_Symbol req) date period
              (metricsLimit (fmi_Limit req)) [] (http s)) as [[r w1]|] eqn:Hget;
    [|discriminate].
  assert (Hw : http s' = w1 /\ err = None).
  { destruct r as [e|metrics]; [by inversion Hrun|].
    destruct (saveMetricsToFile H marshalIndent _ _) as [saveErr t].
    by inversion Hrun. }
  destruct Hw as [Hw ->]. split; [reflexivity|]. rewrite Hw.
  unfold GetFinancialMetrics in Hget.
  destruct (makeAPIRequest E _ (apiHeaders E []) "GET" None 3 (http s))
    as [[r0 w0]|] eqn:Hreq; [|discriminate].
  apply fetch_sends in Hreq.
  assert (Hw0 : w1 = w0).
  { destruct r0 as [e0|resp]; [by inversion Hget|].
    destruct (negb (StatusCode resp =? 200)); [by inversion Hget|].
    destruct (BodyReadFails resp); [by inversion Hget|].
    destruct (decodeFinancialMetrics E (Body resp)) as [[|m l]|]; by inversion Hget. }
  subst w0.
  destruct (urlParses E (metricsURL (fmi_Symbol req) date period
                                    (metricsLimit (fmi_Limit req)))).
  - exact Hreq.
  - by destruct Hreq as [_ ->].
Qed.

Lemma financialMetricsTool_requests_witness :
  1 <= metricsLimit 0 <= 10
  /\ (0 <= 0 -> metricsLimit 0 = 5)
  /\ @None error = None
  /\ exists n : nat,
       (1 <= n <= 4)%nat
       /\ requests (mkWorld
                      (replicate 4
                         (getRequest "https://api.financialdatasets.ai/financial-metrics/?ticker=AAPL&report_period_lte=2025-09-25&limit=5&period=ttm"))
                      [60000000000; 90000000000; 120000000000]
                      [RateLimited 1 4 60; RateLimited 2 4 90; RateLimited 3 4 120])
          = requests emptyWorld
            ++ replicate n
                 (fetchRequest always429
                    "https://api.financialdatasets.ai/financial-metrics/?ticker=AAPL&report_period_lte=2025-09-25&limit=5&period=ttm"
                    []).
Proof.
  apply (financialMetricsTool_requests always429 quietHost (fun _ => None)
           (mkFinancialMetricsInput "AAPL" "" "" 0) (mkToolWorld emptyWorld [])
           (mkFinancialMetricsOutput "AAPL" "2025-09-25" "ttm" [] 0
                                     "获取财务指标失败: error") None
           (mkToolWorld
              (mkWorld
                 (replicate 4
                    (getRequest "https://api.financialdatasets.ai/financial-metrics/?ticker=AAPL&report_period_lte=2025-09-25&limit=5&period=ttm"))
                 [60000000000; 90000000000; 120000000000]
                 [RateLimited 1 4 60; RateLimited 2 4 90; RateLimited 3 4 120])
              [Logf "[FinancialMetricsTool] 接收到请求: Symbol=%s, Date=%s, Period=%s, Limit=%d"
                    [ArgString "AAPL"; ArgString ""; ArgString ""; ArgInt 0];
               Logf "[FinancialMetricsTool] 准备调用API: Symbol=%s, Date=%s, Period=%s, Limit=%d"
                    [ArgString "AAPL"; ArgString "2025-09-25"; ArgString "ttm"; ArgInt 5];
               Logf "[FinancialMetricsTool] API调用失败: %v"
                    [ArgError (ErrStatus "AAPL" 429 "rate limited")]])).
  - vm_compute. reflexivity.
  - discriminate.
Defined.

(** ** [get_market_cap] *)

(** X18: a failed facts lookup as the agent sees it.  Asked for today's
    market cap (no date, or today's date) the tool, wired to
    [GetMarketCap], goes to the company-facts endpoint; when the answer
    has a status other than 200 the tool reports a market cap of 0 USD
    and no error: the soft failure of [GetMarketCap] cannot be told from
    a company worth nothing. *)
Theorem marketCapTool_soft_failure E H req s resp w1 :
  mci_Symbol req <> ""%string ->
  mci_Date req = ""%string \/ mci_Date req = nowPlusDays E 0 ->
  Retry.makeAPIRequest E
    ("https://api.financialdatasets.ai/company/facts/?ticker=" +:+ mci_Symbol req)
    (apiHeaders E []) "GET" None 3 (http s) = Some (inr resp, w1) ->
  StatusCode resp <> 200 ->
  exists t',
    marketCapTool E H (marketCapToolFunc E) req s
    = Some ((mkMarketCapOutput (mci_Symbol req) (nowPlusDays E 0) 0%float "USD" "",
             None),
            mkToolWorld
              (mkWorld (requests w1) (sleeps w1)
                       (stdout w1 ++ [FactsError (mci_Symbol req) (StatusCode resp)]))
              t')
    /\ onlyLogged (events s) t'.
Proof.
  intros Hsym Hdate Hreq Hstatus. unfold marketCapTool.
  replace (String.eqb (mci_Symbol req) "") with false
    by (symmetry; by apply String.eqb_neq).
  cbv zeta.
  assert (Hd : (if String.eqb (mci_Date req) "" then nowPlusDays E 0 else mci_Date req)
               = nowPlusDays E 0).
  { destruct Hdate as [-> | ->]; [reflexivity|].
    by destruct (String.eqb (nowPlusDays E 0) ""). }
  rewrite Hd. unfold marketCapToolFunc, GetMarketCap, factsURL.
  rewrite String.eqb_refl, Hreq.
  replace (StatusCode resp =? 200) with false by (symmetry; by apply Z.eqb_neq).
  cbn [negb]. eexists. split; [reflexivity|].
  do 4 apply onlyLogged_log. apply onlyLogged_refl.
Qed.

Lemma marketCapTool_soft_failure_witness :
  exists t',
    marketCapTool MarketCapFacts.serviceDown quietHost
                  (marketCapToolFunc MarketCapFacts.serviceDown)
                  (mkMarketCapInput "AAPL" "") (mkToolWorld emptyWorld [])
    = Some ((mkMarketCapOutput "AAPL" "2025-09-25" 0%float "USD" "", None),
            mkToolWorld
              (mkWorld
                 [getRequest "https://api.financialdatasets.ai/company/facts/?ticker=AAPL"]
                 [] ([] ++ [FactsError "AAPL" 503]))
              t')
    /\ onlyLogged [] t'.
Proof.
  apply (marketCapTool_soft_failure MarketCapFacts.serviceDown quietHost
           (mkMarketCapInput "AAPL" "") (mkToolWorld emptyWorld [])
           (mkResponse 503 "unavailable" false)
           (mkWorld
              [getRequest "https://api.financialdatasets.ai/company/facts/?ticker=AAPL"]
              [] [])).
  - discriminate.
  - by left.
  - vm_compute. reflexivity.
  - cbn. lia.
Defined.

(** ** [analyze_fundamentals] *)

Definition strongROE (m : FinancialMetrics) : bool :=
  match fm_ReturnOnEquity m with Some roe => (0.15 <? roe)%float | None => false end.

Definition lowDebt (m : FinancialMetrics) : bool :=
  match fm_DebtToEquity m with Some de => (de <? 0.5)%float | None => false end.

Definition strongMargin (m : FinancialMetrics) : bool :=
  match fm_OperatingMargin m with Some om => (0.15 <? om)%float | None => false end.

Definition liquid (m : FinancialMetrics) : bool :=
  match fm_CurrentRatio m with Some cr => (1.5 <? cr)%float | None => false end.

Definition fairPE (m : FinancialMetrics) : bool :=
  ((0 <? fm_PriceToEarningsRatio m) && (fm_PriceToEarningsRatio m <? 25))%float.

Definition fairPB (m : FinancialMetrics) : bool :=
  ((0 <? fm_PriceToBookRatio m) && (fm_PriceToBookRatio m <? 3))%float.

Definition points (b : bool) (n : Z) : Z := if b then n else 0.

Section Checks.
Variable H : Host.
Variable m : FinancialMetrics.

Lemma checkROE_score st : fst (checkROE H m st) = fst st + points (strongROE m) 2.
Proof.
  unfold checkROE, strongROE, points. destruct st as [score reasoning].
  destruct (fm_ReturnOnEquity m) as [x|]; [destruct (0.15 <? x)%float|];
    cbn [fst]; lia.
Qed.

Lemma checkDebtToEquity_score st :
  fst (checkDebtToEquity H m st) = fst st + points (lowDebt m) 2.
Proof.
  unfold checkDebtToEquity, lowDebt, points. destruct st as [score reasoning].
  destruct (fm_DebtToEquity m) as [x|]; [destruct (x <? 0.5)%float|];
    cbn [fst]; lia.
Qed.

Lemma checkOperatingMargin_score st :
  fst (checkOperatingMargin H m st) = fst st + points (strongMargin m) 2.
Proof.
  unfold checkOperatingMargin, strongMargin, points. destruct st as [score reasoning].
  destruct (fm_OperatingMargin m) as [x|]; [destruct (0.15 <? x)%float|];
    cbn [fst]; lia.
Qed.

Lemma checkCurrentRatio_score st :
  fst (checkCurrentRatio H m st) = fst st + points (liquid m) 1.
Proof.
  unfold checkCurrentRatio, liquid, points. destruct st as [score reasoning].
  destruct (fm_CurrentRatio m) as [x|]; [destruct (1.5 <? x)%float|];
    cbn [fst]; lia.
Qed.

Lemma checkPE_score st : fst (checkPE H m st) = fst st + points (fairPE m) 1.
Proof.
  unfold checkPE, fairPE, points. destruct st as [score reasoning]. cbv zeta.
  destruct ((0 <? fm_PriceToEarningsRatio m) && (fm_PriceToEarningsRatio m <? 25))%float;
    [cbn [fst]; lia|].
  destruct (0 <? fm_PriceToEarningsRatio m)%float; cbn [fst]; lia.
Qed.

Lemma checkPB_score st : fst (checkPB H m st) = fst st + points (fairPB m) 1.
Proof.
  unfold checkPB, fairPB, points. destruct st as [score reasoning]. cbv zeta.
  destruct ((0 <? fm_PriceToBookRatio m) && (fm_PriceToBookRatio m <? 3))%float;
    [cbn [fst]; lia|].
  destruct (0 <? fm_PriceToBookRatio m)%float; cbn [fst]; lia.
Qed.
End Checks.

(** The answer of the tool for a first record [m]. *)
Definition verdict (H : Host) (m : FinancialMetrics) : FundamentalAnalysisResponse :=
  let st := checkPB H m
              (checkPE H m
                 (checkCurrentRatio H m
                    (checkOperatingMargin H m
                       (checkDebtToEquity H m (checkROE H m (0, [])))))) in
  mkFundamentalAnalysisResponse (fst st) (strings_Join (snd st) "; ") (metricsMap m) "".

Lemma fundamentalAnalysisTool_first H marshalIndent m rest t :
  fst (fundamentalAnalysisTool H marshalIndent
         (mkFundamentalAnalysisRequest (m :: rest)) t)
  = (verdict H m, None).
Proof.
  unfold fundamentalAnalysisTool, verdict. cbn [far_Metrics]. cbv zeta.
  destruct (checkPB H m _) as [score reasoning].
  destruct (saveAnalysisToFile H marshalIndent _ _ _) as [saveErr t1].
  reflexivity.
Qed.

Lemma verdict_score H m :
  Score (verdict H m)
  = points (strongROE m) 2 + points (lowDebt m) 2 + points (strongMargin m) 2
    + points (liquid m) 1 + points (fairPE m) 1 + points (fairPB m) 1.
Proof.
  unfold verdict. cbv zeta. cbn [Score].
  rewrite checkPB_score, checkPE_score, checkCurrentRatio_score,
    checkOperatingMargin_score, checkDebtToEquity_score, checkROE_score.
  cbn [fst]. lia.
Qed.

(** X19: the score of the fundamental analysis.  The tool never returns
    a Go error.  With no metrics it answers score 0 and an error text,
    and writes nothing.  Otherwise only the first record counts, whatever
    follows it; the score is 2 for a return on equity above 0.15, 2 for
    a debt-to-equity ratio below 0.5, 2 for an operating margin above
    0.15, 1 for a current ratio above 1.5, 1 for a P/E ratio strictly
    between 0 and 25 and 1 for a P/B ratio strictly between 0 and 3,
    a missing ratio scoring nothing; so it lies between 0 and 9. *)
Theorem fundamentalAnalysisTool_score H marshalIndent req t :
  snd (fst (fundamentalAnalysisTool H marshalIndent req t)) = None
  /\ 0 <= Score (fst (fst (fundamentalAnalysisTool H marshalIndent req t))) <= 9
  /\ (far_Metrics req = [] ->
      fst (fst (fundamentalAnalysisTool H marshalIndent req t))
      = mkFundamentalAnalysisResponse 0 "基本面数据不足" ∅ "未提供财务指标数据"
      /\ onlyLogged t (snd (fundamentalAnalysisTool H marshalIndent req t)))
  /\ (forall m rest,
        far_Metrics req = m :: rest ->
        fst (fst (fundamentalAnalysisTool H marshalIndent req t))
        = fst (fst (fundamentalAnalysisTool H marshalIndent
                      (mkFundamentalAnalysisRequest [m]) t))
        /\ Score (fst (fst (fundamentalAnalysisTool H marshalIndent req t)))
           = points (strongROE m) 2 + points (lowDebt m) 2 + points (strongMargin m) 2
             + points (liquid m) 1 + points (fairPE m) 1 + points (fairPB m) 1
        /\ fa_Error (fst (fst (fundamentalAnalysisTool H marshalIndent req t)))
           = ""%string).
Proof.
  destruct req as [[|m0 rest0]]; cbn [far_Metrics].
  - unfold fundamentalAnalysisTool. cbn [far_Metrics fst snd Score].
    split; [reflexivity|]. split; [lia|]. split.
    + intros _. split; [reflexivity|]. do 2 apply onlyLogged_log. apply onlyLogged_refl.
    + intros m rest Hm. discriminate Hm.
  - rewrite fundamentalAnalysisTool_first. cbn [fst snd].
    split; [reflexivity|]. split.
    { rewrite verdict_score. unfold points.
      destruct (strongROE m0), (lowDebt m0), (strongMargin m0), (liquid m0),
        (fairPE m0), (fairPB m0); lia. }
    split; [discriminate|].
    intros m rest Hm. inversion Hm; subst m rest.
    rewrite fundamentalAnalysisTool_first. cbn [fst].
    split; [reflexivity|]. split; [apply verdict_score | reflexivity].
Qed.

(** ** The stream check of the agent *)

(** X20: [toolCallChecker] reads the stream up to the first message that
    carries a tool call, or to the first error, and leaves the rest
    unread.  It answers true at such a message, false with the error at
    an error that is not [io.EOF], and false without error at [io.EOF]
    or when the stream has nothing more to give. *)
Theorem toolCallChecker_reads_to_the_first_call sr :
  exists (k : nat) rest,
    sr = replicate k (RecvMessage 0) ++ rest
    /\ match rest with
       | [] => toolCallChecker sr = ((false, None), [])
       | RecvMessage toolCalls :: unread =>
           (0 < toolCalls)%nat /\ toolCallChecker sr = ((true, None), unread)
       | RecvEOF :: unread => toolCallChecker sr = ((false, None), unread)
       | RecvError err :: unread => toolCallChecker sr = ((false, Some err), unread)
       end.
Proof.
  induction sr as [|r sr IH].
  - exists 0%nat, []. split; reflexivity.
  - destruct r as [[|n]| |err].
    + destruct IH as (k & rest & -> & Hrest).
      exists (S k), rest. split; [reflexivity|].
      cbn [toolCallChecker replicate app Nat.ltb Nat.leb].
      exact Hrest.
    + exists 0%nat, (RecvMessage (S n) :: sr). split; [reflexivity|].
      split; [lia | reflexivity].
    + exists 0%nat, (RecvEOF :: sr). split; reflexivity.
    + exists 0%nat, (RecvError err :: sr). split; reflexivity.
Qed.

End ToolFacts.
